(** * The SEO formatters of the portfolio site, and their specification

    A shallow embedding of the string formatters under [src/seo]
    (robots.ts, sitemap.ts, meta-tags.ts, structured-data.ts, config.ts).

    Strings are sequences of code units; one [ascii] stands for one code
    unit, so [String.length] is the [length] property of the source.  The
    ECMAScript built-ins the formatters call ([substring], [replace] with a
    global pattern, [join], [JSON.stringify], ...) are modelled in module
    [JS]; everything else is translated function by function from the
    TypeScript sources. *)

From Stdlib Require Import String Ascii List ZArith Lia Bool.
From Stdlib Require QArith.
From stdpp Require Import gmap strings.
Import ListNotations.
Open Scope string_scope.

(* Concatenation reduces as soon as its left argument starts with a known
   character, which the template literals of the source always do. *)
#[global] Arguments String.append !s1 s2.

(** ** ECMAScript primitives *)

Module JS.

(** The line terminator of a template literal, and the double quote. *)
Definition nlc : ascii := Eval cbv in ascii_of_nat 10.
Definition dqc : ascii := Eval cbv in ascii_of_nat 34.
Definition nl : string := String nlc EmptyString.
Definition dq : string := String dqc EmptyString.

(** An attribute value between double quotes. *)
Definition quoted (s : string) : string := dq ++ s ++ dq.

(** [s.length] *)
Definition str_length (s : string) : Z := Z.of_nat (String.length s).

Fixpoint take (n : nat) (s : string) : string :=
  match n, s with
  | S n', String c s' => String c (take n' s')
  | _, _ => EmptyString
  end.

Fixpoint drop (n : nat) (s : string) : string :=
  match n, s with
  | S n', String _ s' => drop n' s'
  | _, _ => s
  end.

(** [s.substring(start, end)]: both indices are clamped to [0, s.length]
    and swapped when out of order. *)
Definition clamp (n len : Z) : Z := Z.max 0 (Z.min n len).

Definition substring (s : string) (start end_ : Z) : string :=
  let len := str_length s in
  let a := clamp start len in
  let b := clamp end_ len in
  let from := Z.min a b in
  let to := Z.max a b in
  take (Z.to_nat (to - from)) (drop (Z.to_nat from) s).

(** [s.replace(/pattern/g, f)] for a pattern that matches single
    characters: every matching character is replaced by [f] of it, in one
    left-to-right pass over [s]; the replacement text is not rescanned. *)
Fixpoint replace_global (matches : ascii -> bool) (f : ascii -> string)
    (s : string) : string :=
  match s with
  | EmptyString => EmptyString
  | String c s' =>
      (if matches c then f c else String c EmptyString)
        ++ replace_global matches f s'
  end.

(** [s.replace(/c/g, rep)] for a one-character pattern and a replacement
    text without dollar patterns. *)
Definition replace_char (c : ascii) (rep : string) (s : string) : string :=
  replace_global (Ascii.eqb c) (fun _ => rep) s.

(** [array.join(sep)] *)
Fixpoint join (sep : string) (l : list string) : string :=
  match l with
  | [] => EmptyString
  | [x] => x
  | x :: rest => x ++ sep ++ join sep rest
  end.

(** [array.push(x)] on a list threaded through the function. *)
Definition push {A : Type} (l : list A) (x : A) : list A := (l ++ [x])%list.

(** [s.split(sep)] for a one-character separator. *)
Fixpoint split (sep : ascii) (s : string) : list string :=
  match s with
  | EmptyString => [EmptyString]
  | String c s' =>
      if Ascii.eqb c sep then EmptyString :: split sep s'
      else match split sep s' with
           | [] => [String c EmptyString]
           | x :: rest => String c x :: rest
           end
  end.

(** Truthiness of a string ([if (s)]): the empty string is falsy. *)
Definition truthy (s : string) : bool :=
  match s with EmptyString => false | _ => true end.

(** Truthiness of an optional string property: [undefined] is falsy. *)
Definition truthy_opt (o : option string) : bool :=
  match o with Some s => truthy s | None => false end.

(** [s.repeat(n)] *)
Fixpoint repeat (s : string) (n : nat) : string :=
  match n with
  | O => EmptyString
  | S n' => s ++ repeat s n'
  end.

(** [s.endsWith(suffix)] *)
Definition endsWith (s suffix : string) : bool :=
  String.eqb (drop (String.length s - String.length suffix) s) suffix.

(** Does [p] occur at the very start of [s]? *)
Fixpoint starts_with (p s : string) : bool :=
  match p, s with
  | EmptyString, _ => true
  | String a p', String b s' => Ascii.eqb a b && starts_with p' s'
  | String _ _, EmptyString => false
  end.

(** The number of positions of [s] at which [p] occurs; for the tag
    patterns counted below this is the number of matches of
    [s.match(/p/g)]. *)
Fixpoint count (p s : string) : nat :=
  match s with
  | EmptyString => 0
  | String c s' => (if starts_with p s then 1 else 0) + count p s'
  end.

(** [s.indexOf(p)]: the first position at which [p] occurs, or -1. *)
Fixpoint index_from (p s : string) (i : Z) : Z :=
  match s with
  | EmptyString => if starts_with p s then i else (-1)%Z
  | String _ s' => if starts_with p s then i else index_from p s' (i + 1)%Z
  end.

Definition indexOf (s p : string) : Z := index_from p s 0%Z.

(** [s.includes(p)] for a non-empty [p]. *)
Definition includes (s p : string) : bool := negb (Nat.eqb (count p s) 0).

(** No character of [s] is [c]. *)
Fixpoint free_of (c : ascii) (s : string) : bool :=
  match s with
  | EmptyString => true
  | String d s' => negb (Ascii.eqb d c) && free_of c s'
  end.

(** Every character of [s] satisfies [P]. *)
Fixpoint all_chars (P : ascii -> bool) (s : string) : bool :=
  match s with
  | EmptyString => true
  | String d s' => P d && all_chars P s'
  end.

(** Is [c] one of the characters of [set]? *)
Fixpoint char_in (set : string) (c : ascii) : bool :=
  match set with
  | EmptyString => false
  | String d set' => Ascii.eqb c d || char_in set' c
  end.

(** The characters the conversion of a number to a string can produce:
    digits, the point, the exponent marker and signs, and the letters of
    [NaN] and [Infinity]. *)
Definition number_char (c : ascii) : bool := char_in "0123456789.e+-NaInfity" c.

(** The contents of the elements that [open] and [close] delimit in [s],
    in document order.  [inside] holds the text collected since the last
    [open]; [skip] counts the characters of a delimiter still to pass. *)
Fixpoint scan_elements (open close : string) (inside : option string)
    (skip : nat) (s : string) : list string :=
  match s with
  | EmptyString => []
  | String c s' =>
      match skip with
      | S k => scan_elements open close inside k s'
      | O =>
          match inside with
          | None =>
              if starts_with open s
              then scan_elements open close (Some EmptyString)
                     (String.length open - 1) s'
              else scan_elements open close None 0 s'
          | Some acc =>
              if starts_with close s
              then acc :: scan_elements open close None
                            (String.length close - 1) s'
              else scan_elements open close
                     (Some (acc ++ String c EmptyString)) 0 s'
          end
      end
  end.

Definition element_contents (tag : string) (s : string) : list string :=
  scan_elements ("<" ++ tag ++ ">") ("</" ++ tag ++ ">") None 0 s.

End JS.

Import JS.

(** ** JSON values, [JSON.stringify] and [JSON.parse]

    The values the structured-data generators build are strings, arrays
    and objects; an object keeps its properties in insertion order.
    [stringify] is [JSON.stringify(value, null, 2)] on such values, and
    [parse] is [JSON.parse] on the texts of such values: it accepts the
    JSON grammar of strings, arrays and objects (and so rejects numbers
    and the literals [true], [false] and [null], which do not occur). *)

Module JSON.

#[local] Set Warnings "-register-all".

Inductive value : Type :=
  | Str (s : string)
  | Arr (items : list value)
  | Obj (props : list (string * value)).

(** [o[key]] *)
Fixpoint get (props : list (string * value)) (key : string) : option value :=
  match props with
  | [] => None
  | (k, v) :: rest => if String.eqb k key then Some v else get rest key
  end.

(** [o[key] = v]: an existing property keeps its place and takes the new
    value, a new property is added last. *)
Fixpoint set (props : list (string * value)) (key : string) (v : value)
    : list (string * value) :=
  match props with
  | [] => [(key, v)]
  | (k, w) :: rest =>
      if String.eqb k key then (k, v) :: rest
      else (k, w) :: set rest key v
  end.

Definition bsc : ascii := Eval cbv in ascii_of_nat 92.
Definition bs : string := String bsc EmptyString.

Definition hex_digit (n : nat) : ascii :=
  match n with
  | 0 => "0" | 1 => "1" | 2 => "2" | 3 => "3" | 4 => "4" | 5 => "5"
  | 6 => "6" | 7 => "7" | 8 => "8" | 9 => "9" | 10 => "a" | 11 => "b"
  | 12 => "c" | 13 => "d" | 14 => "e" | _ => "f"
  end%nat%char.

(** One code unit inside a quoted string: the quote and the backslash are
    escaped, the control characters have their short or four-digit
    escapes, every other unit stands for itself. *)
Definition quote_char (c : ascii) : string :=
  let n := nat_of_ascii c in
  if Ascii.eqb c dqc then bs ++ dq
  else if Ascii.eqb c bsc then bs ++ bs
  else if Nat.eqb n 8 then bs ++ "b"
  else if Nat.eqb n 9 then bs ++ "t"
  else if Nat.eqb n 10 then bs ++ "n"
  else if Nat.eqb n 12 then bs ++ "f"
  else if Nat.eqb n 13 then bs ++ "r"
  else if Nat.ltb n 32 then
    bs ++ "u00" ++ String (hex_digit (n / 16)) (String (hex_digit (n mod 16)) EmptyString)
  else String c EmptyString.

Fixpoint escape_chars (s : string) : string :=
  match s with
  | EmptyString => EmptyString
  | String c s' => quote_char c ++ escape_chars s'
  end.

Definition quote (s : string) : string := dq ++ escape_chars s ++ dq.

(** The indentation at a nesting level, with the gap of two spaces. *)
Definition indent (level : nat) : string := repeat "  " level.

Fixpoint serialize (level : nat) (v : value) {struct v} : string :=
  match v with
  | Str s => quote s
  | Arr items =>
      match items with
      | [] => "[]"
      | _ =>
          "[" ++ nl ++ indent (S level)
          ++ join ("," ++ nl ++ indent (S level))
               (List.map (serialize (S level)) items)
          ++ nl ++ indent level ++ "]"
      end
  | Obj props =>
      match props with
      | [] => "{}"
      | _ =>
          "{" ++ nl ++ indent (S level)
          ++ join ("," ++ nl ++ indent (S level))
               (List.map (fun kv : string * value =>
                            let '(k, w) := kv in
                            quote k ++ ": " ++ serialize (S level) w)
                         props)
          ++ nl ++ indent level ++ "}"
      end
  end.

(** [JSON.stringify(v, null, 2)] *)
Definition stringify (v : value) : string := serialize 0 v.

(** White space between tokens. *)
Definition is_ws (c : ascii) : bool :=
  let n := nat_of_ascii c in
  Nat.eqb n 32 || Nat.eqb n 9 || Nat.eqb n 10 || Nat.eqb n 13.

Fixpoint skip_ws (s : string) : string :=
  match s with
  | EmptyString => EmptyString
  | String c s' => if is_ws c then skip_ws s' else s
  end.

Definition hex_value (c : ascii) : option nat :=
  let n := nat_of_ascii c in
  if Nat.leb 48 n && Nat.leb n 57 then Some (n - 48)%nat
  else if Nat.leb 97 n && Nat.leb n 102 then Some (n - 87)%nat
  else if Nat.leb 65 n && Nat.leb n 70 then Some (n - 55)%nat
  else None.

Definition hex4 (a b c d : ascii) : option nat :=
  match hex_value a, hex_value b, hex_value c, hex_value d with
  | Some x, Some y, Some z, Some w => Some (((x * 16 + y) * 16 + z) * 16 + w)%nat
  | _, _, _, _ => None
  end.

Definition cons_char (c : ascii) (r : option (string * string))
    : option (string * string) :=
  match r with
  | Some (str, rest) => Some (String c str, rest)
  | None => None
  end.

(** The characters of a string after its opening quote, up to the closing
    quote: the text they denote and what follows the closing quote.  A
    four-digit escape of a unit above 255 is outside the strings of this
    model and is rejected. *)
Fixpoint parse_chars (s : string) : option (string * string) :=
  match s with
  | EmptyString => None
  | String c s' =>
      if Ascii.eqb c dqc then Some (EmptyString, s')
      else if Ascii.eqb c bsc then
        match s' with
        | EmptyString => None
        | String e s'' =>
            if Ascii.eqb e dqc then cons_char dqc (parse_chars s'')
            else if Ascii.eqb e bsc then cons_char bsc (parse_chars s'')
            else if Ascii.eqb e "/" then cons_char "/" (parse_chars s'')
            else if Ascii.eqb e "b" then cons_char (ascii_of_nat 8) (parse_chars s'')
            else if Ascii.eqb e "t" then cons_char (ascii_of_nat 9) (parse_chars s'')
            else if Ascii.eqb e "n" then cons_char (ascii_of_nat 10) (parse_chars s'')
            else if Ascii.eqb e "f" then cons_char (ascii_of_nat 12) (parse_chars s'')
            else if Ascii.eqb e "r" then cons_char (ascii_of_nat 13) (parse_chars s'')
            else if Ascii.eqb e "u" then
              match s'' with
              | String h1 (String h2 (String h3 (String h4 s5))) =>
                  match hex4 h1 h2 h3 h4 with
                  | Some n =>
                      if Nat.ltb n 256
                      then cons_char (ascii_of_nat n) (parse_chars s5)
                      else None
                  | None => None
                  end
              | _ => None
              end
            else None
        end
      else if Nat.ltb (nat_of_ascii c) 32 then None
      else cons_char c (parse_chars s')
  end.

(** The object that results from defining the members in order: a key
    that comes again overwrites the earlier value. *)
Definition of_members (members : list (string * value)) : list (string * value) :=
  fold_left (fun acc kv => set acc (fst kv) (snd kv)) members [].

Fixpoint parse_value (fuel : nat) (s : string) {struct fuel}
    : option (value * string) :=
  match fuel with
  | O => None
  | S fuel' =>
      match skip_ws s with
      | EmptyString => None
      | String c s' =>
          if Ascii.eqb c dqc then
            match parse_chars s' with
            | Some (str, rest) => Some (Str str, rest)
            | None => None
            end
          else if Ascii.eqb c "[" then
            match skip_ws s' with
            | String "]" rest => Some (Arr [], rest)
            | _ =>
                match parse_elements fuel' s' with
                | Some (items, rest) => Some (Arr items, rest)
                | None => None
                end
            end
          else if Ascii.eqb c "{" then
            match skip_ws s' with
            | String "}" rest => Some (Obj [], rest)
            | _ =>
                match parse_members fuel' s' with
                | Some (members, rest) => Some (Obj (of_members members), rest)
                | None => None
                end
            end
          else None
      end
  end
with parse_elements (fuel : nat) (s : string) {struct fuel}
    : option (list value * string) :=
  match fuel with
  | O => None
  | S fuel' =>
      match parse_value fuel' s with
      | None => None
      | Some (v, after) =>
          match skip_ws after with
          | String c rest =>
              if Ascii.eqb c "," then
                match parse_elements fuel' rest with
                | Some (items, rest') => Some (v :: items, rest')
                | None => None
                end
              else if Ascii.eqb c "]" then Some ([v], rest)
              else None
          | EmptyString => None
          end
      end
  end
with parse_members (fuel : nat) (s : string) {struct fuel}
    : option (list (string * value) * string) :=
  match fuel with
  | O => None
  | S fuel' =>
      match skip_ws s with
      | String q s1 =>
          if Ascii.eqb q dqc then
            match parse_chars s1 with
            | None => None
            | Some (key, s2) =>
                match skip_ws s2 with
                | String colon s3 =>
                    if Ascii.eqb colon ":" then
                      match parse_value fuel' s3 with
                      | None => None
                      | Some (v, after) =>
                          match skip_ws after with
                          | String c rest =>
                              if Ascii.eqb c "," then
                                match parse_members fuel' rest with
                                | Some (members, rest') =>
                                    Some ((key, v) :: members, rest')
                                | None => None
                                end
                              else if Ascii.eqb c "}" then Some ([(key, v)], rest)
                              else None
                          | EmptyString => None
                          end
                      end
                    else None
                | EmptyString => None
                end
            end
          else None
      | EmptyString => None
      end
  end.

(** [JSON.parse(s)]: [None] stands for the [SyntaxError].  Every value
    takes at least one character, so the length of the text is fuel
    enough. *)
Definition parse (s : string) : option value :=
  match parse_value (String.length s) s with
  | Some (v, rest) =>
      match skip_ws rest with
      | EmptyString => Some v
      | String _ _ => None
      end
  | None => None
  end.

(** The number of values and members of a value, the fuel it takes. *)
Fixpoint size (v : value) : nat :=
  match v with
  | Str _ => 1
  | Arr items => S (list_sum (List.map (fun w => S (size w)) items))
  | Obj props => S (list_sum (List.map (fun kv : string * value =>
                                          let '(_, w) := kv in S (size w)) props))
  end.

(** No key twice in a list of keys. *)
Fixpoint distinct (keys : list string) : bool :=
  match keys with
  | [] => true
  | k :: rest => negb (existsb (String.eqb k) rest) && distinct rest
  end.

(** A value that an object model can hold: no object in it has a key
    twice. *)
Fixpoint well_formed (v : value) : bool :=
  match v with
  | Str _ => true
  | Arr items => forallb well_formed items
  | Obj props =>
      distinct (List.map fst props)
      && forallb (fun kv : string * value => let '(_, w) := kv in well_formed w)
           props
  end.

(** A text that opens with a quote, a bracket or a brace, as every
    serialized value does. *)
Definition opens_value (s : string) : Prop :=
  exists c t, s = String c t /\ (c = dqc \/ c = "["%char \/ c = "{"%char).

(** The value is read back from its text at any nesting level, whatever
    follows it, given fuel for its size and no key twice. *)
Definition reads_back (v : value) : Prop :=
  forall (level fuel : nat) (r : string),
    (size v <= fuel)%nat ->
    well_formed v = true ->
    parse_value fuel (serialize level v ++ r) = Some (v, r).

End JSON.

(** ** robots.ts *)

Module Robots.

Definition generateRobotsTxt (sitemapUrl : string) : string :=
  "User-agent: *" ++ nl ++
  "Allow: /" ++ nl ++
  nl ++
  "Sitemap: " ++ sitemapUrl.

End Robots.

(** ** meta-tags.ts *)

Module MetaTags.

Record MetaTagsConfig := {
  title : string;
  description : string;
  canonicalUrl : string;
  keywords : option (list string);
  author : option string
}.

Record OpenGraphTags := {
  ogTitle : string;
  ogDescription : string;
  ogImage : string;
  ogType : string;
  ogUrl : string;
  ogSiteName : option string
}.

Record TwitterCardTags := {
  twitterCard : string;
  twitterTitle : string;
  twitterDescription : string;
  twitterImage : string;
  twitterSite : option string;
  twitterCreator : option string
}.

Definition truncateDescription (description : string) (maxLength : Z) : string :=
  if (str_length description <=? maxLength)%Z then description
  else substring description 0 (maxLength - 3) ++ "...".

(** The default of the [maxLength] parameter. *)
Definition defaultMaxLength : Z := 160.

(** The character class of the pattern in [escapeHtml]: ampersand, less
    than, greater than, double quote, apostrophe. *)
Definition html_special (c : ascii) : bool :=
  Ascii.eqb c "&" || Ascii.eqb c "<" || Ascii.eqb c ">"
  || Ascii.eqb c dqc || Ascii.eqb c "'".

(** The lookup table [map] of [escapeHtml]; a key that is not in the
    table reads as [undefined]. *)
Definition html_map : list (ascii * string) :=
  [ ("&"%char, "&amp;");
    ("<"%char, "&lt;");
    (">"%char, "&gt;");
    (dqc, "&quot;");
    ("'"%char, "&#039;") ].

Fixpoint table_get (m : list (ascii * string)) (c : ascii) : option string :=
  match m with
  | [] => None
  | (k, v) :: m' => if Ascii.eqb c k then Some v else table_get m' c
  end.

Definition escapeHtml (text : string) : string :=
  replace_global html_special
    (fun char => match table_get html_map char with
                 | Some e => e
                 | None => "undefined"
                 end)
    text.

Definition generateBasicMetaTags (config : MetaTagsConfig) : string :=
  let description := truncateDescription config.(description) defaultMaxLength in
  let tags : list string := [] in
  let tags := push tags ("<meta charset=" ++ quoted "UTF-8" ++ ">") in
  let tags := push tags ("<meta name=" ++ quoted "viewport" ++ " content="
                         ++ quoted "width=device-width, initial-scale=1.0" ++ ">") in
  let tags := push tags ("<title>" ++ escapeHtml config.(title) ++ "</title>") in
  let tags := push tags ("<meta name=" ++ quoted "description" ++ " content="
                         ++ quoted (escapeHtml description) ++ ">") in
  let tags :=
    match config.(keywords) with
    | Some kws =>
        if (0 <? List.length kws)%nat then
          let keywordsStr := join ", " kws in
          push tags ("<meta name=" ++ quoted "keywords" ++ " content="
                     ++ quoted (escapeHtml keywordsStr) ++ ">")
        else tags
    | None => tags
    end in
  let tags :=
    match config.(author) with
    | Some a =>
        if truthy a then
          push tags ("<meta name=" ++ quoted "author" ++ " content="
                     ++ quoted (escapeHtml a) ++ ">")
        else tags
    | None => tags
    end in
  let tags := push tags ("<link rel=" ++ quoted "canonical" ++ " href="
                         ++ quoted (escapeHtml config.(canonicalUrl)) ++ ">") in
  join nl tags.

(** The opening of a [<meta>] tag up to and including the quoted value of
    its identifying attribute ([name] or [property]). *)
Definition meta_open (attr value : string) : string :=
  "<meta " ++ attr ++ "=" ++ quoted value.

Definition generateOpenGraphTags (config : OpenGraphTags) : string :=
  let tags : list string := [] in
  let tags := push tags ("<meta property=" ++ quoted "og:title" ++ " content="
                         ++ quoted (escapeHtml config.(ogTitle)) ++ ">") in
  let tags := push tags ("<meta property=" ++ quoted "og:description" ++ " content="
                         ++ quoted (escapeHtml config.(ogDescription)) ++ ">") in
  let tags := push tags ("<meta property=" ++ quoted "og:image" ++ " content="
                         ++ quoted (escapeHtml config.(ogImage)) ++ ">") in
  let tags := push tags ("<meta property=" ++ quoted "og:type" ++ " content="
                         ++ quoted (escapeHtml config.(ogType)) ++ ">") in
  let tags := push tags ("<meta property=" ++ quoted "og:url" ++ " content="
                         ++ quoted (escapeHtml config.(ogUrl)) ++ ">") in
  let tags :=
    match config.(ogSiteName) with
    | Some n =>
        if truthy n then
          push tags ("<meta property=" ++ quoted "og:site_name" ++ " content="
                     ++ quoted (escapeHtml n) ++ ">")
        else tags
    | None => tags
    end in
  join nl tags.

Definition generateTwitterCardTags (config : TwitterCardTags) : string :=
  let tags : list string := [] in
  let tags := push tags ("<meta name=" ++ quoted "twitter:card" ++ " content="
                         ++ quoted (escapeHtml config.(twitterCard)) ++ ">") in
  let tags := push tags ("<meta name=" ++ quoted "twitter:title" ++ " content="
                         ++ quoted (escapeHtml config.(twitterTitle)) ++ ">") in
  let tags := push tags ("<meta name=" ++ quoted "twitter:description" ++ " content="
                         ++ quoted (escapeHtml config.(twitterDescription)) ++ ">") in
  let tags := push tags ("<meta name=" ++ quoted "twitter:image" ++ " content="
                         ++ quoted (escapeHtml config.(twitterImage)) ++ ">") in
  let tags :=
    match config.(twitterSite) with
    | Some h =>
        if truthy h then
          push tags ("<meta name=" ++ quoted "twitter:site" ++ " content="
                     ++ quoted (escapeHtml h) ++ ">")
        else tags
    | None => tags
    end in
  let tags :=
    match config.(twitterCreator) with
    | Some h =>
        if truthy h then
          push tags ("<meta name=" ++ quoted "twitter:creator" ++ " content="
                     ++ quoted (escapeHtml h) ++ ">")
        else tags
    | None => tags
    end in
  join nl tags.

(** [CompleteMetaTagsConfig] extends the three interfaces: it has the
    fields of all of them. *)
Module Complete.
Record t := {
  title : string;
  description : string;
  canonicalUrl : string;
  keywords : option (list string);
  author : option string;
  ogTitle : string;
  ogDescription : string;
  ogImage : string;
  ogType : string;
  ogUrl : string;
  ogSiteName : option string;
  twitterCard : string;
  twitterTitle : string;
  twitterDescription : string;
  twitterImage : string;
  twitterSite : option string;
  twitterCreator : option string
}.
End Complete.

Definition generateMetaTags (config : Complete.t) : string :=
  let sections : list string := [] in
  let sections :=
    push sections
      (generateBasicMetaTags
         {| title := config.(Complete.title);
            description := config.(Complete.description);
            canonicalUrl := config.(Complete.canonicalUrl);
            keywords := config.(Complete.keywords);
            author := config.(Complete.author) |}) in
  let sections :=
    push sections
      (generateOpenGraphTags
         {| ogTitle := config.(Complete.ogTitle);
            ogDescription := config.(Complete.ogDescription);
            ogImage := config.(Complete.ogImage);
            ogType := config.(Complete.ogType);
            ogUrl := config.(Complete.ogUrl);
            ogSiteName := config.(Complete.ogSiteName) |}) in
  let sections :=
    push sections
      (generateTwitterCardTags
         {| twitterCard := config.(Complete.twitterCard);
            twitterTitle := config.(Complete.twitterTitle);
            twitterDescription := config.(Complete.twitterDescription);
            twitterImage := config.(Complete.twitterImage);
            twitterSite := config.(Complete.twitterSite);
            twitterCreator := config.(Complete.twitterCreator) |}) in
  join nl sections.

(** Whether an optional property was provided at all (is not
    [undefined]), whatever its value. *)
Definition provided {A : Type} (o : option A) : bool :=
  match o with Some _ => true | None => false end.

(** The text one character becomes under [escapeHtml]. *)
Definition html_entity (c : ascii) : string :=
  if html_special c
  then match table_get html_map c with
       | Some e => e
       | None => "undefined"
       end
  else String c EmptyString.

(** The text of the description that [generateBasicMetaTags] shows,
    before it is escaped. *)
Definition shown_description (config : MetaTagsConfig) : string :=
  truncateDescription config.(description) defaultMaxLength.

(** The openings of the tags that every document must hold, by section. *)
Definition basic_required : list string :=
  [ "<meta charset="; meta_open "name" "viewport"; "<title>";
    meta_open "name" "description"; "<link rel=" ++ quoted "canonical" ].

Definition og_required : list string :=
  [ meta_open "property" "og:title"; meta_open "property" "og:description";
    meta_open "property" "og:image"; meta_open "property" "og:type";
    meta_open "property" "og:url" ].

Definition twitter_required : list string :=
  [ meta_open "name" "twitter:card"; meta_open "name" "twitter:title";
    meta_open "name" "twitter:description"; meta_open "name" "twitter:image" ].

End MetaTags.

(** ** sitemap.ts *)

Module Sitemap.

(** The seven literals of the [changefreq] union type. *)
Inductive ChangeFreq :=
  always | hourly | daily | weekly | monthly | yearly | never.

Definition changefreq_text (f : ChangeFreq) : string :=
  match f with
  | always => "always"
  | hourly => "hourly"
  | daily => "daily"
  | weekly => "weekly"
  | monthly => "monthly"
  | yearly => "yearly"
  | never => "never"
  end.

Definition escapeXml (str : string) : string :=
  replace_char "'" "&apos;"
    (replace_char dqc "&quot;"
      (replace_char ">" "&gt;"
        (replace_char "<" "&lt;"
          (replace_char "&" "&amp;" str)))).

(** The characters [escapeXml] replaces. *)
Definition xml_special (c : ascii) : bool :=
  Ascii.eqb c "&" || Ascii.eqb c "<" || Ascii.eqb c ">"
  || Ascii.eqb c dqc || Ascii.eqb c "'".

(** The entity an XML-special character stands for, and every other
    character as itself: the translation the specification asks of
    [escapeXml], one character at a time. *)
Definition xml_entity (c : ascii) : string :=
  if Ascii.eqb c "&" then "&amp;"
  else if Ascii.eqb c "<" then "&lt;"
  else if Ascii.eqb c ">" then "&gt;"
  else if Ascii.eqb c dqc then "&quot;"
  else if Ascii.eqb c "'" then "&apos;"
  else String c EmptyString.

Fixpoint escape_each (s : string) : string :=
  match s with
  | EmptyString => EmptyString
  | String c s' => xml_entity c ++ escape_each s'
  end.

(** The opening and closing tags of an entry and of its four children. *)
Definition entry_tags : list string :=
  ["<url>"; "</url>"; "<loc>"; "</loc>"; "<lastmod>"; "</lastmod>";
   "<changefreq>"; "</changefreq>"; "<priority>"; "</priority>"].

(** The names, with the closing semicolon, of the five entities. *)
Definition entity_names : list string :=
  ["amp;"; "lt;"; "gt;"; "quot;"; "apos;"].

Section WithNumber.

(** The [number] type of the source and its conversion to a string, which
    the template literal applies to [url.priority]. *)
Variable number : Type.
Variable Number_toString : number -> string.

Record SitemapURL := {
  loc : string;
  lastmod : string;
  changefreq : ChangeFreq;
  priority : number
}.

(** The arrow function that [generateSitemap] maps over [urls]. *)
Definition url_entry (url : SitemapURL) : string :=
  "  <url>" ++ nl ++
  "    <loc>" ++ escapeXml url.(loc) ++ "</loc>" ++ nl ++
  "    <lastmod>" ++ url.(lastmod) ++ "</lastmod>" ++ nl ++
  "    <changefreq>" ++ changefreq_text url.(changefreq) ++ "</changefreq>" ++ nl ++
  "    <priority>" ++ Number_toString url.(priority) ++ "</priority>" ++ nl ++
  "  </url>".

Definition generateSitemap (urls : list SitemapURL) : string :=
  let urlEntries := join nl (List.map url_entry urls) in
  "<?xml version=" ++ quoted "1.0" ++ " encoding=" ++ quoted "UTF-8" ++ "?>" ++ nl ++
  "<urlset xmlns=" ++ quoted "http://www.sitemaps.org/schemas/sitemap/0.9" ++ ">" ++ nl ++
  urlEntries ++ nl ++
  "</urlset>".

(** The two fixed parts of the document. *)
Definition sitemap_header : string :=
  "<?xml version=" ++ quoted "1.0" ++ " encoding=" ++ quoted "UTF-8" ++ "?>" ++ nl ++
  "<urlset xmlns=" ++ quoted "http://www.sitemaps.org/schemas/sitemap/0.9" ++ ">".

Definition sitemap_footer : string := "</urlset>".

(** The input contract the raw interpolation of [lastmod] relies on: the
    date text holds no markup. *)
Definition plain_lastmod (url : SitemapURL) : bool := free_of "<" url.(lastmod).

End WithNumber.

(** A sample of the number type for evaluating the generator: the
    priorities 0, 0.1, ..., 0.9 and 1 counted in tenths, with the text the
    conversion gives them (the priority 1.0 reads 1). *)
Definition tenths_toString (n : nat) : string :=
  match n with
  | 0 => "0" | 1 => "0.1" | 2 => "0.2" | 3 => "0.3" | 4 => "0.4"
  | 5 => "0.5" | 6 => "0.6" | 7 => "0.7" | 8 => "0.8" | 9 => "0.9"
  | _ => "1"
  end%nat.

(** The text between [<url>] and [</url>] of the entry of [url]. *)
Definition url_inner {number : Type} (Number_toString : number -> string)
    (url : SitemapURL number) : string :=
  nl ++
  "    <loc>" ++ escapeXml (loc number url) ++ "</loc>" ++ nl ++
  "    <lastmod>" ++ lastmod number url ++ "</lastmod>" ++ nl ++
  "    <changefreq>" ++ changefreq_text (changefreq number url) ++ "</changefreq>" ++ nl ++
  "    <priority>" ++ Number_toString (priority number url) ++ "</priority>" ++ nl ++
  "  ".

Arguments loc {number} _.
Arguments lastmod {number} _.
Arguments changefreq {number} _.
Arguments priority {number} _.
Arguments Build_SitemapURL {number} _ _ _ _.
Arguments url_entry {number} _ _.
Arguments generateSitemap {number} _ _.
Arguments plain_lastmod {number} _.

End Sitemap.

(** ** structured-data.ts *)

Module StructuredData.
Import JSON.

Module Location.
Record t := { city : string; region : string; country : string }.
End Location.

Module SocialProfiles.
Record t := { github : string; linkedin : string }.
End SocialProfiles.

Module PersonData.
Record t := {
  name : string;
  jobTitle : string;
  email : string;
  phone : string;
  location : Location.t;
  socialProfiles : SocialProfiles.t;
  image : option string;
  bio : option string
}.
End PersonData.

Module ExperienceData.
Record t := {
  company : string;
  role : string;
  description : string;
  startDate : string;
  endDate : option string;
  location : string;
  skills : option (list string);
  companyUrl : option string
}.
End ExperienceData.

Module ProjectData.
Record t := {
  name : string;
  description : string;
  url : option string;
  technologies : list string;
  dateCreated : option string;
  datePublished : option string
}.
End ProjectData.

Module EducationData.
Record t := {
  institution : string;
  degree : string;
  field : string;
  startDate : string;
  endDate : string;
  gpa : option string;
  location : option string
}.
End EducationData.

(** [if (x) schema[key] = x] for an optional string [x]. *)
Definition set_if_truthy (schema : list (string * value)) (key : string)
    (x : option string) : list (string * value) :=
  match x with
  | Some text => if truthy text then set schema key (Str text) else schema
  | None => schema
  end.

(** The object [generatePersonSchema] hands to [JSON.stringify]. *)
Definition personSchema (data : PersonData.t) (siteUrl : string)
    : list (string * value) :=
  let schema :=
    [ ("@context", Str "https://schema.org");
      ("@type", Str "Person");
      ("name", Str data.(PersonData.name));
      ("jobTitle", Str data.(PersonData.jobTitle));
      ("url", Str siteUrl);
      ("email", Str data.(PersonData.email));
      ("telephone", Str data.(PersonData.phone));
      ("address", Obj
         [ ("@type", Str "PostalAddress");
           ("addressLocality", Str data.(PersonData.location).(Location.city));
           ("addressRegion", Str data.(PersonData.location).(Location.region));
           ("addressCountry", Str data.(PersonData.location).(Location.country)) ]);
      ("sameAs", Arr
         [ Str data.(PersonData.socialProfiles).(SocialProfiles.github);
           Str data.(PersonData.socialProfiles).(SocialProfiles.linkedin) ]) ] in
  let schema := set_if_truthy schema "image" data.(PersonData.image) in
  let schema := set_if_truthy schema "description" data.(PersonData.bio) in
  schema.

Definition generatePersonSchema (data : PersonData.t) (siteUrl : string) : string :=
  stringify (Obj (personSchema data siteUrl)).

(** The arrow function that [generateWorkExperienceSchema] maps over
    [experiences]. *)
Definition workExperienceSchema (exp : ExperienceData.t) : value :=
  let schema :=
    [ ("@context", Str "https://schema.org");
      ("@type", Str "WorkExperience");
      ("name", Str exp.(ExperienceData.role));
      ("description", Str exp.(ExperienceData.description));
      ("startDate", Str exp.(ExperienceData.startDate));
      ("employer", Obj
         [ ("@type", Str "Organization");
           ("name", Str exp.(ExperienceData.company)) ]) ] in
  let schema := set_if_truthy schema "endDate" exp.(ExperienceData.endDate) in
  let schema :=
    match exp.(ExperienceData.companyUrl) with
    | Some companyUrl =>
        if truthy companyUrl then
          match get schema "employer" with
          | Some (Obj employer) =>
              set schema "employer" (Obj (set employer "url" (Str companyUrl)))
          | _ => schema
          end
        else schema
    | None => schema
    end in
  let schema :=
    if truthy exp.(ExperienceData.location)
    then set schema "location" (Str exp.(ExperienceData.location))
    else schema in
  let schema :=
    match exp.(ExperienceData.skills) with
    | Some skills =>
        if (0 <? List.length skills)%nat
        then set schema "skills" (Arr (List.map Str skills))
        else schema
    | None => schema
    end in
  Obj schema.

Definition generateWorkExperienceSchema (experiences : list ExperienceData.t)
    : string :=
  let schemas := List.map workExperienceSchema experiences in
  stringify (Arr schemas).

(** The arrow function that [generateCreativeWorkSchema] maps over
    [projects]. *)
Definition creativeWorkSchema (authorName : string) (project : ProjectData.t)
    : value :=
  let schema :=
    [ ("@context", Str "https://schema.org");
      ("@type", Str "CreativeWork");
      ("name", Str project.(ProjectData.name));
      ("description", Str project.(ProjectData.description));
      ("author", Obj
         [ ("@type", Str "Person");
           ("name", Str authorName) ]) ] in
  let schema := set_if_truthy schema "url" project.(ProjectData.url) in
  let schema := set_if_truthy schema "dateCreated" project.(ProjectData.dateCreated) in
  let schema := set_if_truthy schema "datePublished" project.(ProjectData.datePublished) in
  let schema :=
    if (0 <? List.length project.(ProjectData.technologies))%nat
    then set schema "keywords" (Arr (List.map Str project.(ProjectData.technologies)))
    else schema in
  Obj schema.

Definition generateCreativeWorkSchema (projects : list ProjectData.t)
    (authorName : string) : string :=
  let schemas := List.map (creativeWorkSchema authorName) projects in
  stringify (Arr schemas).

(** The arrow function that [generateEducationSchema] maps over
    [education]. *)
Definition educationSchema (edu : EducationData.t) : value :=
  let schema :=
    [ ("@context", Str "https://schema.org");
      ("@type", Str "EducationalOccupationalCredential");
      ("name", Str (edu.(EducationData.degree) ++ " in " ++ edu.(EducationData.field)));
      ("recognizedBy", Obj
         [ ("@type", Str "Organization");
           ("name", Str edu.(EducationData.institution)) ]) ] in
  let schema :=
    if truthy edu.(EducationData.degree)
    then set (set schema "educationalLevel" (Str edu.(EducationData.degree)))
           "credentialCategory" (Str edu.(EducationData.field))
    else schema in
  let schema :=
    if truthy edu.(EducationData.startDate)
    then set schema "startDate" (Str edu.(EducationData.startDate))
    else schema in
  let schema :=
    if truthy edu.(EducationData.endDate)
    then set schema "endDate" (Str edu.(EducationData.endDate))
    else schema in
  let schema := set_if_truthy schema "grade" edu.(EducationData.gpa) in
  let descriptionParts : list string := [] in
  let descriptionParts :=
    if truthy edu.(EducationData.degree) && truthy edu.(EducationData.field)
    then push descriptionParts
           (edu.(EducationData.degree) ++ " in " ++ edu.(EducationData.field))
    else descriptionParts in
  let descriptionParts :=
    if truthy edu.(EducationData.institution)
    then push descriptionParts ("from " ++ edu.(EducationData.institution))
    else descriptionParts in
  let descriptionParts :=
    match edu.(EducationData.location) with
    | Some location =>
        if truthy location
        then push descriptionParts ("(" ++ location ++ ")")
        else descriptionParts
    | None => descriptionParts
    end in
  let schema :=
    if (0 <? List.length descriptionParts)%nat
    then set schema "description" (Str (join " " descriptionParts))
    else schema in
  Obj schema.

Definition generateEducationSchema (education : list EducationData.t) : string :=
  let schemas := List.map educationSchema education in
  stringify (Arr schemas).

(** The four literals of the [@type] property. *)
Definition schema_types : list string :=
  ["Person"; "WorkExperience"; "CreativeWork"; "EducationalOccupationalCredential"].

(** An emitted object: its [@context] is the Schema.org address and its
    [@type] is [type]. *)
Definition is_schema_object (type : string) (v : value) : Prop :=
  match v with
  | Obj props =>
      get props "@context" = Some (Str "https://schema.org")
      /\ get props "@type" = Some (Str type)
  | _ => False
  end.

(** What an optional text contributes to a schema: its value when it is
    present and not empty, nothing otherwise. *)
Definition optional_text (x : option string) : option value :=
  match x with
  | Some text => if truthy text then Some (Str text) else None
  | None => None
  end.

(** The key that an optional property adds, if it adds one. *)
Definition optional_key (key : string) (present : bool) : list string :=
  if present then [key] else [].

(** The keys of an object, in the order of its text. *)
Definition keys (v : value) : list string :=
  match v with
  | Obj props => List.map fst props
  | _ => []
  end.

(** [v[key]] for a value that may not be an object. *)
Definition field (v : value) (key : string) : option value :=
  match v with
  | Obj props => get props key
  | _ => None
  end.

End StructuredData.

(** ** config.ts *)

Module Config.
Import StructuredData.

(** The environment bindings handed in by the caller ([Env]) and
    [process.env] are objects read by key. *)
Abbreviation Env := (gmap string string).

(** [process_env] is the value of [process.env], or [None] where
    [process] is undefined or has no [env]. *)
Definition getEnv (key : string) (defaultValue : string) (env : option Env)
    (process_env : option Env) : string :=
  let from_process :=
    match process_env with
    | Some pe =>
        match pe !! key with
        | Some v => if truthy v then v else defaultValue
        | None => defaultValue
        end
    | None => defaultValue
    end in
  match env with
  | Some e =>
      match e !! key with
      | Some v => if truthy v then v else from_process
      | None => from_process
      end
  | None => from_process
  end.

Definition isProduction (env process_env : option Env) : bool :=
  let environment := getEnv "ENVIRONMENT" "production" env process_env in
  String.eqb environment "production".

Module SiteConfig.
Record t := { url : string; domain : string }.
End SiteConfig.

Definition createSiteConfig (env process_env : option Env) : SiteConfig.t :=
  let siteUrl := getEnv "SITE_URL" "https://sandeepkommineni.me" env process_env in
  let siteDomain := getEnv "SITE_DOMAIN" "sandeepkommineni.me" env process_env in
  {| SiteConfig.url := siteUrl; SiteConfig.domain := siteDomain |}.

(** The constants computed when the module is loaded, from the process
    environment alone. *)
Definition SITE_URL (process_env : option Env) : string :=
  getEnv "SITE_URL" "https://sandeepkommineni.me" None process_env.

Definition SITE_DOMAIN (process_env : option Env) : string :=
  getEnv "SITE_DOMAIN" "sandeepkommineni.me" None process_env.

(** The dash of the two texts below is written in its three UTF-8 bytes;
    nothing here depends on their length. *)
Definition SITE_NAME : string :=
  "Sandeep Kommineni — AI/ML Engineer & Full-Stack Developer".

Definition SITE_AUTHOR : string := "Sandeep Kommineni".

Definition SITE_DESCRIPTION : string :=
  "Sandeep Kommineni — AI/ML Engineer building production-grade AI platforms. Expert in Generative AI, LLMs, real-time systems, and full-stack development.".

Definition PERSON_DATA (process_env : option Env) : PersonData.t :=
  {| PersonData.name := "Sandeep Kommineni";
     PersonData.jobTitle := "AI/ML Engineer & Full-Stack Developer";
     PersonData.email := "sandeepkommineni2@gmail.com";
     PersonData.phone := "+919573456001";
     PersonData.location :=
       {| Location.city := "Guntur";
          Location.region := "Andhra Pradesh";
          Location.country := "India" |};
     PersonData.socialProfiles :=
       {| SocialProfiles.github := "https://github.com/SANDEEPxKOMMINENI";
          SocialProfiles.linkedin :=
            "https://www.linkedin.com/in/sandeep-chowdary-kommineni/" |};
     PersonData.image := Some (SITE_URL process_env ++ "/static/profile.jpg");
     PersonData.bio :=
       Some "AI/ML Engineer with real-world experience building and deploying production-grade AI platforms. Expert in Generative AI, LLMs, real-time systems, and scalable full-stack applications." |}.

Definition PRIMARY_KEYWORDS : list string :=
  [ "Sandeep Kommineni"; "AI/ML Engineer"; "Full-Stack Developer";
    "Generative AI Engineer"; "LLM Engineer"; "AI Developer" ].

Definition SECONDARY_KEYWORDS : list string :=
  [ "React Developer"; "Python Developer"; "FastAPI"; "Next.js"; "LiveKit";
    "OpenAI"; "Machine Learning"; "Deep Learning"; "NLP"; "Computer Vision";
    "RAG"; "Agentic AI"; "Real-time AI"; "Multimodal AI" ].

Definition LOCATION_KEYWORDS : list string :=
  [ "Guntur"; "Andhra Pradesh"; "India"; "AI Engineer India";
    "ML Engineer Andhra Pradesh" ].

Definition ALL_KEYWORDS : list string :=
  (PRIMARY_KEYWORDS ++ SECONDARY_KEYWORDS ++ LOCATION_KEYWORDS)%list.

Module AnalyticsConfig.
Record t := {
  googleAnalyticsId : string;
  googleSearchConsoleId : string;
  enableDebug : bool
}.
End AnalyticsConfig.

Definition createAnalyticsConfig (env process_env : option Env)
    : AnalyticsConfig.t :=
  let gaMeasurementId := getEnv "GA_MEASUREMENT_ID" "" env process_env in
  let gscVerificationId := getEnv "GSC_VERIFICATION_ID" "" env process_env in
  let analyticsDebug := negb (isProduction env process_env) in
  {| AnalyticsConfig.googleAnalyticsId := gaMeasurementId;
     AnalyticsConfig.googleSearchConsoleId := gscVerificationId;
     AnalyticsConfig.enableDebug := analyticsDebug |}.

Module SiteInfo.
Record t := {
  name : string;
  url : string;
  domain : string;
  author : string;
  description : string
}.
End SiteInfo.

Module Meta.
Record t := {
  title : string;
  description : string;
  keywords : list string;
  ogImage : string
}.
End Meta.

Inductive Environment := development | production.

Module SEOConfig.
Record t := {
  site : SiteInfo.t;
  meta : Meta.t;
  person : PersonData.t;
  analytics : AnalyticsConfig.t;
  environment : Environment
}.
End SEOConfig.

Definition createSEOConfig (env process_env : option Env) : SEOConfig.t :=
  let siteConfig := createSiteConfig env process_env in
  let analyticsConfig := createAnalyticsConfig env process_env in
  let base := PERSON_DATA process_env in
  {| SEOConfig.site :=
       {| SiteInfo.name := SITE_NAME;
          SiteInfo.url := siteConfig.(SiteConfig.url);
          SiteInfo.domain := siteConfig.(SiteConfig.domain);
          SiteInfo.author := SITE_AUTHOR;
          SiteInfo.description := SITE_DESCRIPTION |};
     SEOConfig.meta :=
       {| Meta.title := SITE_NAME;
          Meta.description := SITE_DESCRIPTION;
          Meta.keywords := ALL_KEYWORDS;
          Meta.ogImage := siteConfig.(SiteConfig.url) ++ "/static/profile.jpg" |};
     SEOConfig.person :=
       {| PersonData.name := base.(PersonData.name);
          PersonData.jobTitle := base.(PersonData.jobTitle);
          PersonData.email := base.(PersonData.email);
          PersonData.phone := base.(PersonData.phone);
          PersonData.location := base.(PersonData.location);
          PersonData.socialProfiles := base.(PersonData.socialProfiles);
          PersonData.image :=
            Some (siteConfig.(SiteConfig.url) ++ "/static/profile.jpg");
          PersonData.bio := base.(PersonData.bio) |};
     SEOConfig.analytics := analyticsConfig;
     SEOConfig.environment :=
       if isProduction env process_env then production else development |}.

Definition educationData : list EducationData.t :=
  [ {| EducationData.institution := "KL University";
       EducationData.degree := "Bachelor of Technology";
       EducationData.field := "Computer Science & Engineering (AI & ML)";
       EducationData.startDate := "2022-03";
       EducationData.endDate := "2026-03";
       EducationData.gpa := Some "9.0";
       EducationData.location := Some "Vaddeswaram, Andhra Pradesh, India" |};
    {| EducationData.institution := "Sri Chaitanya Junior College";
       EducationData.degree := "Senior Secondary Education";
       EducationData.field := "Physics, Chemistry, Mathematics";
       EducationData.startDate := "2020";
       EducationData.endDate := "2022";
       EducationData.gpa := Some "7.3";
       EducationData.location := Some "Guntur, Andhra Pradesh, India" |} ].

(** The rule of the specification: of the layers, in order, the first
    that holds a non-empty value gives the result; the fallback
    otherwise. *)
Fixpoint first_non_empty (layers : list (option string)) (fallback : string)
    : string :=
  match layers with
  | [] => fallback
  | Some v :: rest =>
      if String.eqb v "" then first_non_empty rest fallback else v
  | None :: rest => first_non_empty rest fallback
  end.

(** What a layer holds for a key; a layer that is not there holds
    nothing. *)
Definition layer (bindings : option Env) (key : string) : option string :=
  match bindings with
  | Some e => e !! key
  | None => None
  end.

(** The resolution of a key through the three layers. *)
Definition resolve (key fallback : string) (env process_env : option Env)
    : string :=
  first_non_empty [layer env key; layer process_env key] fallback.

End Config.

(** ** Tag balance

    A reading of a document as text and tags: a tag runs from a less-than
    sign to the next greater-than sign; one that opens with a question mark
    is a declaration, one that opens with a slash closes the element named
    after the slash, and any other opens the element named by its text up
    to the first space. *)

Module Markup.

Fixpoint tag_name (body : string) : string :=
  match body with
  | EmptyString => EmptyString
  | String c body' =>
      if Ascii.eqb c " " then EmptyString else String c (tag_name body')
  end.

(** [stack] holds the elements that are open, the innermost first; [tag]
    holds the text of the tag being read, if any. *)
Fixpoint balanced_from (stack : list string) (tag : option string)
    (s : string) : bool :=
  match s with
  | EmptyString =>
      match tag, stack with
      | None, [] => true
      | _, _ => false
      end
  | String c s' =>
      match tag with
      | None =>
          if Ascii.eqb c "<" then balanced_from stack (Some EmptyString) s'
          else balanced_from stack None s'
      | Some body =>
          if Ascii.eqb c ">" then
            match body with
            | String "?" _ => balanced_from stack None s'
            | String "/" name =>
                match stack with
                | top :: rest =>
                    if String.eqb top name then balanced_from rest None s'
                    else false
                | [] => false
                end
            | _ => balanced_from (tag_name body :: stack) None s'
            end
          else balanced_from stack (Some (body ++ String c EmptyString)) s'
      end
  end.

(** Every element that is opened is closed, in order, and nothing else is
    closed. *)
Definition balanced (s : string) : bool := balanced_from [] None s.

End Markup.

(** ** analytics.ts *)

Module Analytics.

Record AnalyticsConfig := {
  googleAnalyticsId : option string;
  googleSearchConsoleId : option string;
  enableDebug : option bool
}.

(** Truthiness of an optional flag. *)
Definition truthy_flag (b : option bool) : bool :=
  match b with Some true => true | _ => false end.

(** The object [createAnalyticsConfig] returns, seen at the interface
    [AnalyticsConfig]: all three properties are there. *)
Definition of_config (c : Config.AnalyticsConfig.t) : AnalyticsConfig :=
  {| googleAnalyticsId := Some c.(Config.AnalyticsConfig.googleAnalyticsId);
     googleSearchConsoleId := Some c.(Config.AnalyticsConfig.googleSearchConsoleId);
     enableDebug := Some c.(Config.AnalyticsConfig.enableDebug) |}.

(** The browser state the tracking functions read: the three
    do-not-track properties ([None] for [undefined] and [null]) and
    whether [window.gtag] is defined. *)
Record Browser := {
  navigator_doNotTrack : option string;
  window_doNotTrack : option string;
  navigator_msDoNotTrack : option string;
  gtag_defined : bool
}.

(** [a || b] on optional texts: [a] when it is truthy, [b] otherwise. *)
Definition or_else (a b : option string) : option string :=
  if truthy_opt a then a else b.

Definition isDNTEnabled (browser : Browser) : bool :=
  let dnt :=
    or_else (or_else browser.(navigator_doNotTrack) browser.(window_doNotTrack))
      browser.(navigator_msDoNotTrack) in
  match dnt with
  | Some v => String.eqb v "1" || String.eqb v "yes"
  | None => false
  end.

Definition generateAnalyticsScript (config : AnalyticsConfig) : string :=
  match config.(googleAnalyticsId) with
  | None => EmptyString
  | Some measurementId =>
      if negb (truthy measurementId) then EmptyString
      else
        let debugMode := if truthy_flag config.(enableDebug) then "true" else "false" in
        "<!-- Google Analytics 4 -->" ++ nl ++
        "<script async src="
          ++ quoted ("https://www.googletagmanager.com/gtag/js?id=" ++ measurementId)
          ++ "></script>" ++ nl ++
        "<script>" ++ nl ++
        "  window.dataLayer = window.dataLayer || [];" ++ nl ++
        "  function gtag(){dataLayer.push(arguments);}" ++ nl ++
        "  gtag('js', new Date());" ++ nl ++
        "  " ++ nl ++
        "  // Privacy-friendly configuration" ++ nl ++
        "  gtag('config', '" ++ measurementId ++ "', {" ++ nl ++
        "    'anonymize_ip': true," ++ nl ++
        "    'cookie_flags': 'SameSite=None;Secure'," ++ nl ++
        "    'debug_mode': " ++ debugMode ++ nl ++
        "  });" ++ nl ++
        "  " ++ nl ++
        "  // Respect Do Not Track" ++ nl ++
        "  if (navigator.doNotTrack === " ++ quoted "1"
          ++ " || window.doNotTrack === " ++ quoted "1" ++ ") {" ++ nl ++
        "    window['ga-disable-" ++ measurementId ++ "'] = true;" ++ nl ++
        "  }" ++ nl ++
        "</script>"
  end.

Record AnalyticsEvent := {
  eventName : string;
  eventCategory : string;
  eventLabel : option string
}.

(** [trackEvent]: the calls of [gtag] are recorded as the events they are
    made for. *)
Definition trackEvent (browser : Browser) (event : AnalyticsEvent)
    (calls : list AnalyticsEvent) : list AnalyticsEvent :=
  if isDNTEnabled browser then calls
  else if browser.(gtag_defined) then (calls ++ [event])%list
  else calls.

(** An entry handed to the callback of the intersection observer. *)
Record Entry := {
  isIntersecting : bool;
  intersectionRatio : QArith_base.Q;
  target_id : string
}.

(** The state of [trackSectionViews]: the set [observedSections] and the
    calls of [gtag] so far. *)
Record Tracking := {
  observedSections : gset string;
  calls : list AnalyticsEvent
}.

(** The body of the [forEach] in the observer callback. *)
Definition observe_entry (browser : Browser) (state : Tracking) (entry : Entry)
    : Tracking :=
  if entry.(isIntersecting)
     && QArith_base.Qle_bool (QArith_base.Qmake 1 2) entry.(intersectionRatio)
  then
    let sectionId := entry.(target_id) in
    if decide (sectionId ∈ state.(observedSections)) then state
    else
      {| observedSections := {[ sectionId ]} ∪ state.(observedSections);
         calls :=
           trackEvent browser
             {| eventName := "section_view";
                eventCategory := "engagement";
                eventLabel := Some sectionId |}
             state.(calls) |}
  else state.

Definition observer_callback (browser : Browser) (entries : list Entry)
    (state : Tracking) : Tracking :=
  fold_left (observe_entry browser) entries state.

(** An entry counts when the target intersects and at least half of it is
    visible. *)
Definition visible (entry : Entry) : bool :=
  entry.(isIntersecting)
  && QArith_base.Qle_bool (QArith_base.Qmake 1 2) entry.(intersectionRatio).

(** The sections of the entries that count. *)
Definition visible_ids (entries : list Entry) : gset string :=
  list_to_set (List.map target_id (List.filter visible entries)).

(** What holds of the state whenever the callback returns: the calls are
    section views, each of a section in the set, and no section twice. *)
Definition tracked_once (state : Tracking) : Prop :=
  List.NoDup (List.map eventLabel state.(calls))
  /\ forall event, In event state.(calls) ->
       event.(eventName) = "section_view"
       /\ event.(eventCategory) = "engagement"
       /\ exists id, event.(eventLabel) = Some id /\ id ∈ state.(observedSections).

(** A page load: the callback runs any number of times, each time in the
    browser state of that moment, from the empty set and no calls. *)
Definition page_load (runs : list (Browser * list Entry)) : Tracking :=
  fold_left (fun state run => observer_callback (fst run) (snd run) state) runs
    {| observedSections := ∅; calls := [] |}.

End Analytics.

(** ** middleware/cache-headers.ts *)

Module CacheHeaders.

Definition lower (c : ascii) : ascii :=
  let n := nat_of_ascii c in
  if Nat.leb 65 n && Nat.leb n 90 then ascii_of_nat (n + 32) else c.

Fixpoint lower_string (s : string) : string :=
  match s with
  | EmptyString => EmptyString
  | String c s' => String (lower c) (lower_string s')
  end.

(** The alternatives of the two patterns. *)
Definition asset_extensions : list string :=
  ["jpg"; "jpeg"; "png"; "gif"; "webp"; "svg"; "ico"; "woff"; "woff2"; "ttf"; "eot"].

Definition code_extensions : list string := ["css"; "js"].

(** [path.match(/\.(a|b|...)$/i)]: the path ends, whatever the case of its
    letters, with a dot and one of the alternatives. *)
Definition matches_extension (alternatives : list string) (path : string) : bool :=
  existsb (fun ext => endsWith (lower_string path) ("." ++ ext)) alternatives.

(** The headers of the response, under their lower-case names. *)
Abbreviation Headers := (gmap string string).

(** [c.header(name, value)] *)
Definition header (name value : string) (response : Headers) : Headers :=
  <[ lower_string name := value ]> response.

(** [response] holds the headers as the rest of the chain left them when
    [next()] returned. *)
Definition cacheHeaders (path : string) (response : Headers) : Headers :=
  let response :=
    if matches_extension asset_extensions path
       || matches_extension code_extensions path
    then header "Cache-Control" "public, max-age=31536000, immutable" response
    else if endsWith path ".html" || String.eqb path "/"
    then header "Cache-Control" "public, max-age=3600, must-revalidate" response
    else if String.eqb path "/sitemap.xml" || String.eqb path "/robots.txt"
    then header "Cache-Control" "public, max-age=86400" response
    else response in
  let response := header "X-Content-Type-Options" "nosniff" response in
  let response := header "X-Frame-Options" "SAMEORIGIN" response in
  response.

(** The last character of a text. *)
Fixpoint last_char (s : string) : option ascii :=
  match s with
  | EmptyString => None
  | String c EmptyString => Some c
  | String _ s' => last_char s'
  end.

End CacheHeaders.

(** ** image-optimization.ts *)

Module ImageOptimization.

Inductive Loading := lazy | eager.

Definition loading_text (l : Loading) : string :=
  match l with lazy => "lazy" | eager => "eager" end.

Record ResponsiveImageConfig := {
  src : string;
  alt : string;
  sizes : option string;
  loading : option Loading;
  className : option string
}.

(** A default of a destructuring pattern: it applies to a property that
    is [undefined]. *)
Definition or_default {A : Type} (o : option A) (d : A) : A :=
  match o with Some x => x | None => d end.

(** [s.lastIndexOf(c)] for a one-character [c]: the last position of [c],
    or -1. *)
Fixpoint lastIndexOf_from (s : string) (c : ascii) (i : Z) : Z :=
  match s with
  | EmptyString => (-1)%Z
  | String d s' =>
      let later := lastIndexOf_from s' c (i + 1)%Z in
      if (later =? -1)%Z then (if Ascii.eqb d c then i else (-1)%Z) else later
  end.

Definition lastIndexOf (s : string) (c : ascii) : Z := lastIndexOf_from s c 0%Z.

(** [s.substring(start)] *)
Definition substring_from (s : string) (start : Z) : string :=
  substring s start (str_length s).

(** The constants [basePath] and [extension] of [generateResponsiveImage]. *)
Definition basePath (src : string) : string :=
  let lastDotIndex := lastIndexOf src "." in
  if (0 <? lastDotIndex)%Z then substring src 0 lastDotIndex else src.

Definition extension (src : string) : string :=
  let lastDotIndex := lastIndexOf src "." in
  if (0 <? lastDotIndex)%Z then substring_from src lastDotIndex else ".jpg".

Definition generateResponsiveImage (config : ResponsiveImageConfig) : string :=
  let src := config.(src) in
  let alt := config.(alt) in
  let sizes := or_default config.(sizes) "100vw" in
  let loading := or_default config.(loading) lazy in
  let className := or_default config.(className) "" in
  let webpSrc := basePath src ++ ".webp" in
  let srcset := src ++ " 1x, " ++ src ++ " 2x" in
  let webpSrcset := webpSrc ++ " 1x, " ++ webpSrc ++ " 2x" in
  "<picture>" ++ nl ++
  "  <source type=" ++ quoted "image/webp" ++ " srcset=" ++ quoted webpSrcset
    ++ " sizes=" ++ quoted sizes ++ ">" ++ nl ++
  "  <source type=" ++ quoted ("image/" ++ substring_from (extension src) 1)
    ++ " srcset=" ++ quoted srcset ++ " sizes=" ++ quoted sizes ++ ">" ++ nl ++
  "  <img src=" ++ quoted src ++ " alt=" ++ quoted alt ++ " loading="
    ++ quoted (loading_text loading) ++ " class=" ++ quoted className ++ ">" ++ nl ++
  "</picture>".

Definition generateOptimizedImg (config : ResponsiveImageConfig) : string :=
  let src := config.(src) in
  let alt := config.(alt) in
  let loading := or_default config.(loading) lazy in
  let className := or_default config.(className) "" in
  "<img src=" ++ quoted src ++ " alt=" ++ quoted alt ++ " loading="
    ++ quoted (loading_text loading) ++ " class=" ++ quoted className ++ ">".

End ImageOptimization.

(** * Theorems *)

(** ** Strings *)

Module StringFacts.

Lemma length_append (a b : string) :
  String.length (a ++ b) = (String.length a + String.length b)%nat.
Proof. induction a as [|c a IH]; simpl; [reflexivity | now rewrite IH]. Qed.

Lemma append_empty_r (a : string) : a ++ EmptyString = a.
Proof. induction a as [|c a IH]; simpl; [reflexivity | now rewrite IH]. Qed.

Lemma append_assoc (a b c : string) : (a ++ b) ++ c = a ++ (b ++ c).
Proof. induction a as [|x a IH]; simpl; [reflexivity | now rewrite IH]. Qed.

Lemma length_take (n : nat) (s : string) :
  (n <= String.length s)%nat -> String.length (take n s) = n.
Proof.
  revert s; induction n as [|n IH]; intros [|c s] H; simpl in *;
    try reflexivity; try lia.
  f_equal; apply IH; lia.
Qed.

Lemma take_all (n : nat) (s : string) :
  (String.length s <= n)%nat -> take n s = s.
Proof.
  revert s; induction n as [|n IH]; intros [|c s] H; simpl in *;
    try reflexivity; try lia.
  f_equal; apply IH; lia.
Qed.

Lemma substring_prefix (s : string) (n : Z) :
  (0 <= n <= str_length s)%Z -> substring s 0 n = take (Z.to_nat n) s.
Proof.
  intros H. unfold substring, clamp.
  assert (Hlen : (0 <= str_length s)%Z) by (unfold str_length; lia).
  replace (Z.min (Z.max 0 (Z.min 0 (str_length s)))
                 (Z.max 0 (Z.min n (str_length s)))) with 0%Z by lia.
  replace (Z.max (Z.max 0 (Z.min 0 (str_length s)))
                 (Z.max 0 (Z.min n (str_length s)))) with n by lia.
  now rewrite Z.sub_0_r.
Qed.

Lemma split_free (sep : ascii) (s : string) :
  free_of sep s = true -> split sep s = [s].
Proof.
  induction s as [|c s IH]; simpl; [reflexivity|].
  intros H. apply andb_prop in H as [Hc Hs].
  apply negb_true_iff in Hc. rewrite Hc, (IH Hs). reflexivity.
Qed.

Lemma free_of_append (c : ascii) (a b : string) :
  free_of c (a ++ b) = free_of c a && free_of c b.
Proof.
  induction a as [|x a IH]; simpl; [reflexivity|].
  now rewrite IH, andb_assoc.
Qed.

Lemma starts_with_refl (t : string) : starts_with t t = true.
Proof.
  induction t as [|c t IH]; simpl; [reflexivity|].
  now rewrite Ascii.eqb_refl, IH.
Qed.

Lemma starts_with_append (p r : string) : starts_with p (p ++ r) = true.
Proof.
  induction p as [|c p IH]; simpl; [reflexivity|].
  now rewrite Ascii.eqb_refl, IH.
Qed.

(** A pattern that opens with [c] does not occur inside text free of [c]:
    counting passes over such text. *)
Lemma count_skip_free (c : ascii) (p h r : string) :
  free_of c h = true ->
  count (String c p) (h ++ r) = count (String c p) r.
Proof.
  induction h as [|d h IH]; simpl; [reflexivity|].
  intros H. apply andb_prop in H as [Hd Hh].
  apply negb_true_iff in Hd. rewrite Ascii.eqb_sym in Hd.
  rewrite Hd. simpl. now apply IH.
Qed.

Lemma count_free (c : ascii) (p h : string) :
  free_of c h = true -> count (String c p) h = 0%nat.
Proof.
  intros H. rewrite <- (append_empty_r h).
  now rewrite count_skip_free.
Qed.

Lemma replace_global_free (x : ascii) (m : ascii -> bool)
    (f : ascii -> string) (s : string) :
  (forall c, free_of x (if m c then f c else String c EmptyString) = true) ->
  free_of x (replace_global m f s) = true.
Proof.
  intros H. induction s as [|c s IH]; simpl; [reflexivity|].
  now rewrite free_of_append, H, IH.
Qed.

(** Count a pattern through a document of literal text and values known
    to be free of the character the pattern opens with. *)
Ltac count_loop :=
  repeat (cbn [count starts_with String.append andb Ascii.eqb Bool.eqb
               Nat.add quoted dq nl dqc nlc];
          rewrite ?append_assoc;
          rewrite ?count_skip_free by assumption).

Section Scan.
Variables (o c : string).

Lemma scan_outside_free (h r : string) :
  free_of "<" h = true ->
  scan_elements (String "<" o) c None 0 (h ++ r)
  = scan_elements (String "<" o) c None 0 r.
Proof.
  induction h as [|d h IH]; [reflexivity|].
  cbn [scan_elements starts_with String.append free_of].
  intros H. apply andb_prop in H as [Hd Hh].
  apply negb_true_iff in Hd. rewrite Ascii.eqb_sym in Hd.
  rewrite Hd. cbn [andb]. now apply IH.
Qed.

Lemma scan_inside_free (acc h r : string) :
  free_of "<" h = true ->
  scan_elements o (String "<" c) (Some acc) 0 (h ++ r)
  = scan_elements o (String "<" c) (Some (acc ++ h)) 0 r.
Proof.
  revert acc. induction h as [|d h IH]; intros acc.
  - intros _. now rewrite append_empty_r.
  - cbn [scan_elements starts_with String.append free_of].
    intros H. apply andb_prop in H as [Hd Hh].
    apply negb_true_iff in Hd. rewrite Ascii.eqb_sym in Hd.
    rewrite Hd. cbn [andb]. rewrite (IH _ Hh).
    now rewrite append_assoc.
Qed.

End Scan.

(** Scan for elements through a document of literal text and values
    known to be free of the less-than sign. *)
Ltac scan_loop :=
  repeat (cbn [scan_elements starts_with String.append andb Ascii.eqb
               Bool.eqb String.length Nat.sub quoted dq nl dqc nlc];
          rewrite ?append_assoc;
          first [ rewrite scan_outside_free by assumption
                | rewrite scan_inside_free by assumption
                | idtac ]).

End StringFacts.

(** ** robots.ts *)

Module RobotsProofs.
Import Robots StringFacts.

(** C5. For every [sitemapUrl] the body is exactly the text
    [User-agent: *], line feed, [Allow: /], two line feeds, [Sitemap: ]
    and then [sitemapUrl]; the three directives are found in that order
    (at positions 0, 14 and 24); and the result depends on nothing but
    the argument, so equal arguments give identical bodies. *)
Theorem generateRobotsTxt_exact : forall sitemapUrl : string,
  generateRobotsTxt sitemapUrl
    = "User-agent: *" ++ nl ++ "Allow: /" ++ nl ++ nl ++ "Sitemap: " ++ sitemapUrl
  /\ indexOf (generateRobotsTxt sitemapUrl) "User-agent: *" = 0%Z
  /\ indexOf (generateRobotsTxt sitemapUrl) "Allow: /" = 14%Z
  /\ indexOf (generateRobotsTxt sitemapUrl) ("Sitemap: " ++ sitemapUrl) = 24%Z
  /\ nl = String (ascii_of_nat 10) EmptyString
  /\ (forall again : string,
        again = sitemapUrl ->
        generateRobotsTxt again = generateRobotsTxt sitemapUrl).
Proof.
  intros u. repeat split; try reflexivity.
  - unfold indexOf, generateRobotsTxt. cbn.
    assert (H : forall t, starts_with t t = true).
    { induction t as [|c t IH]; simpl; [reflexivity|].
      now rewrite Ascii.eqb_refl, IH. }
    destruct u as [|c u]; cbn; rewrite ?Ascii.eqb_refl, ?H; reflexivity.
  - intros again ->. reflexivity.
Qed.

Lemma generateRobotsTxt_exact_witness :
  generateRobotsTxt "https://sandeepkommineni.me/sitemap.xml"
  = generateRobotsTxt "https://sandeepkommineni.me/sitemap.xml".
Proof.
  apply (proj2 (proj2 (proj2 (proj2 (proj2
           (generateRobotsTxt_exact "https://sandeepkommineni.me/sitemap.xml")))))).
  reflexivity.
Defined.

(** The scenario of the specification, evaluated. *)
Example generateRobotsTxt_scenario :
  generateRobotsTxt "https://sandeepkommineni.me/sitemap.xml"
  = "User-agent: *" ++ nl ++ "Allow: /" ++ nl ++ nl
    ++ "Sitemap: https://sandeepkommineni.me/sitemap.xml".
Proof. reflexivity. Qed.

(** C6, as the code has it.  For every [sitemapUrl] without a line feed
    the body has exactly four lines: [User-agent: *], directly followed by
    [Allow: /], then one blank line, then [Sitemap: sitemapUrl].  Only the
    Allow and Sitemap directives are separated by a blank line. *)
Theorem generateRobotsTxt_lines : forall sitemapUrl : string,
  free_of nlc sitemapUrl = true ->
  split nlc (generateRobotsTxt sitemapUrl)
  = ["User-agent: *"; "Allow: /"; ""; "Sitemap: " ++ sitemapUrl].
Proof.
  intros u H. unfold generateRobotsTxt. cbn.
  rewrite (split_free _ _ H). reflexivity.
Qed.

Lemma generateRobotsTxt_lines_witness :
  split nlc (generateRobotsTxt "https://sandeepkommineni.me/sitemap.xml")
  = ["User-agent: *"; "Allow: /"; "";
     "Sitemap: " ++ "https://sandeepkommineni.me/sitemap.xml"].
Proof.
  apply (generateRobotsTxt_lines "https://sandeepkommineni.me/sitemap.xml").
  reflexivity.
Defined.

(** C6 as stated fails: the body of the specification's own scenario is
    not the five lines with a blank line after [User-agent: *]. *)
Lemma generateRobotsTxt_no_blank_after_user_agent :
  split nlc (generateRobotsTxt "https://sandeepkommineni.me/sitemap.xml")
  <> ["User-agent: *"; ""; "Allow: /"; "";
      "Sitemap: https://sandeepkommineni.me/sitemap.xml"].
Proof. cbv. discriminate. Qed.

End RobotsProofs.

(** ** meta-tags.ts *)

Module MetaTagsProofs.
Import MetaTags StringFacts.

(** C2, with the bound on the length for limits of at least three
    characters.  A text no longer than [maxLen] is returned unchanged (so a
    text of exactly [maxLen] characters gets no ellipsis); a longer one
    becomes its first [maxLen - 3] characters followed by three dots; when
    [maxLen] is at least 3 that result is exactly [maxLen] characters long,
    and so the result is never longer than [maxLen].  With the default
    limit, 161 letters A give 160 characters that end in three dots, and
    160 letters A are returned as they are. *)
Theorem truncateDescription_spec :
  (forall (text : string) (maxLen : Z),
     ((str_length text <= maxLen)%Z -> truncateDescription text maxLen = text)
     /\ ((maxLen < str_length text)%Z ->
         truncateDescription text maxLen
           = substring text 0 (maxLen - 3) ++ "...")
     /\ ((3 <= maxLen)%Z -> (maxLen < str_length text)%Z ->
         truncateDescription text maxLen
           = take (Z.to_nat (maxLen - 3)) text ++ "..."
         /\ str_length (truncateDescription text maxLen) = maxLen)
     /\ ((3 <= maxLen)%Z ->
         (str_length (truncateDescription text maxLen) <= maxLen)%Z))
  /\ str_length (truncateDescription (repeat "A" 161) defaultMaxLength) = 160%Z
  /\ endsWith (truncateDescription (repeat "A" 161) defaultMaxLength) "..." = true
  /\ truncateDescription (repeat "A" 160) defaultMaxLength = repeat "A" 160.
Proof.
  split; [|repeat split; vm_compute; reflexivity].
  intros text maxLen.
  assert (Hfit : (str_length text <= maxLen)%Z ->
                 truncateDescription text maxLen = text).
  { intros Hle. unfold truncateDescription.
    destruct (Z.leb_spec (str_length text) maxLen); [reflexivity | lia]. }
  assert (Hcut : (maxLen < str_length text)%Z ->
                 truncateDescription text maxLen
                   = substring text 0 (maxLen - 3) ++ "...").
  { intros Hlt. unfold truncateDescription.
    destruct (Z.leb_spec (str_length text) maxLen); [lia | reflexivity]. }
  assert (Hlong : (3 <= maxLen)%Z -> (maxLen < str_length text)%Z ->
            truncateDescription text maxLen
              = take (Z.to_nat (maxLen - 3)) text ++ "..."
            /\ str_length (truncateDescription text maxLen) = maxLen).
  { intros Hmax Hlt. rewrite (Hcut Hlt).
    rewrite substring_prefix by lia. split; [reflexivity|].
    unfold str_length in *. rewrite length_append, length_take by lia.
    simpl. lia. }
  repeat split; try assumption; try (apply Hlong; assumption).
  intros Hmax.
  destruct (Z.le_gt_cases (str_length text) maxLen) as [Hle|Hgt].
  - rewrite (Hfit Hle). assumption.
  - destruct (Hlong Hmax Hgt) as [_ ->]. lia.
Qed.

Lemma truncateDescription_spec_witness :
  truncateDescription "portfolio" 5 = "po..."
  /\ (str_length (truncateDescription "portfolio" 5) <= 5)%Z.
Proof.
  pose proof (proj1 truncateDescription_spec "portfolio" 5%Z)
    as (_ & _ & Hlong & Hbound).
  split.
  - apply (Hlong ltac:(lia) ltac:(vm_compute; reflexivity)).
  - apply Hbound. lia.
Defined.

(** Every special character is replaced, so escaped text holds no
    markup delimiter. *)
Lemma escapeHtml_free_lt (text : string) : free_of "<" (escapeHtml text) = true.
Proof.
  apply replace_global_free.
  intros [[] [] [] [] [] [] [] []]; reflexivity.
Qed.

Lemma escapeHtml_free_dq (text : string) : free_of dqc (escapeHtml text) = true.
Proof.
  apply replace_global_free.
  intros [[] [] [] [] [] [] [] []]; reflexivity.
Qed.

(** Name the escaped values of a goal and keep only that they are free of
    the less-than sign. *)
Ltac name_escaped :=
  repeat match goal with
  | |- context [escapeHtml ?x] =>
      let h := fresh "h" in
      let H := fresh "Hfree" in
      assert (H := escapeHtml_free_lt x);
      set (h := escapeHtml x) in *; clearbody h
  end.

(** Count a tag opening through a document of literal text and escaped
    values. *)
Ltac count_tags := name_escaped; count_loop; try reflexivity.

(** C4, as the code has it.  The author tag is emitted exactly when the
    [author] field is present and not the empty string: the document holds
    one [<meta name=author] opening in that case and none otherwise, and a
    configuration with the empty string as author yields the very document
    of the same configuration without an author. *)
Theorem author_tag_iff_nonempty : forall config : MetaTagsConfig,
  count (meta_open "name" "author") (generateBasicMetaTags config)
    = (if truthy_opt config.(author) then 1 else 0)%nat
  /\ generateBasicMetaTags
       {| title := config.(title); description := config.(description);
          canonicalUrl := config.(canonicalUrl);
          keywords := config.(keywords); author := Some "" |}
     = generateBasicMetaTags
       {| title := config.(title); description := config.(description);
          canonicalUrl := config.(canonicalUrl);
          keywords := config.(keywords); author := None |}.
Proof.
  intros [t d u kws a]. split; [|reflexivity].
  unfold generateBasicMetaTags, meta_open, push. simpl.
  destruct kws as [kws|]; [destruct (0 <? List.length kws)%nat|];
    (destruct a as [a|]; [simpl; destruct (truthy a)|]); simpl;
    count_tags.
Qed.

(** C4 as stated fails: with the empty string as author no author tag is
    emitted, neither one with empty content nor any other. *)
Lemma empty_author_omitted :
  let config := {| title := "Test Title"; description := "Test description";
                   canonicalUrl := "https://example.com";
                   keywords := None; author := Some "" |} in
  includes (generateBasicMetaTags config)
    ("<meta name=" ++ quoted "author" ++ " content=" ++ quoted "" ++ ">") = false
  /\ count (meta_open "name" "author") (generateBasicMetaTags config) = 0%nat.
Proof. split; vm_compute; reflexivity. Qed.

(** C8, as the code has it.  The Open Graph block holds exactly one
    opening of each of the five required tags, and an [og:site_name] tag
    exactly when [ogSiteName] is present and not the empty string, six or
    five [<meta] tags in all.  The Twitter block holds exactly one opening
    of each of the four required tags, and [twitter:site] and
    [twitter:creator] each exactly when its own field is present and not
    the empty string, whatever the other one is. *)
Theorem social_tags_presence :
  (forall config : OpenGraphTags,
     let html := generateOpenGraphTags config in
     let optional := (if truthy_opt config.(ogSiteName) then 1 else 0)%nat in
     count (meta_open "property" "og:title") html = 1%nat
     /\ count (meta_open "property" "og:description") html = 1%nat
     /\ count (meta_open "property" "og:image") html = 1%nat
     /\ count (meta_open "property" "og:type") html = 1%nat
     /\ count (meta_open "property" "og:url") html = 1%nat
     /\ count (meta_open "property" "og:site_name") html = optional
     /\ count "<meta " html = (5 + optional)%nat)
  /\ (forall config : TwitterCardTags,
     let html := generateTwitterCardTags config in
     let site := (if truthy_opt config.(twitterSite) then 1 else 0)%nat in
     let creator := (if truthy_opt config.(twitterCreator) then 1 else 0)%nat in
     count (meta_open "name" "twitter:card") html = 1%nat
     /\ count (meta_open "name" "twitter:title") html = 1%nat
     /\ count (meta_open "name" "twitter:description") html = 1%nat
     /\ count (meta_open "name" "twitter:image") html = 1%nat
     /\ count (meta_open "name" "twitter:site") html = site
     /\ count (meta_open "name" "twitter:creator") html = creator
     /\ count "<meta " html = (4 + site + creator)%nat).
Proof.
  split.
  - intros [t d i ty u sn]. cbv zeta.
    unfold generateOpenGraphTags, meta_open, push. simpl.
    destruct sn as [sn|]; [simpl; destruct (truthy sn)|]; simpl;
      repeat split; count_tags.
  - intros [c t d i si cr]. cbv zeta.
    unfold generateTwitterCardTags, meta_open, push. simpl.
    destruct si as [si|]; [simpl; destruct (truthy si)|];
      (destruct cr as [cr|]; [simpl; destruct (truthy cr)|]); simpl;
      repeat split; count_tags.
Qed.

(** C8 as stated fails: a configuration that provides [ogSiteName], as
    the empty string, gets no [og:site_name] tag; and likewise for a
    provided but empty [twitterSite]. *)
Lemma provided_empty_site_name_omitted :
  let og := {| ogTitle := "Title"; ogDescription := "Description";
               ogImage := "https://example.com/image.jpg";
               ogType := "website"; ogUrl := "https://example.com";
               ogSiteName := Some "" |} in
  let tw := {| twitterCard := "summary"; twitterTitle := "Title";
               twitterDescription := "Description";
               twitterImage := "https://example.com/image.jpg";
               twitterSite := Some ""; twitterCreator := None |} in
  provided og.(ogSiteName) = true
  /\ count (meta_open "property" "og:site_name") (generateOpenGraphTags og) = 0%nat
  /\ provided tw.(twitterSite) = true
  /\ count (meta_open "name" "twitter:site") (generateTwitterCardTags tw) = 0%nat.
Proof. repeat split; vm_compute; reflexivity. Qed.

(** C2 as stated, for every [maxLen], fails below three: the limit 2
    turns a four-character text into the three dots alone, which is
    longer than the limit. *)
Lemma truncateDescription_short_limit :
  truncateDescription "abcd" 2 = "..."
  /\ ~ (str_length (truncateDescription "abcd" 2) <= 2)%Z.
Proof. split; [reflexivity | vm_compute; intros H; apply H; reflexivity]. Qed.

End MetaTagsProofs.

(** ** sitemap.ts *)

Module SitemapProofs.
Import Sitemap StringFacts.

Lemma replace_global_append (m : ascii -> bool) (f : ascii -> string)
    (a b : string) :
  replace_global m f (a ++ b) = replace_global m f a ++ replace_global m f b.
Proof.
  induction a as [|c a IH]; simpl; [reflexivity|].
  now rewrite IH, append_assoc.
Qed.

Lemma escapeXml_append (a b : string) :
  escapeXml (a ++ b) = escapeXml a ++ escapeXml b.
Proof.
  unfold escapeXml, replace_char. now rewrite !replace_global_append.
Qed.

(** The five passes, run on one character, give its entity. *)
Lemma escapeXml_char (c : ascii) : escapeXml (String c EmptyString) = xml_entity c.
Proof. destruct c as [[] [] [] [] [] [] [] []]; reflexivity. Qed.

(** The chain of five replacements is the translation of the input one
    character at a time: what an earlier pass inserted is left alone by
    the later ones. *)
Lemma escapeXml_escape_each (str : string) : escapeXml str = escape_each str.
Proof.
  induction str as [|c str IH]; [reflexivity|].
  change (String c str) with (String c EmptyString ++ str).
  rewrite escapeXml_append, escapeXml_char, IH. reflexivity.
Qed.

Lemma xml_entity_cases (c : ascii) :
  (xml_special c = true /\ exists t, xml_entity c = String "&" t)
  \/ (xml_special c = false /\ xml_entity c = String c EmptyString).
Proof.
  destruct c as [[] [] [] [] [] [] [] []];
    first [ right; split; reflexivity
          | left; split; [reflexivity | eexists; reflexivity] ].
Qed.

Lemma escapeXml_free_lt (str : string) : free_of "<" (escapeXml str) = true.
Proof.
  rewrite escapeXml_escape_each.
  induction str as [|c str IH]; [reflexivity|].
  simpl. rewrite free_of_append, IH, andb_true_r.
  destruct c as [[] [] [] [] [] [] [] []]; reflexivity.
Qed.

(** Text made of characters that need no escaping starts the escaped
    value exactly when it starts the raw one. *)
Lemma starts_with_escape_each (e s : string) :
  all_chars (fun c => negb (xml_special c)) e = true ->
  starts_with e (escape_each s) = starts_with e s.
Proof.
  revert s. induction e as [|a e IH]; intros s H; [reflexivity|].
  simpl in H. apply andb_prop in H as [Ha He].
  apply negb_true_iff in Ha.
  destruct s as [|c s]; [reflexivity|].
  cbn [escape_each].
  destruct (xml_entity_cases c) as [[Hc [t ->]]|[Hc ->]];
    cbn [starts_with String.append].
  - assert (Hamp : Ascii.eqb a "&" = false).
    { destruct (Ascii.eqb_spec a "&") as [->|]; [discriminate Ha | reflexivity]. }
    assert (Hac : Ascii.eqb a c = false).
    { destruct (Ascii.eqb_spec a c) as [->|]; [congruence | reflexivity]. }
    now rewrite Hamp, Hac.
  - now rewrite (IH s He).
Qed.

(** A doubly escaped sequence in the output comes from an entity text
    that the raw value already held, and from nothing else. *)
Lemma count_double_escaped (e s : string) :
  all_chars (fun c => negb (xml_special c)) e = true ->
  count ("&amp;" ++ e) (escape_each s) = count ("&" ++ e) s.
Proof.
  intros He. induction s as [|c s IH]; [reflexivity|].
  cbn [String.append] in IH.
  cbn [escape_each]. unfold xml_entity.
  destruct (Ascii.eqb_spec c "&") as [->|Hamp].
  { cbn [count starts_with String.append andb Ascii.eqb Bool.eqb Nat.add].
    now rewrite (starts_with_escape_each e s He), IH. }
  assert (Hc : Ascii.eqb "&" c = false).
  { destruct (Ascii.eqb_spec "&" c) as [<-|]; [congruence | reflexivity]. }
  destruct (Ascii.eqb_spec c "<") as [->|_];
    [|destruct (Ascii.eqb_spec c ">") as [->|_];
      [|destruct (Ascii.eqb_spec c dqc) as [->|_];
        [|destruct (Ascii.eqb_spec c "'") as [->|_]]]].
  1-4: cbn [count starts_with String.append andb Ascii.eqb Bool.eqb
            Nat.add dqc]; exact IH.
  cbn [count starts_with String.append]. rewrite Hc.
  cbn [andb Nat.add]. exact IH.
Qed.

Lemma number_chars_free_lt (s : string) :
  all_chars number_char s = true -> free_of "<" s = true.
Proof.
  induction s as [|c s IH]; [reflexivity|].
  simpl. intros H. apply andb_prop in H as [Hc Hs].
  rewrite (IH Hs), andb_true_r.
  destruct c as [[] [] [] [] [] [] [] []];
    first [reflexivity | discriminate Hc].
Qed.

Lemma changefreq_free_lt (f : ChangeFreq) : free_of "<" (changefreq_text f) = true.
Proof. destruct f; reflexivity. Qed.

(** Counting through the joined entries, given what one entry adds. *)
Lemma count_join {A : Type} (p : string) (f : A -> string) (k : nat)
    (l : list A) (r : string) :
  (forall x r', In x l ->
     count (String "<" p) (f x ++ r') = (k + count (String "<" p) r')%nat) ->
  count (String "<" p) (join nl (List.map f l) ++ r)
  = (List.length l * k + count (String "<" p) r)%nat.
Proof.
  induction l as [|x l IH]; intros H; [reflexivity|].
  destruct l as [|y l].
  - cbn [List.map join List.length]. rewrite H by (left; reflexivity). lia.
  - change (join nl (List.map f (x :: y :: l)))
      with (f x ++ nl ++ join nl (List.map f (y :: l))).
    rewrite !append_assoc, H by (left; reflexivity).
    rewrite (count_skip_free "<" p nl) by reflexivity.
    rewrite IH by (intros; apply H; right; assumption).
    cbn [List.length]. lia.
Qed.

Lemma scan_join {A : Type} (o c : string) (f : A -> string) (g : A -> string)
    (l : list A) (r : string) :
  (forall x r', In x l ->
     scan_elements (String "<" o) c None 0 (f x ++ r')
     = g x :: scan_elements (String "<" o) c None 0 r') ->
  scan_elements (String "<" o) c None 0 (join nl (List.map f l) ++ r)
  = (List.map g l ++ scan_elements (String "<" o) c None 0 r)%list.
Proof.
  induction l as [|x l IH]; intros H; [reflexivity|].
  destruct l as [|y l].
  - cbn [List.map join]. rewrite H by (left; reflexivity). reflexivity.
  - change (join nl (List.map f (x :: y :: l)))
      with (f x ++ nl ++ join nl (List.map f (y :: l))).
    rewrite !append_assoc, H by (left; reflexivity).
    rewrite (scan_outside_free o c nl) by reflexivity.
    rewrite IH by (intros; apply H; right; assumption).
    reflexivity.
Qed.

Section Entries.

Variable number : Type.
Variable Number_toString : number -> string.

(** What the conversion of a number to a string is known to produce. *)
Hypothesis Number_toString_chars :
  forall n : number, all_chars number_char (Number_toString n) = true.

(** Name the four interpolated values of an entry, keeping only that they
    are free of the less-than sign. *)
Ltac name_values url Hplain :=
  let H1 := fresh "Hloc" in
  let H2 := fresh "Hmod" in
  let H3 := fresh "Hfreq" in
  let H4 := fresh "Hprio" in
  assert (H1 := escapeXml_free_lt url.(loc));
  assert (H2 : free_of "<" url.(lastmod) = true) by exact Hplain;
  assert (H3 := changefreq_free_lt url.(changefreq));
  assert (H4 := number_chars_free_lt _ (Number_toString_chars url.(priority)));
  set (vloc := escapeXml url.(loc)) in *; clearbody vloc;
  set (vmod := url.(lastmod)) in *; clearbody vmod;
  set (vfreq := changefreq_text url.(changefreq)) in *; clearbody vfreq;
  set (vprio := Number_toString url.(priority)) in *; clearbody vprio.

Lemma count_entry (p : string) (url : SitemapURL number) (r : string) :
  In p entry_tags ->
  plain_lastmod url = true ->
  count p (url_entry Number_toString url ++ r) = S (count p r).
Proof.
  intros Hp Hplain. unfold plain_lastmod in Hplain. unfold url_entry.
  name_values url Hplain.
  cbn [In entry_tags] in Hp.
  repeat (destruct Hp as [<-|Hp]; [count_loop; reflexivity|]).
  contradiction.
Qed.

Lemma count_entry_root (p : string) (url : SitemapURL number) (r : string) :
  p = "<urlset" \/ p = "</urlset>" \/ p = "<?xml" ->
  plain_lastmod url = true ->
  count p (url_entry Number_toString url ++ r) = count p r.
Proof.
  intros Hp Hplain. unfold plain_lastmod in Hplain. unfold url_entry.
  name_values url Hplain.
  destruct Hp as [->|[->| ->]]; count_loop; reflexivity.
Qed.

Lemma forallb_In {A : Type} (P : A -> bool) (l : list A) (x : A) :
  forallb P l = true -> In x l -> P x = true.
Proof. intros H. now apply List.forallb_forall. Qed.

Lemma generateSitemap_layout (urls : list (SitemapURL number)) :
  generateSitemap Number_toString urls
  = sitemap_header ++ nl
    ++ join nl (List.map (url_entry Number_toString) urls)
    ++ nl ++ sitemap_footer.
Proof.
  unfold generateSitemap, sitemap_header. cbv zeta.
  rewrite !append_assoc. reflexivity.
Qed.

Lemma scan_entry_loc (url : SitemapURL number) (r : string) :
  plain_lastmod url = true ->
  scan_elements "<loc>" "</loc>" None 0 (url_entry Number_toString url ++ r)
  = escapeXml url.(loc) :: scan_elements "<loc>" "</loc>" None 0 r.
Proof.
  intros Hplain. unfold plain_lastmod in Hplain. unfold url_entry.
  name_values url Hplain.
  scan_loop. reflexivity.
Qed.

Lemma scan_entry_url (url : SitemapURL number) (r : string) :
  plain_lastmod url = true ->
  scan_elements "<url>" "</url>" None 0 (url_entry Number_toString url ++ r)
  = url_inner Number_toString url :: scan_elements "<url>" "</url>" None 0 r.
Proof.
  intros Hplain. unfold plain_lastmod in Hplain. unfold url_entry, url_inner.
  name_values url Hplain.
  scan_loop. reflexivity.
Qed.

(** C10.  The document is the fixed header, the entries of [urls] joined
    in input order, and the fixed footer; entry [i] of that sequence is
    the entry generated from [urls[i]], with [escapeXml] of its [loc]
    inside.  Read back from the document (for [lastmod] values free of
    markup), the [<url>] blocks in document order are the blocks of
    [urls] in input order, and the [<loc>] contents are
    [escapeXml urls[0].loc], [escapeXml urls[1].loc], and so on. *)
Theorem generateSitemap_order : forall urls : list (SitemapURL number),
  let xml := generateSitemap Number_toString urls in
  let entries := List.map (url_entry Number_toString) urls in
  xml = sitemap_header ++ nl ++ join nl entries ++ nl ++ sitemap_footer
  /\ (forall (i : nat) (url : SitemapURL number),
        nth_error urls i = Some url ->
        nth_error entries i
        = Some ("  <url>" ++ url_inner Number_toString url ++ "</url>")
        /\ exists rest, url_inner Number_toString url
                        = nl ++ "    <loc>" ++ escapeXml url.(loc) ++ "</loc>" ++ rest)
  /\ (forallb plain_lastmod urls = true ->
      element_contents "url" xml = List.map (url_inner Number_toString) urls
      /\ element_contents "loc" xml = List.map (fun url => escapeXml url.(loc)) urls
      /\ forall (i : nat) (url : SitemapURL number),
           nth_error urls i = Some url ->
           nth_error (element_contents "url" xml) i
             = Some (url_inner Number_toString url)
           /\ nth_error (element_contents "loc" xml) i
             = Some (escapeXml url.(loc))).
Proof.
  intros urls xml entries.
  split; [apply generateSitemap_layout|]. split.
  - intros i url Hi. split.
    + subst entries. rewrite (List.map_nth_error _ _ _ Hi).
      f_equal. unfold url_entry, url_inner.
      rewrite !append_assoc. reflexivity.
    + eexists. reflexivity.
  - intros Hplain.
    assert (Hurl : element_contents "url" xml
                   = List.map (url_inner Number_toString) urls).
    { subst xml. rewrite generateSitemap_layout.
      unfold element_contents, sitemap_header, sitemap_footer.
      scan_loop.
      rewrite (scan_join _ _ _ (url_inner Number_toString))
        by (intros x r' Hx; apply scan_entry_url;
            exact (forallb_In _ _ _ Hplain Hx)).
      scan_loop. apply List.app_nil_r. }
    assert (Hloc : element_contents "loc" xml
                   = List.map (fun url => escapeXml url.(loc)) urls).
    { subst xml. rewrite generateSitemap_layout.
      unfold element_contents, sitemap_header, sitemap_footer.
      scan_loop.
      rewrite (scan_join _ _ _ (fun url => escapeXml url.(loc)))
        by (intros x r' Hx; apply scan_entry_loc;
            exact (forallb_In _ _ _ Hplain Hx)).
      scan_loop. apply List.app_nil_r. }
    split; [exact Hurl|]. split; [exact Hloc|].
    intros i url Hi. rewrite Hurl, Hloc.
    split; [exact (List.map_nth_error _ _ _ Hi)|].
    exact (List.map_nth_error (fun url => escapeXml url.(loc)) _ _ Hi).
Qed.

End Entries.

Lemma tenths_chars (n : nat) : all_chars number_char (tenths_toString n) = true.
Proof. do 10 (destruct n as [|n]; [reflexivity|]). reflexivity. Qed.

(** Outside the input contract: a [lastmod] value is interpolated as it
    is, so one that holds markup, which no date does, adds to the counts.
    The hypothesis on [lastmod] cannot be dropped. *)
Example counts_need_plain_lastmod :
  let urls := [ Build_SitemapURL "https://example.com/" "<loc>" weekly 10%nat ] in
  List.length urls = 1%nat
  /\ count "<loc>" (generateSitemap tenths_toString urls) = 2%nat.
Proof. split; vm_compute; reflexivity. Qed.

Lemma generateSitemap_order_witness :
  let urls :=
    [ Build_SitemapURL "https://example.com/?a=1&b=2"
        "2024-01-01T00:00:00.000Z" weekly 10%nat;
      Build_SitemapURL "https://example.com/about"
        "2024-02-01T00:00:00.000Z" monthly 8%nat ] in
  element_contents "loc" (generateSitemap tenths_toString urls)
  = ["https://example.com/?a=1&amp;b=2"; "https://example.com/about"].
Proof.
  intros urls.
  pose proof (generateSitemap_order nat tenths_toString tenths_chars urls)
    as (_ & _ & Hscan).
  destruct (Hscan ltac:(reflexivity)) as (_ & Hloc & _).
  exact Hloc.
Defined.

(** C3, as the code has it.  [escapeXml] translates its input one
    character at a time: each of the five special characters becomes its
    entity once, every other character is copied, and the entities written
    by one pass are not touched by a later one.  The [<loc>] element of an
    entry holds that translation of [loc].  A doubly escaped sequence
    ([&amp;] followed by an entity name) is in the output as often as the
    entity text itself is in the raw value: none when the raw value holds
    no entity text. *)
Theorem escapeXml_once :
  (forall str : string, escapeXml str = escape_each str)
  /\ (forall (number : Type) (Number_toString : number -> string)
             (url : SitemapURL number),
        exists rest : string,
          url_entry Number_toString url
          = "  <url>" ++ nl ++ "    <loc>" ++ escape_each url.(loc)
            ++ "</loc>" ++ rest)
  /\ Forall (fun e => forall raw : string,
                count ("&amp;" ++ e) (escapeXml raw) = count ("&" ++ e) raw)
       entity_names.
Proof.
  split; [exact escapeXml_escape_each|]. split.
  - intros number toS url. eexists. unfold url_entry.
    rewrite escapeXml_escape_each. reflexivity.
  - unfold entity_names.
    repeat constructor; intros raw; rewrite escapeXml_escape_each;
      apply count_double_escaped; reflexivity.
Qed.

(** C3 as stated fails: a raw value that holds the text of an entity is
    escaped again, and the output of that single application holds
    [&amp;amp;]. *)
Lemma escapeXml_escapes_entity_text :
  escapeXml "&amp;" = "&amp;amp;"
  /\ includes (escapeXml "https://example.com/?a=1&amp;b=2") "&amp;amp;" = true.
Proof. split; vm_compute; reflexivity. Qed.

End SitemapProofs.

(** ** JSON *)

Module JSONProofs.
Import JSON StringFacts.

(** Induction on values, with the hypothesis for every item of an array
    and every member of an object. *)
Lemma value_induction (P : value -> Prop) :
  (forall s, P (Str s)) ->
  (forall items, List.Forall P items -> P (Arr items)) ->
  (forall props, List.Forall (fun kv => P (snd kv)) props -> P (Obj props)) ->
  forall v, P v.
Proof.
  intros HS HA HO.
  refine (fix IH (v : value) : P v :=
            match v with
            | Str s => HS s
            | Arr items =>
                HA items
                  ((fix go (l : list value) : List.Forall P l :=
                      match l with
                      | [] => @List.Forall_nil _ P
                      | x :: r => @List.Forall_cons _ P x r (IH x) (go r)
                      end) items)
            | Obj props =>
                HO props
                  ((fix go (l : list (string * value))
                      : List.Forall (fun kv => P (snd kv)) l :=
                      match l with
                      | [] => @List.Forall_nil _ (fun kv => P (snd kv))
                      | kv :: r =>
                          @List.Forall_cons _ (fun kv => P (snd kv)) kv r
                            (match kv return P (snd kv) with
                             | (_, w) => IH w
                             end)
                            (go r)
                      end) props)
            end).
Qed.

Lemma skip_ws_indent (n : nat) (s : string) :
  skip_ws (indent n ++ s) = skip_ws s.
Proof.
  unfold indent. induction n as [|n IH]; [reflexivity|].
  cbn [JS.repeat]. rewrite append_assoc. cbn. exact IH.
Qed.

Lemma skip_ws_break (n : nat) (s : string) :
  skip_ws (nl ++ indent n ++ s) = skip_ws s.
Proof. cbn. apply skip_ws_indent. Qed.

(** One escaped unit reads back as the unit. *)
Lemma parse_chars_quote_char (c : ascii) (r : string) :
  parse_chars (quote_char c ++ r) = cons_char c (parse_chars r).
Proof. destruct c as [[] [] [] [] [] [] [] []]; reflexivity. Qed.

Lemma parse_chars_escape (s r : string) :
  parse_chars (escape_chars s ++ dq ++ r) = Some (s, r).
Proof.
  induction s as [|c s IH]; [reflexivity|].
  cbn [escape_chars]. rewrite append_assoc, parse_chars_quote_char, IH.
  reflexivity.
Qed.

Lemma serialize_opens (level : nat) (v : value) (r : string) :
  opens_value (serialize level v ++ r).
Proof.
  destruct v as [s|[|x l]|[|x l]]; cbn [serialize quote];
    eexists; eexists; (split; [cbn; reflexivity|]); auto.
Qed.

Lemma skip_ws_opens (s : string) : opens_value s -> skip_ws s = s.
Proof. intros (c & t & -> & [->|[->| ->]]); reflexivity. Qed.

Lemma parse_value_break (fuel n : nat) (s : string) :
  parse_value fuel (nl ++ indent n ++ s) = parse_value fuel s.
Proof.
  destruct fuel as [|fuel]; [reflexivity|].
  cbn [parse_value]. now rewrite skip_ws_break.
Qed.

Lemma parse_members_break (fuel n : nat) (s : string) :
  parse_members fuel (nl ++ indent n ++ s) = parse_members fuel s.
Proof.
  destruct fuel as [|fuel]; [reflexivity|].
  cbn [parse_members]. now rewrite skip_ws_break.
Qed.

Lemma elements_step_comma (fuel : nat) (x : value) (s t : string) :
  parse_value fuel s = Some (x, "," ++ t) ->
  parse_elements (S fuel) s
  = match parse_elements fuel t with
    | Some (items, rest) => Some (x :: items, rest)
    | None => None
    end.
Proof. intros H. cbn [parse_elements]. rewrite H. reflexivity. Qed.

Lemma elements_step_close (fuel n : nat) (x : value) (s r : string) :
  parse_value fuel s = Some (x, nl ++ indent n ++ "]" ++ r) ->
  parse_elements (S fuel) s = Some ([x], r).
Proof.
  intros H. cbn [parse_elements]. rewrite H, skip_ws_break. reflexivity.
Qed.

Lemma parse_elements_serialized (level : nat) (items : list value) :
  List.Forall reads_back items ->
  items <> [] ->
  forall (fuel : nat) (r : string),
    (list_sum (List.map (fun w => S (size w)) items) <= fuel)%nat ->
    forallb well_formed items = true ->
    parse_elements fuel
      (nl ++ indent (S level)
       ++ join ("," ++ nl ++ indent (S level))
            (List.map (serialize (S level)) items)
       ++ nl ++ indent level ++ "]" ++ r)
    = Some (items, r).
Proof.
  induction 1 as [|x l Hx Hl IH]; [congruence|].
  intros _ fuel r Hfuel Hwf.
  cbn [List.map list_sum fold_right forallb] in Hfuel, Hwf.
  apply andb_prop in Hwf as [Hwfx Hwfl].
  destruct fuel as [|fuel]; [lia|].
  destruct l as [|y l].
  - apply (elements_step_close fuel level).
    rewrite parse_value_break. cbn [List.map join].
    apply Hx; [lia | exact Hwfx].
  - rewrite (elements_step_comma fuel x _
               (nl ++ indent (S level)
                ++ join ("," ++ nl ++ indent (S level))
                     (List.map (serialize (S level)) (y :: l))
                ++ nl ++ indent level ++ "]" ++ r)).
    + rewrite IH; [reflexivity | congruence | | exact Hwfl].
      cbn [List.map list_sum fold_right] in *. lia.
    + rewrite parse_value_break.
      change (join ("," ++ nl ++ indent (S level))
                (List.map (serialize (S level)) (x :: y :: l)))
        with (serialize (S level) x ++ ("," ++ nl ++ indent (S level))
              ++ join ("," ++ nl ++ indent (S level))
                   (List.map (serialize (S level)) (y :: l))).
      rewrite !append_assoc.
      apply Hx; [lia | exact Hwfx].
Qed.

Lemma parse_value_string (fuel : nat) (s r : string) :
  parse_value (S fuel) (quote s ++ r) = Some (Str s, r).
Proof.
  unfold quote. rewrite !append_assoc.
  change (parse_value (S fuel) (dq ++ escape_chars s ++ dq ++ r))
    with (match parse_chars (escape_chars s ++ dq ++ r) with
          | Some (str, rest) => Some (Str str, rest)
          | None => None
          end).
  now rewrite parse_chars_escape.
Qed.

Lemma parse_value_space (fuel : nat) (s : string) :
  parse_value fuel (" " ++ s) = parse_value fuel s.
Proof. destruct fuel; reflexivity. Qed.

Lemma members_head (fuel : nat) (k : string) (s : string) :
  parse_members (S fuel) (quote k ++ ": " ++ s)
  = match parse_value fuel s with
    | None => None
    | Some (v, after) =>
        match skip_ws after with
        | String c rest =>
            if Ascii.eqb c ","
            then match parse_members fuel rest with
                 | Some (members, rest') => Some ((k, v) :: members, rest')
                 | None => None
                 end
            else if Ascii.eqb c "}" then Some ([(k, v)], rest)
            else None
        | EmptyString => None
        end
    end.
Proof.
  unfold quote. rewrite !append_assoc.
  change (parse_members (S fuel) (dq ++ escape_chars k ++ dq ++ ": " ++ s))
    with (match parse_chars (escape_chars k ++ dq ++ ": " ++ s) with
          | None => None
          | Some (key, s2) =>
              match skip_ws s2 with
              | String colon s3 =>
                  if Ascii.eqb colon ":" then
                    match parse_value fuel s3 with
                    | None => None
                    | Some (v, after) =>
                        match skip_ws after with
                        | String c rest =>
                            if Ascii.eqb c ","
                            then match parse_members fuel rest with
                                 | Some (members, rest') =>
                                     Some ((key, v) :: members, rest')
                                 | None => None
                                 end
                            else if Ascii.eqb c "}" then Some ([(key, v)], rest)
                            else None
                        | EmptyString => None
                        end
                    end
                  else None
              | EmptyString => None
              end
          end).
  rewrite parse_chars_escape.
  change (skip_ws (": " ++ s)) with (String ":" (" " ++ s)).
  cbn [Ascii.eqb Bool.eqb]. now rewrite parse_value_space.
Qed.

Lemma members_step_comma (fuel : nat) (k : string) (w : value) (s t : string) :
  parse_value fuel s = Some (w, "," ++ t) ->
  parse_members (S fuel) (quote k ++ ": " ++ s)
  = match parse_members fuel t with
    | Some (members, rest) => Some ((k, w) :: members, rest)
    | None => None
    end.
Proof. intros H. rewrite members_head, H. reflexivity. Qed.

Lemma members_step_close (fuel n : nat) (k : string) (w : value) (s r : string) :
  parse_value fuel s = Some (w, nl ++ indent n ++ "}" ++ r) ->
  parse_members (S fuel) (quote k ++ ": " ++ s) = Some ([(k, w)], r).
Proof. intros H. rewrite members_head, H, skip_ws_break. reflexivity. Qed.

Lemma parse_members_serialized (level : nat) (props : list (string * value)) :
  List.Forall (fun kv => reads_back (snd kv)) props ->
  props <> [] ->
  forall (fuel : nat) (r : string),
    (list_sum (List.map (fun kv : string * value =>
                           let '(_, w) := kv in S (size w)) props) <= fuel)%nat ->
    forallb (fun kv : string * value => let '(_, w) := kv in well_formed w)
      props = true ->
    parse_members fuel
      (nl ++ indent (S level)
       ++ join ("," ++ nl ++ indent (S level))
            (List.map (fun kv : string * value =>
                         let '(k, w) := kv in
                         quote k ++ ": " ++ serialize (S level) w) props)
       ++ nl ++ indent level ++ "}" ++ r)
    = Some (props, r).
Proof.
  induction 1 as [|[k w] l Hx Hl IH]; [congruence|].
  intros _ fuel r Hfuel Hwf. cbn [snd] in Hx.
  cbn [List.map list_sum fold_right forallb] in Hfuel, Hwf.
  apply andb_prop in Hwf as [Hwfx Hwfl].
  destruct fuel as [|fuel]; [lia|].
  rewrite parse_members_break.
  destruct l as [|y l].
  - cbn [List.map join]. rewrite !append_assoc.
    apply (members_step_close fuel level).
    apply Hx; [lia | exact Hwfx].
  - set (member := fun kv : string * value =>
                     let '(k, w) := kv in
                     quote k ++ ": " ++ serialize (S level) w) in *.
    change (join ("," ++ nl ++ indent (S level)) (List.map member ((k, w) :: y :: l)))
      with ((quote k ++ ": " ++ serialize (S level) w)
            ++ ("," ++ nl ++ indent (S level))
            ++ join ("," ++ nl ++ indent (S level)) (List.map member (y :: l))).
    rewrite !append_assoc.
    rewrite (members_step_comma fuel k w _
               (nl ++ indent (S level)
                ++ join ("," ++ nl ++ indent (S level)) (List.map member (y :: l))
                ++ nl ++ indent level ++ "}" ++ r)).
    + rewrite IH; [reflexivity | congruence | | exact Hwfl].
      cbn [List.map list_sum fold_right] in *. lia.
    + apply Hx; [lia | exact Hwfx].
Qed.

Lemma distinct_middle (a b : list string) (k : string) :
  distinct (a ++ k :: b)%list = true -> existsb (String.eqb k) a = false.
Proof.
  induction a as [|x a IH]; [reflexivity|].
  cbn [app distinct existsb]. intros H.
  apply andb_prop in H as [Hx Ha]. apply negb_true_iff in Hx.
  rewrite List.existsb_app in Hx. cbn [existsb] in Hx.
  apply orb_false_iff in Hx as [_ Hx]. apply orb_false_iff in Hx as [Hx _].
  rewrite String.eqb_sym, Hx. cbn [orb]. now apply IH.
Qed.

Lemma set_fresh (props : list (string * value)) (k : string) (v : value) :
  existsb (String.eqb k) (List.map fst props) = false ->
  set props k v = (props ++ [(k, v)])%list.
Proof.
  induction props as [|[k' w] props IH]; [reflexivity|].
  cbn [List.map fst existsb set app]. intros H.
  apply orb_false_iff in H as [Hk Hrest].
  rewrite String.eqb_sym, Hk. now rewrite IH.
Qed.

Lemma fold_set (l acc : list (string * value)) :
  distinct (List.map fst acc ++ List.map fst l)%list = true ->
  fold_left (fun a kv => set a (fst kv) (snd kv)) l acc = (acc ++ l)%list.
Proof.
  revert acc. induction l as [|[k v] l IH]; intros acc H.
  - now rewrite List.app_nil_r.
  - cbn [fold_left fst snd]. cbn [List.map fst] in H.
    rewrite set_fresh by exact (distinct_middle _ _ _ H).
    rewrite IH.
    + now rewrite <- List.app_assoc.
    + rewrite List.map_app, <- List.app_assoc. exact H.
Qed.

(** Members with distinct keys define the object that lists them. *)
Lemma of_members_distinct (props : list (string * value)) :
  distinct (List.map fst props) = true -> of_members props = props.
Proof. intros H. unfold of_members. now rewrite fold_set. Qed.

Lemma parse_value_array (fuel : nat) (s : string) :
  opens_value (skip_ws s) ->
  parse_value (S fuel) ("[" ++ s)
  = match parse_elements fuel s with
    | Some (items, rest) => Some (Arr items, rest)
    | None => None
    end.
Proof.
  intros (c & t & E & Hc).
  change (parse_value (S fuel) ("[" ++ s))
    with (match skip_ws s with
          | String "]" rest => Some (Arr [], rest)
          | _ => match parse_elements fuel s with
                 | Some (items, rest) => Some (Arr items, rest)
                 | None => None
                 end
          end).
  rewrite E. destruct Hc as [->|[->| ->]]; reflexivity.
Qed.

Lemma parse_value_object (fuel : nat) (s : string) :
  opens_value (skip_ws s) ->
  parse_value (S fuel) ("{" ++ s)
  = match parse_members fuel s with
    | Some (members, rest) => Some (Obj (of_members members), rest)
    | None => None
    end.
Proof.
  intros (c & t & E & Hc).
  change (parse_value (S fuel) ("{" ++ s))
    with (match skip_ws s with
          | String "}" rest => Some (Obj [], rest)
          | _ => match parse_members fuel s with
                 | Some (members, rest) => Some (Obj (of_members members), rest)
                 | None => None
                 end
          end).
  rewrite E. destruct Hc as [->|[->| ->]]; reflexivity.
Qed.

Lemma join_opens {A : Type} (sep : string) (f : A -> string) (x : A)
    (l : list A) (r : string) :
  (forall t, opens_value (f x ++ t)) ->
  opens_value (join sep (List.map f (x :: l)) ++ r).
Proof.
  intros H. destruct l as [|y l]; cbn [List.map join]; [apply H|].
  rewrite append_assoc. apply H.
Qed.

Lemma quote_opens (k t : string) : opens_value (quote k ++ t).
Proof.
  unfold quote. rewrite append_assoc.
  eexists; eexists; split; [reflexivity | auto].
Qed.

(** Every value is read back from its text. *)
Theorem reads_back_all : forall v : value, reads_back v.
Proof.
  apply value_induction.
  - intros s level fuel r Hfuel _.
    destruct fuel as [|fuel]; [cbn in Hfuel; lia|].
    apply parse_value_string.
  - intros items Hitems level fuel r Hfuel Hwf.
    destruct fuel as [|fuel]; [cbn in Hfuel; lia|].
    destruct items as [|x l]; [reflexivity|].
    cbn [size] in Hfuel. cbn [well_formed] in Hwf.
    cbn [serialize]. rewrite !append_assoc.
    rewrite parse_value_array.
    + rewrite (parse_elements_serialized level (x :: l) Hitems);
        [reflexivity | congruence | lia | exact Hwf].
    + rewrite skip_ws_break, skip_ws_opens;
        apply join_opens; intros t; apply serialize_opens.
  - intros props Hprops level fuel r Hfuel Hwf.
    destruct fuel as [|fuel]; [cbn in Hfuel; lia|].
    destruct props as [|[k w] l]; [reflexivity|].
    cbn [size] in Hfuel. cbn [well_formed] in Hwf.
    apply andb_prop in Hwf as [Hkeys Hwf].
    cbn [serialize]. rewrite !append_assoc.
    rewrite parse_value_object.
    + rewrite (parse_members_serialized level ((k, w) :: l) Hprops);
        [ now rewrite of_members_distinct | congruence | lia | exact Hwf].
    + rewrite skip_ws_break, skip_ws_opens;
        apply join_opens; intros t; rewrite !append_assoc; apply quote_opens.
Qed.

Lemma length_join_bound {A : Type} (f : A -> string) (h : A -> nat)
    (sep : string) (l : list A) :
  (1 <= String.length sep)%nat ->
  List.Forall (fun x => (h x <= S (String.length (f x)))%nat) l ->
  (list_sum (List.map h l) <= String.length (join sep (List.map f l)) + 1)%nat.
Proof.
  intros Hsep. induction 1 as [|x l Hx Hl IH]; [cbn; lia|].
  destruct l as [|y l].
  - cbn [List.map join list_sum fold_right]. lia.
  - change (join sep (List.map f (x :: y :: l)))
      with (f x ++ sep ++ join sep (List.map f (y :: l))).
    rewrite !length_append.
    cbn [List.map list_sum fold_right] in *. lia.
Qed.

(** The text of a value is at least as long as the fuel it takes. *)
Lemma size_le_length (v : value) :
  forall level : nat, (size v <= String.length (serialize level v))%nat.
Proof.
  induction v as [s|items IH|props IH] using value_induction; intros level.
  - cbn [size serialize]. unfold quote. rewrite !length_append. cbn. lia.
  - destruct items as [|x l]; [cbn; lia|].
    cbn [size serialize]. rewrite !length_append.
    pose proof (length_join_bound (serialize (S level)) (fun w => S (size w))
                  ("," ++ nl ++ indent (S level)) (x :: l)) as Hjoin.
    cbn [String.length String.append] in *.
    assert (Hall : List.Forall
              (fun w => (S (size w) <= S (String.length (serialize (S level) w)))%nat)
              (x :: l)).
    { eapply List.Forall_impl; [|exact IH]. cbn. intros w Hw.
      specialize (Hw (S level)). lia. }
    specialize (Hjoin ltac:(lia) Hall). lia.
  - destruct props as [|x l]; [cbn; lia|].
    cbn [size serialize]. rewrite !length_append.
    pose proof (length_join_bound
                  (fun kv : string * value =>
                     let '(k, w) := kv in quote k ++ ": " ++ serialize (S level) w)
                  (fun kv : string * value => let '(_, w) := kv in S (size w))
                  ("," ++ nl ++ indent (S level)) (x :: l)) as Hjoin.
    cbn [String.length String.append] in *.
    assert (Hall : List.Forall
              (fun kv : string * value =>
                 ((let '(_, w) := kv in S (size w))
                  <= S (String.length
                          (let '(k, w) := kv in
                           quote k ++ ": " ++ serialize (S level) w)))%nat)
              (x :: l)).
    { eapply List.Forall_impl; [|exact IH]. intros [k w] Hw. cbn [snd] in Hw.
      specialize (Hw (S level)). rewrite !length_append. lia. }
    specialize (Hjoin ltac:(lia) Hall). lia.
Qed.

(** The round trip: the text of a value without repeated keys parses, and
    to that very value. *)
Theorem parse_stringify (v : value) :
  well_formed v = true -> parse (stringify v) = Some v.
Proof.
  intros Hwf. unfold parse, stringify.
  pose proof (reads_back_all v 0 (String.length (serialize 0 v)) EmptyString
                (size_le_length v 0) Hwf) as H.
  rewrite append_empty_r in H. now rewrite H.
Qed.

End JSONProofs.

(** ** structured-data.ts *)

Module StructuredDataProofs.
Import JSON StructuredData StringFacts JSONProofs.

Lemma well_formed_strings (l : list string) :
  forallb well_formed (List.map Str l) = true.
Proof. induction l as [|x l IH]; [reflexivity | exact IH]. Qed.

Lemma well_formed_map {A : Type} (f : A -> value) (l : list A) :
  (forall x, well_formed (f x) = true) ->
  forallb well_formed (List.map f l) = true.
Proof.
  intros H. induction l as [|x l IH]; [reflexivity|].
  cbn [List.map forallb]. now rewrite H, IH.
Qed.

(** Decide the optional fields of a record one by one. *)
Ltac decide_fields :=
  repeat match goal with
  | |- context [match ?o with Some _ => _ | None => _ end] =>
      is_var o; destruct o
  | |- context [truthy ?x] => is_var x; destruct (truthy x)
  | |- context [(0 <? List.length ?l)%nat] =>
      is_var l; destruct (0 <? List.length l)%nat
  end.

Lemma personSchema_well_formed (data : PersonData.t) (siteUrl : string) :
  well_formed (Obj (personSchema data siteUrl)) = true.
Proof.
  destruct data as [n j e p [c r co] [g li] i b].
  unfold personSchema, set_if_truthy. cbn [PersonData.image PersonData.bio].
  decide_fields; reflexivity.
Qed.

Lemma personSchema_typed (data : PersonData.t) (siteUrl : string) :
  is_schema_object "Person" (Obj (personSchema data siteUrl)).
Proof.
  destruct data as [n j e p [c r co] [g li] i b].
  unfold personSchema, set_if_truthy. cbn [PersonData.image PersonData.bio].
  decide_fields; split; reflexivity.
Qed.

Lemma workExperienceSchema_well_formed (exp : ExperienceData.t) :
  well_formed (workExperienceSchema exp) = true.
Proof.
  destruct exp as [c r d s e l sk u].
  unfold workExperienceSchema, set_if_truthy.
  cbn [ExperienceData.endDate ExperienceData.companyUrl ExperienceData.location
       ExperienceData.skills].
  decide_fields; cbn; rewrite ?well_formed_strings; reflexivity.
Qed.

Lemma workExperienceSchema_typed (exp : ExperienceData.t) :
  is_schema_object "WorkExperience" (workExperienceSchema exp).
Proof.
  destruct exp as [c r d s e l sk u].
  unfold workExperienceSchema, set_if_truthy.
  cbn [ExperienceData.endDate ExperienceData.companyUrl ExperienceData.location
       ExperienceData.skills].
  decide_fields; split; reflexivity.
Qed.

Lemma creativeWorkSchema_well_formed (authorName : string) (project : ProjectData.t) :
  well_formed (creativeWorkSchema authorName project) = true.
Proof.
  destruct project as [n d u t dc dp].
  unfold creativeWorkSchema, set_if_truthy.
  cbn [ProjectData.url ProjectData.technologies ProjectData.dateCreated
       ProjectData.datePublished].
  decide_fields; cbn; rewrite ?well_formed_strings; reflexivity.
Qed.

Lemma creativeWorkSchema_typed (authorName : string) (project : ProjectData.t) :
  is_schema_object "CreativeWork" (creativeWorkSchema authorName project).
Proof.
  destruct project as [n d u t dc dp].
  unfold creativeWorkSchema, set_if_truthy.
  cbn [ProjectData.url ProjectData.technologies ProjectData.dateCreated
       ProjectData.datePublished].
  decide_fields; split; reflexivity.
Qed.

Lemma educationSchema_well_formed (edu : EducationData.t) :
  well_formed (educationSchema edu) = true.
Proof.
  destruct edu as [i d f s e g l].
  unfold educationSchema, set_if_truthy, push.
  cbn [EducationData.institution EducationData.degree EducationData.field
       EducationData.startDate EducationData.endDate EducationData.gpa
       EducationData.location].
  decide_fields; reflexivity.
Qed.

Lemma educationSchema_typed (edu : EducationData.t) :
  is_schema_object "EducationalOccupationalCredential" (educationSchema edu).
Proof.
  destruct edu as [i d f s e g l].
  unfold educationSchema, set_if_truthy, push.
  cbn [EducationData.institution EducationData.degree EducationData.field
       EducationData.startDate EducationData.endDate EducationData.gpa
       EducationData.location].
  decide_fields; split; reflexivity.
Qed.

Lemma schemas_parse {A : Type} (f : A -> value) (type : string) (l : list A) :
  (forall x, well_formed (f x) = true) ->
  (forall x, is_schema_object type (f x)) ->
  parse (stringify (Arr (List.map f l))) = Some (Arr (List.map f l))
  /\ List.length (List.map f l) = List.length l
  /\ List.Forall (is_schema_object type) (List.map f l).
Proof.
  intros Hwf Htyped. split; [|split].
  - apply parse_stringify. cbn [well_formed]. now apply well_formed_map.
  - apply List.length_map.
  - apply List.Forall_forall. intros v Hv.
    apply List.in_map_iff in Hv as (x & <- & _). apply Htyped.
Qed.

(** C7.  The text each of the four generators returns parses as JSON, to
    the very value the generator built.  For [generatePersonSchema] the
    parsed value is one object; for the three generators over arrays it is
    an array with as many items as the input has.  That object and every
    item of those arrays has the Schema.org address as its [@context] and,
    as its [@type], the literal of its generator, one of the four of
    [schema_types]. *)
Theorem structured_data_valid_json :
  (forall (data : PersonData.t) (siteUrl : string),
     parse (generatePersonSchema data siteUrl)
       = Some (Obj (personSchema data siteUrl))
     /\ is_schema_object "Person" (Obj (personSchema data siteUrl)))
  /\ (forall experiences : list ExperienceData.t,
     let items := List.map workExperienceSchema experiences in
     parse (generateWorkExperienceSchema experiences) = Some (Arr items)
     /\ List.length items = List.length experiences
     /\ List.Forall (is_schema_object "WorkExperience") items)
  /\ (forall (projects : list ProjectData.t) (authorName : string),
     let items := List.map (creativeWorkSchema authorName) projects in
     parse (generateCreativeWorkSchema projects authorName) = Some (Arr items)
     /\ List.length items = List.length projects
     /\ List.Forall (is_schema_object "CreativeWork") items)
  /\ (forall education : list EducationData.t,
     let items := List.map educationSchema education in
     parse (generateEducationSchema education) = Some (Arr items)
     /\ List.length items = List.length education
     /\ List.Forall (is_schema_object "EducationalOccupationalCredential") items)
  /\ schema_types
     = ["Person"; "WorkExperience"; "CreativeWork";
        "EducationalOccupationalCredential"].
Proof.
  split; [|split; [|split; [|split]]].
  - intros data siteUrl. split.
    + apply parse_stringify, personSchema_well_formed.
    + apply personSchema_typed.
  - intros experiences. apply schemas_parse.
    + apply workExperienceSchema_well_formed.
    + apply workExperienceSchema_typed.
  - intros projects authorName. apply schemas_parse.
    + apply creativeWorkSchema_well_formed.
    + apply creativeWorkSchema_typed.
  - intros education. apply schemas_parse.
    + apply educationSchema_well_formed.
    + apply educationSchema_typed.
  - reflexivity.
Qed.

(** The education records of the site, generated and parsed back. *)
Example educationData_parses :
  parse (generateEducationSchema Config.educationData)
  = Some (Arr (List.map educationSchema Config.educationData))
  /\ includes (generateEducationSchema Config.educationData)
       ("Bachelor of Technology in Computer Science & Engineering (AI & ML)")
     = true.
Proof. split; vm_compute; reflexivity. Qed.

End StructuredDataProofs.

(** ** config.ts *)

Module ConfigProofs.
Import Config.

Lemma truthy_eqb (v : string) : truthy v = negb (String.eqb v "").
Proof. destruct v; reflexivity. Qed.

Lemma getEnv_resolve (key fallback : string) (env process_env : option (gmap string string)) :
  getEnv key fallback env process_env = resolve key fallback env process_env.
Proof.
  unfold getEnv, resolve, layer. cbn [first_non_empty].
  destruct env as [e|]; [destruct (e !! key) as [v|]|];
    try (rewrite truthy_eqb; destruct (String.eqb v ""); cbn [negb]);
    try reflexivity;
    (destruct process_env as [pe|]; [destruct (pe !! key) as [w|]|];
     try (rewrite truthy_eqb; destruct (String.eqb w ""); cbn [negb]);
     reflexivity).
Qed.

(** C9.  For every key and fallback, [getEnv] returns the first non-empty
    value among the bindings of the caller, the process environment and
    the fallback, in that order; a layer that holds the empty string for
    the key gives the same result as that layer without the key; and the
    fields of [createSiteConfig], [createAnalyticsConfig] and
    [createSEOConfig] are the resolutions of their keys with their
    hardcoded defaults. *)
Theorem configuration_precedence :
  forall (env process_env : option (gmap string string)),
  (forall key fallback : string,
     getEnv key fallback env process_env
     = first_non_empty [layer env key; layer process_env key] fallback)
  /\ (forall (key fallback : string) (e pe : gmap string string),
        getEnv key fallback (Some (<[key := ""]> e)) process_env
        = getEnv key fallback (Some (delete key e)) process_env
        /\ getEnv key fallback env (Some (<[key := ""]> pe))
           = getEnv key fallback env (Some (delete key pe)))
  /\ (createSiteConfig env process_env).(SiteConfig.url)
       = resolve "SITE_URL" "https://sandeepkommineni.me" env process_env
  /\ (createSiteConfig env process_env).(SiteConfig.domain)
       = resolve "SITE_DOMAIN" "sandeepkommineni.me" env process_env
  /\ (createAnalyticsConfig env process_env).(AnalyticsConfig.googleAnalyticsId)
       = resolve "GA_MEASUREMENT_ID" "" env process_env
  /\ (createAnalyticsConfig env process_env).(AnalyticsConfig.googleSearchConsoleId)
       = resolve "GSC_VERIFICATION_ID" "" env process_env
  /\ (createAnalyticsConfig env process_env).(AnalyticsConfig.enableDebug)
       = negb (String.eqb (resolve "ENVIRONMENT" "production" env process_env)
                 "production")
  /\ (createSEOConfig env process_env).(SEOConfig.site).(SiteInfo.url)
       = resolve "SITE_URL" "https://sandeepkommineni.me" env process_env
  /\ (createSEOConfig env process_env).(SEOConfig.site).(SiteInfo.domain)
       = resolve "SITE_DOMAIN" "sandeepkommineni.me" env process_env
  /\ (createSEOConfig env process_env).(SEOConfig.analytics)
       = createAnalyticsConfig env process_env
  /\ (createSEOConfig env process_env).(SEOConfig.environment)
       = (if String.eqb (resolve "ENVIRONMENT" "production" env process_env)
               "production"
          then production else development).
Proof.
  intros env process_env.
  split; [intros; apply getEnv_resolve|].
  split.
  { intros key fallback e pe. rewrite !getEnv_resolve. unfold resolve, layer.
    rewrite !lookup_insert_eq, !lookup_delete_eq. split; [reflexivity|].
    cbn [first_non_empty]. destruct (layer env key) as [v|]; reflexivity. }
  unfold createSEOConfig, createSiteConfig, createAnalyticsConfig, isProduction.
  cbn [SiteConfig.url SiteConfig.domain AnalyticsConfig.googleAnalyticsId
       AnalyticsConfig.googleSearchConsoleId AnalyticsConfig.enableDebug
       SEOConfig.site SEOConfig.analytics SEOConfig.environment
       SiteInfo.url SiteInfo.domain].
  rewrite !getEnv_resolve. repeat split; reflexivity.
Qed.

Example env_only :
  getEnv "SITE_URL" "https://sandeepkommineni.me"
    (Some {[ "SITE_URL" := "https://staging.example.com" ]})
    (Some {[ "SITE_URL" := "https://local.example.com" ]})
  = "https://staging.example.com".
Proof. reflexivity. Qed.

Example empty_env_falls_through :
  getEnv "SITE_URL" "https://sandeepkommineni.me"
    (Some {[ "SITE_URL" := "" ]})
    (Some {[ "SITE_URL" := "https://local.example.com" ]})
  = "https://local.example.com"
  /\ getEnv "SITE_URL" "https://sandeepkommineni.me"
       (Some {[ "SITE_URL" := "" ]}) (Some {[ "SITE_URL" := "" ]})
     = "https://sandeepkommineni.me"
  /\ getEnv "GA_MEASUREMENT_ID" "" None None = "".
Proof. repeat split; reflexivity. Qed.

End ConfigProofs.

(** ** More on strings *)

Module StringMore.
Import StringFacts.

Lemma append_cancel_l (p a b : string) : p ++ a = p ++ b -> a = b.
Proof.
  induction p as [|c p IH]; cbn [String.append]; [trivial|].
  intros H. injection H as H. now apply IH.
Qed.

(** A translation of characters into non-empty texts, none of which
    starts another, loses nothing. *)
Section PrefixCode.
Variable ent : ascii -> string.
Variable E : string -> string.
Hypothesis E_nil : E EmptyString = EmptyString.
Hypothesis E_cons : forall c s, E (String c s) = ent c ++ E s.
Hypothesis ent_nonempty : forall c, ent c <> EmptyString.
Hypothesis ent_prefix : forall c d r1 r2, ent c ++ r1 = ent d ++ r2 -> c = d.

Lemma prefix_code_injective (a b : string) : E a = E b -> a = b.
Proof.
  revert b. induction a as [|c a IH]; intros [|d b] H.
  - reflexivity.
  - rewrite E_nil, E_cons in H. exfalso.
    destruct (ent d) eqn:Hd; [now apply (ent_nonempty d) | discriminate H].
  - rewrite E_nil, E_cons in H. exfalso.
    destruct (ent c) eqn:Hc; [now apply (ent_nonempty c) | discriminate H].
  - rewrite !E_cons in H. pose proof (ent_prefix _ _ _ _ H) as ->.
    apply append_cancel_l in H. f_equal. now apply IH.
Qed.

End PrefixCode.

(** A pattern free of [x] that starts at a position before an [x] lies
    before it. *)
Lemma starts_with_cut (x : ascii) (p a r : string) :
  free_of x p = true -> p <> EmptyString ->
  starts_with p (a ++ String x r) = starts_with p a.
Proof.
  revert a. induction p as [|c p IH]; intros a Hfree Hne; [congruence|].
  cbn [free_of] in Hfree. apply andb_prop in Hfree as [Hc Hp].
  apply negb_true_iff in Hc.
  destruct a as [|d a]; cbn [String.append starts_with].
  - now rewrite Hc.
  - destruct p as [|c' p'].
    + destruct (a ++ String x r), a; reflexivity.
    + rewrite (IH a Hp) by discriminate. reflexivity.
Qed.

Lemma count_append_at (x : ascii) (p a r : string) :
  free_of x p = true -> p <> EmptyString ->
  count p (a ++ String x r) = (count p a + count p (String x r))%nat.
Proof.
  intros Hfree Hne. remember (count p (String x r)) as k eqn:Hk.
  induction a as [|d a IH]; [now subst k|].
  pose proof (starts_with_cut x p (String d a) r Hfree Hne) as Hcut.
  change (String d a ++ String x r) with (String d (a ++ String x r)) in *.
  cbn [count]. rewrite IH, Hcut. lia.
Qed.

Lemma take_drop (n : nat) (s : string) : take n s ++ drop n s = s.
Proof.
  revert s. induction n as [|n IH]; intros [|c s]; cbn; try reflexivity.
  now rewrite IH.
Qed.

Lemma length_drop (n : nat) (s : string) :
  String.length (drop n s) = (String.length s - n)%nat.
Proof.
  revert s. induction n as [|n IH]; intros [|c s]; cbn; try lia.
  apply IH.
Qed.

Lemma substring_empty (s : string) (n : Z) :
  (n <= 0)%Z -> substring s 0 n = EmptyString.
Proof.
  intros H. unfold substring, clamp.
  assert (Hlen : (0 <= str_length s)%Z) by (unfold str_length; lia).
  replace (Z.max (Z.max 0 (Z.min 0 (str_length s)))
                 (Z.max 0 (Z.min n (str_length s)))
           - Z.min (Z.max 0 (Z.min 0 (str_length s)))
                   (Z.max 0 (Z.min n (str_length s))))%Z with 0%Z by lia.
  reflexivity.
Qed.

End StringMore.

(** ** More on meta-tags.ts *)

Module MetaTagsMore.
Import MetaTags StringFacts StringMore MetaTagsProofs.

Lemma escapeHtml_cons (c : ascii) (s : string) :
  escapeHtml (String c s) = html_entity c ++ escapeHtml s.
Proof. reflexivity. Qed.

Lemma html_entity_length (c : ascii) :
  (1 <= String.length (html_entity c))%nat
  /\ (String.length (html_entity c) <= 6)%nat
  /\ (String.length (html_entity c) = 1%nat -> html_special c = false).
Proof.
  destruct c as [[] [] [] [] [] [] [] []]; cbn;
    repeat split; try lia; try reflexivity; intros H; discriminate H.
Qed.

Lemma html_entity_nonempty (c : ascii) : html_entity c <> EmptyString.
Proof.
  pose proof (html_entity_length c) as [H _].
  destruct (html_entity c); [cbn in H; lia | discriminate].
Qed.

Lemma html_special_cases (c : ascii) :
  html_special c = true ->
  c = "&"%char \/ c = "<"%char \/ c = ">"%char \/ c = dqc \/ c = "'"%char.
Proof.
  unfold html_special. intros H.
  repeat (apply orb_prop in H as [H|H]);
    apply Ascii.eqb_eq in H; auto 6.
Qed.

Lemma html_entity_plain (c : ascii) :
  html_special c = false ->
  html_entity c = String c EmptyString /\ c <> "&"%char.
Proof.
  intros H. unfold html_entity. rewrite H. split; [reflexivity|].
  intros ->. discriminate H.
Qed.

Lemma html_entity_prefix (c d : ascii) (r1 r2 : string) :
  html_entity c ++ r1 = html_entity d ++ r2 -> c = d.
Proof.
  destruct (html_special c) eqn:Hc; destruct (html_special d) eqn:Hd.
  - apply html_special_cases in Hc, Hd.
    destruct Hc as [->|[->|[->|[->| ->]]]];
      destruct Hd as [->|[->|[->|[->| ->]]]];
      cbn; intros H; first [reflexivity | discriminate H].
  - destruct (html_entity_plain d Hd) as [-> Hamp].
    apply html_special_cases in Hc.
    destruct Hc as [->|[->|[->|[->| ->]]]]; cbn; intros H;
      injection H as H _; congruence.
  - destruct (html_entity_plain c Hc) as [-> Hamp].
    apply html_special_cases in Hd.
    destruct Hd as [->|[->|[->|[->| ->]]]]; cbn; intros H;
      injection H as H _; congruence.
  - destruct (html_entity_plain c Hc) as [-> _].
    destruct (html_entity_plain d Hd) as [-> _].
    cbn. intros H. now injection H.
Qed.

Lemma escapeHtml_length (s : string) :
  (String.length s <= String.length (escapeHtml s))%nat
  /\ (String.length (escapeHtml s) <= 6 * String.length s)%nat.
Proof.
  induction s as [|c s [IH1 IH2]]; [cbn; lia|].
  rewrite escapeHtml_cons, length_append.
  destruct (html_entity_length c) as (H1 & H6 & _).
  cbn [String.length]. lia.
Qed.

Lemma escapeHtml_plain (s : string) :
  all_chars (fun c => negb (html_special c)) s = true -> escapeHtml s = s.
Proof.
  induction s as [|c s IH]; [reflexivity|].
  cbn [all_chars]. intros H. apply andb_prop in H as [Hc Hs].
  apply negb_true_iff in Hc.
  rewrite escapeHtml_cons, (IH Hs). unfold html_entity. now rewrite Hc.
Qed.

Lemma escapeHtml_same_length (s : string) :
  String.length (escapeHtml s) = String.length s ->
  all_chars (fun c => negb (html_special c)) s = true.
Proof.
  induction s as [|c s IH]; [reflexivity|].
  rewrite escapeHtml_cons, length_append. cbn [String.length all_chars].
  destruct (html_entity_length c) as (H1 & _ & Hplain).
  destruct (escapeHtml_length s) as [Hs _].
  intros H. rewrite Hplain by lia. rewrite IH by lia. reflexivity.
Qed.

(** X1.  Escaped text holds none of the four delimiters: no less-than or
    greater-than sign, no double quote and no apostrophe, so it cannot
    leave the element or the attribute value it is put in. *)
Theorem escapeHtml_no_delimiters : forall text : string,
  free_of "<" (escapeHtml text) = true
  /\ free_of ">" (escapeHtml text) = true
  /\ free_of dqc (escapeHtml text) = true
  /\ free_of "'" (escapeHtml text) = true.
Proof.
  intros text. repeat split; apply replace_global_free;
    intros [[] [] [] [] [] [] [] []]; reflexivity.
Qed.

(** X2.  Escaping never shortens a text and at most makes it six times as
    long; it returns the text unchanged exactly when the text has none of
    the five special characters. *)
Theorem escapeHtml_unchanged_iff : forall text : string,
  (String.length text <= String.length (escapeHtml text) <= 6 * String.length text)%nat
  /\ (escapeHtml text = text
      <-> all_chars (fun c => negb (html_special c)) text = true).
Proof.
  intros text. split; [apply escapeHtml_length|]. split.
  - intros H. apply escapeHtml_same_length. now rewrite H.
  - apply escapeHtml_plain.
Qed.

Lemma escapeHtml_unchanged_iff_witness :
  escapeHtml "Sandeep Kommineni - AI/ML Engineer"
  = "Sandeep Kommineni - AI/ML Engineer".
Proof.
  apply (proj2 (proj2 (escapeHtml_unchanged_iff
                         "Sandeep Kommineni - AI/ML Engineer"))).
  reflexivity.
Defined.

(** X3.  Escaping loses nothing: texts with the same escaped text are the
    same text. *)
Theorem escapeHtml_injective : forall a b : string,
  escapeHtml a = escapeHtml b -> a = b.
Proof.
  apply (prefix_code_injective html_entity escapeHtml).
  - reflexivity.
  - exact escapeHtml_cons.
  - exact html_entity_nonempty.
  - exact html_entity_prefix.
Qed.

Lemma escapeHtml_injective_witness : "Tom & <Jerry>" = "Tom & <Jerry>".
Proof.
  apply (escapeHtml_injective "Tom & <Jerry>" "Tom & <Jerry>"). reflexivity.
Defined.

Lemma entity_html_xml (c : ascii) :
  c <> "'"%char -> html_entity c = Sitemap.xml_entity c.
Proof.
  intros H. destruct c as [[] [] [] [] [] [] [] []];
    first [reflexivity | exfalso; apply H; reflexivity].
Qed.

(** X4.  [escapeHtml] and [escapeXml] differ in the entity of the apostrophe
    alone: they give the same text exactly for the inputs without an
    apostrophe. *)
Theorem escapeHtml_escapeXml_agree : forall text : string,
  escapeHtml text = Sitemap.escapeXml text <-> free_of "'" text = true.
Proof.
  intros text. rewrite SitemapProofs.escapeXml_escape_each.
  induction text as [|c text IH]; [split; reflexivity|].
  rewrite escapeHtml_cons. cbn [Sitemap.escape_each free_of].
  destruct (Ascii.eqb_spec c "'") as [->|Hc]; cbn [negb andb].
  - split; intros H; discriminate H.
  - rewrite (entity_html_xml c Hc). rewrite <- IH. split.
    + apply append_cancel_l.
    + now intros ->.
Qed.

Lemma escapeHtml_escapeXml_agree_witness :
  escapeHtml "R&D <team>" = Sitemap.escapeXml "R&D <team>".
Proof.
  apply (proj2 (escapeHtml_escapeXml_agree "R&D <team>")).
  reflexivity.
Defined.

Lemma truncated_length (text : string) (maxLen : Z) :
  (3 <= maxLen)%Z -> (maxLen < str_length text)%Z ->
  str_length (substring text 0 (maxLen - 3) ++ "...") = maxLen.
Proof.
  intros Hmax Hlt. rewrite substring_prefix by lia.
  unfold str_length in *. rewrite length_append, length_take by lia.
  cbn. lia.
Qed.

(** X5.  Truncating twice is truncating once, for every limit: a truncated
    description passes through [truncateDescription] unchanged. *)
Theorem truncateDescription_idempotent : forall (text : string) (maxLen : Z),
  truncateDescription (truncateDescription text maxLen) maxLen
  = truncateDescription text maxLen.
Proof.
  intros text maxLen. unfold truncateDescription.
  destruct (Z.leb_spec (str_length text) maxLen) as [Hfit|Hlong].
  - destruct (Z.leb_spec (str_length text) maxLen); [reflexivity | lia].
  - destruct (Z.le_gt_cases 3 maxLen) as [Hmax|Hsmall].
    + rewrite (truncated_length text maxLen Hmax Hlong).
      now rewrite Z.leb_refl.
    + rewrite (substring_empty text (maxLen - 3)) by lia.
      cbn [String.append].
      destruct (Z.leb_spec (str_length "...") maxLen) as [H|_];
        [unfold str_length in H; cbn in H; lia|].
      now rewrite (substring_empty "..." (maxLen - 3)) by lia.
Qed.

End MetaTagsMore.

(** ** The documents of meta-tags.ts *)

Module MetaDocuments.
Import MetaTags StringFacts StringMore MetaTagsProofs.

(** Decide the optional fields of a configuration. *)
Ltac decide_optional :=
  repeat match goal with
  | o : option (list string) |- _ => destruct o as [[|? ?]|]
  | o : option string |- _ =>
      let a := fresh "a" in destruct o as [a|]; [destruct (truthy a)|]
  end.

(** Scan for an element through a document of literal text and escaped
    values. *)
Ltac scan_tags := name_escaped; scan_loop; try reflexivity.

Lemma basic_counts (config : MetaTagsConfig) :
  Forall (fun tag => count tag (generateBasicMetaTags config) = 1%nat)
    basic_required
  /\ Forall (fun tag => count tag (generateBasicMetaTags config) = 0%nat)
       (og_required ++ twitter_required).
Proof.
  destruct config as [t d u kws a].
  unfold generateBasicMetaTags, basic_required, og_required, twitter_required,
    meta_open, push.
  cbn [title description canonicalUrl keywords author app].
  decide_optional; cbn [List.length Nat.ltb Nat.leb app join];
    split; repeat constructor; count_tags.
Qed.

Lemma og_counts (config : OpenGraphTags) :
  Forall (fun tag => count tag (generateOpenGraphTags config) = 1%nat)
    og_required
  /\ Forall (fun tag => count tag (generateOpenGraphTags config) = 0%nat)
       (basic_required ++ twitter_required).
Proof.
  destruct config as [t d i ty u sn].
  unfold generateOpenGraphTags, basic_required, og_required, twitter_required,
    meta_open, push.
  cbn [ogTitle ogDescription ogImage ogType ogUrl ogSiteName app].
  decide_optional; cbn [app join];
    split; repeat constructor; count_tags.
Qed.

Lemma twitter_counts (config : TwitterCardTags) :
  Forall (fun tag => count tag (generateTwitterCardTags config) = 1%nat)
    twitter_required
  /\ Forall (fun tag => count tag (generateTwitterCardTags config) = 0%nat)
       (basic_required ++ og_required).
Proof.
  destruct config as [c t d i si cr].
  unfold generateTwitterCardTags, basic_required, og_required, twitter_required,
    meta_open, push.
  cbn [twitterCard twitterTitle twitterDescription twitterImage twitterSite
       twitterCreator app].
  decide_optional; cbn [app join];
    split; repeat constructor; count_tags.
Qed.

Lemma required_shape (tag : string) :
  In tag (basic_required ++ og_required ++ twitter_required) ->
  free_of nlc tag = true /\ exists rest, tag = String "<" rest.
Proof.
  unfold basic_required, og_required, twitter_required, meta_open.
  cbn [app In]. intros H.
  repeat (destruct H as [<-|H]; [split; [reflexivity | eexists; reflexivity]|]).
  contradiction.
Qed.

(** Counting a tag through three sections joined by line feeds adds up
    the counts of the sections. *)
Lemma count_sections (tag b o t : string) :
  free_of nlc tag = true -> (exists rest, tag = String "<" rest) ->
  count tag (b ++ nl ++ o ++ nl ++ t)
  = (count tag b + count tag o + count tag t)%nat.
Proof.
  intros Hfree [rest ->].
  change (b ++ nl ++ o ++ nl ++ t) with (b ++ String nlc (o ++ String nlc t)).
  rewrite (count_append_at nlc) by (assumption || discriminate).
  change (count (String "<" rest) (String nlc (o ++ String nlc t)))
    with (count (String "<" rest) (o ++ String nlc t)).
  rewrite (count_append_at nlc) by (assumption || discriminate).
  change (count (String "<" rest) (String nlc t))
    with (count (String "<" rest) t).
  lia.
Qed.

(** X6.  The basic block opens with the charset declaration and holds exactly
    one charset, viewport, title, description and canonical tag; it holds
    a keywords tag exactly when the keyword list is present and not empty;
    and the [<title>] element read back from it is the escaped title. *)
Theorem basic_tags_once : forall config : MetaTagsConfig,
  let html := generateBasicMetaTags config in
  starts_with ("<meta charset=" ++ quoted "UTF-8" ++ ">") html = true
  /\ Forall (fun tag => count tag html = 1%nat) basic_required
  /\ count "</title>" html = 1%nat
  /\ count (meta_open "name" "keywords") html
     = match config.(keywords) with Some (_ :: _) => 1 | _ => 0 end%nat
  /\ element_contents "title" html = [escapeHtml config.(title)].
Proof.
  intros config. cbv zeta.
  split; [|split; [exact (proj1 (basic_counts config))|]];
    destruct config as [t d u kws a];
    unfold generateBasicMetaTags, meta_open, element_contents, push;
    cbn [title description canonicalUrl keywords author];
    decide_optional; cbn [List.length Nat.ltb Nat.leb app join];
    try reflexivity;
    (split; [count_tags|]);
    (split; [count_tags|]);
    scan_tags.
Qed.

Lemma truncateDescription_bound (text : string) (maxLen : Z) :
  (3 <= maxLen)%Z -> (str_length (truncateDescription text maxLen) <= maxLen)%Z.
Proof.
  intros Hmax. unfold truncateDescription.
  destruct (Z.leb_spec (str_length text) maxLen) as [Hfit|Hlong]; [exact Hfit|].
  rewrite (MetaTagsMore.truncated_length text maxLen Hmax Hlong). lia.
Qed.

(** X7.  The description tag holds the escaped form of a text of at most 160
    characters, the description itself when it is that short: the limit
    applies to the text before escaping, so the escaped content can be
    longer but always stands for a whole truncated text. *)
Theorem description_shown_bounded : forall config : MetaTagsConfig,
  (str_length (shown_description config) <= 160)%Z
  /\ ((str_length config.(description) <= 160)%Z ->
      shown_description config = config.(description))
  /\ exists before after : string,
       generateBasicMetaTags config
       = before
         ++ "<meta name=" ++ quoted "description" ++ " content="
         ++ quoted (escapeHtml (shown_description config)) ++ ">"
         ++ after
       /\ count (meta_open "name" "description") before = 0%nat
       /\ count (meta_open "name" "description") after = 0%nat.
Proof.
  intros config. split; [apply truncateDescription_bound; lia|]. split.
  { intros Hfit. unfold shown_description, truncateDescription, defaultMaxLength.
    destruct (Z.leb_spec (str_length config.(description)) 160);
      [reflexivity | lia]. }
  destruct config as [t d u kws a].
  change (shown_description
            {| title := t; description := d; canonicalUrl := u;
               keywords := kws; author := a |})
    with (truncateDescription d defaultMaxLength).
  exists ("<meta charset=" ++ quoted "UTF-8" ++ ">" ++ nl
          ++ "<meta name=" ++ quoted "viewport" ++ " content="
          ++ quoted "width=device-width, initial-scale=1.0" ++ ">" ++ nl
          ++ "<title>" ++ escapeHtml t ++ "</title>" ++ nl).
  exists (nl ++ join nl
            ((match kws with
              | Some (k :: l) =>
                  [("<meta name=" ++ quoted "keywords" ++ " content="
                    ++ quoted (escapeHtml (join ", " (k :: l))) ++ ">")%string]
              | _ => []
              end)
             ++ (match a with
                 | Some x =>
                     if truthy x
                     then [("<meta name=" ++ quoted "author" ++ " content="
                            ++ quoted (escapeHtml x) ++ ">")%string]
                     else []
                 | None => []
                 end)
             ++ [("<link rel=" ++ quoted "canonical" ++ " href="
                  ++ quoted (escapeHtml u) ++ ">")%string])%list).
  unfold generateBasicMetaTags, meta_open, push.
  cbn [title description canonicalUrl keywords author].
  set (shown := truncateDescription d defaultMaxLength).
  decide_optional; cbn [List.length Nat.ltb Nat.leb app join];
    (split; [unfold quoted; rewrite ?append_assoc; reflexivity|]);
    split; count_tags.
Qed.

Lemma description_shown_bounded_witness :
  shown_description
    {| title := "Home"; description := "AI/ML engineer & researcher";
       canonicalUrl := "https://example.com/"; keywords := None; author := None |}
  = "AI/ML engineer & researcher".
Proof.
  apply (proj1 (proj2 (description_shown_bounded
           {| title := "Home"; description := "AI/ML engineer & researcher";
              canonicalUrl := "https://example.com/"; keywords := None;
              author := None |}))).
  vm_compute. discriminate.
Defined.

(** X8.  The complete document is the basic block, the Open Graph block and the
    Twitter block, in that order, each on lines of its own; every one of
    the fourteen required tags occurs in it exactly once, so no block
    repeats a tag of another. *)
Theorem generateMetaTags_required_once : forall config : Complete.t,
  let basic :=
    generateBasicMetaTags
      {| title := config.(Complete.title);
         description := config.(Complete.description);
         canonicalUrl := config.(Complete.canonicalUrl);
         keywords := config.(Complete.keywords);
         author := config.(Complete.author) |} in
  let og :=
    generateOpenGraphTags
      {| ogTitle := config.(Complete.ogTitle);
         ogDescription := config.(Complete.ogDescription);
         ogImage := config.(Complete.ogImage);
         ogType := config.(Complete.ogType);
         ogUrl := config.(Complete.ogUrl);
         ogSiteName := config.(Complete.ogSiteName) |} in
  let tw :=
    generateTwitterCardTags
      {| twitterCard := config.(Complete.twitterCard);
         twitterTitle := config.(Complete.twitterTitle);
         twitterDescription := config.(Complete.twitterDescription);
         twitterImage := config.(Complete.twitterImage);
         twitterSite := config.(Complete.twitterSite);
         twitterCreator := config.(Complete.twitterCreator) |} in
  generateMetaTags config = basic ++ nl ++ og ++ nl ++ tw
  /\ Forall (fun tag => count tag (generateMetaTags config) = 1%nat)
       (basic_required ++ og_required ++ twitter_required).
Proof.
  intros config basic og tw.
  assert (Hlayout : generateMetaTags config = basic ++ nl ++ og ++ nl ++ tw)
    by reflexivity.
  split; [exact Hlayout|]. rewrite Hlayout.
  destruct (basic_counts
              {| title := config.(Complete.title);
                 description := config.(Complete.description);
                 canonicalUrl := config.(Complete.canonicalUrl);
                 keywords := config.(Complete.keywords);
                 author := config.(Complete.author) |}) as [Hb1 Hb0].
  destruct (og_counts
              {| ogTitle := config.(Complete.ogTitle);
                 ogDescription := config.(Complete.ogDescription);
                 ogImage := config.(Complete.ogImage);
                 ogType := config.(Complete.ogType);
                 ogUrl := config.(Complete.ogUrl);
                 ogSiteName := config.(Complete.ogSiteName) |}) as [Ho1 Ho0].
  destruct (twitter_counts
              {| twitterCard := config.(Complete.twitterCard);
                 twitterTitle := config.(Complete.twitterTitle);
                 twitterDescription := config.(Complete.twitterDescription);
                 twitterImage := config.(Complete.twitterImage);
                 twitterSite := config.(Complete.twitterSite);
                 twitterCreator := config.(Complete.twitterCreator) |})
    as [Ht1 Ht0].
  fold basic in Hb1, Hb0. fold og in Ho1, Ho0. fold tw in Ht1, Ht0.
  clearbody basic og tw. clear Hlayout.
  rewrite List.Forall_forall in Hb1, Hb0, Ho1, Ho0, Ht1, Ht0.
  apply List.Forall_forall. intros tag Htag.
  destruct (required_shape tag Htag) as [Hfree Hshape].
  rewrite (count_sections tag basic og tw Hfree Hshape).
  apply List.in_app_or in Htag as [Htag|Htag];
    [|apply List.in_app_or in Htag as [Htag|Htag]].
  - rewrite (Hb1 tag Htag), (Ho0 tag), (Ht0 tag);
      [reflexivity | | ]; apply List.in_or_app; auto.
  - rewrite (Hb0 tag), (Ho1 tag Htag), (Ht0 tag);
      [reflexivity | | ]; apply List.in_or_app; auto.
  - rewrite (Hb0 tag), (Ho0 tag), (Ht1 tag Htag);
      [reflexivity | | ]; apply List.in_or_app; auto.
Qed.

End MetaDocuments.

(** ** More on sitemap.ts *)

Module SitemapMore.
Import Sitemap StringFacts StringMore SitemapProofs Markup.

Lemma xml_special_cases (c : ascii) :
  xml_special c = true ->
  c = "&"%char \/ c = "<"%char \/ c = ">"%char \/ c = dqc \/ c = "'"%char.
Proof.
  unfold xml_special. intros H.
  repeat (apply orb_prop in H as [H|H]);
    apply Ascii.eqb_eq in H; auto 6.
Qed.

Lemma xml_entity_plain (c : ascii) :
  xml_special c = false ->
  xml_entity c = String c EmptyString /\ c <> "&"%char.
Proof.
  intros H. destruct (xml_entity_cases c) as [[Hc _]|[_ ->]]; [congruence|].
  split; [reflexivity|]. intros ->. discriminate H.
Qed.

Lemma xml_entity_prefix (c d : ascii) (r1 r2 : string) :
  xml_entity c ++ r1 = xml_entity d ++ r2 -> c = d.
Proof.
  destruct (xml_special c) eqn:Hc; destruct (xml_special d) eqn:Hd.
  - apply xml_special_cases in Hc, Hd.
    destruct Hc as [->|[->|[->|[->| ->]]]];
      destruct Hd as [->|[->|[->|[->| ->]]]];
      cbn; intros H; first [reflexivity | discriminate H].
  - destruct (xml_entity_plain d Hd) as [-> Hamp].
    apply xml_special_cases in Hc.
    destruct Hc as [->|[->|[->|[->| ->]]]]; cbn; intros H;
      injection H as H _; congruence.
  - destruct (xml_entity_plain c Hc) as [-> Hamp].
    apply xml_special_cases in Hd.
    destruct Hd as [->|[->|[->|[->| ->]]]]; cbn; intros H;
      injection H as H _; congruence.
  - destruct (xml_entity_plain c Hc) as [-> _].
    destruct (xml_entity_plain d Hd) as [-> _].
    cbn. intros H. now injection H.
Qed.

Lemma xml_entity_nonempty (c : ascii) : xml_entity c <> EmptyString.
Proof.
  destruct (xml_entity_cases c) as [[_ [t ->]]|[_ ->]]; discriminate.
Qed.

(** X9.  The escaped [loc] holds none of the four delimiters, and escaping
    loses nothing: two locations with the same escaped text are the same
    location. *)
Theorem escapeXml_safe_injective :
  (forall str : string,
     free_of "<" (escapeXml str) = true
     /\ free_of ">" (escapeXml str) = true
     /\ free_of dqc (escapeXml str) = true
     /\ free_of "'" (escapeXml str) = true)
  /\ (forall a b : string, escapeXml a = escapeXml b -> a = b).
Proof.
  split.
  - intros str. rewrite escapeXml_escape_each.
    induction str as [|c str (H1 & H2 & H3 & H4)]; [repeat split|].
    cbn [escape_each]. rewrite !free_of_append, H1, H2, H3, H4, !andb_true_r.
    destruct c as [[] [] [] [] [] [] [] []]; repeat split.
  - intros a b. rewrite !escapeXml_escape_each.
    apply (prefix_code_injective xml_entity escape_each).
    + reflexivity.
    + reflexivity.
    + exact xml_entity_nonempty.
    + exact xml_entity_prefix.
Qed.

Lemma escapeXml_safe_injective_witness :
  "https://example.com/?a=1&b=2" = "https://example.com/?a=1&b=2".
Proof.
  apply (proj2 escapeXml_safe_injective
           "https://example.com/?a=1&b=2" "https://example.com/?a=1&b=2").
  reflexivity.
Defined.

(** X10.  Escaping the parts of a text and putting them together is escaping
    the whole: no replacement reaches across the seam. *)
Theorem escapeXml_concatenation : forall a b : string,
  escapeXml (a ++ b) = escapeXml a ++ escapeXml b.
Proof. exact escapeXml_append. Qed.

Lemma join_append (sep : string) (a b : list string) :
  a <> [] -> b <> [] ->
  join sep (a ++ b) = join sep a ++ sep ++ join sep b.
Proof.
  intros Ha Hb. induction a as [|x a IH]; [congruence|].
  destruct a as [|y a].
  - destruct b as [|z b]; [congruence | reflexivity].
  - change (join sep ((x :: y :: a) ++ b))
      with (x ++ sep ++ join sep ((y :: a) ++ b)).
    rewrite IH by discriminate.
    change (join sep (x :: y :: a)) with (x ++ sep ++ join sep (y :: a)).
    now rewrite !append_assoc.
Qed.

(** X11.  The document of two non-empty arrays put together is the document of
    the first with the entries of the second added before the closing
    tag; the document of the empty array has an empty line for a body. *)
Theorem generateSitemap_concatenation :
  forall (number : Type) (Number_toString : number -> string)
         (a b : list (SitemapURL number)),
  a <> [] -> b <> [] ->
  let entries := fun urls => join nl (List.map (url_entry Number_toString) urls) in
  generateSitemap Number_toString a
    = sitemap_header ++ nl ++ entries a ++ nl ++ sitemap_footer
  /\ generateSitemap Number_toString b
    = sitemap_header ++ nl ++ entries b ++ nl ++ sitemap_footer
  /\ generateSitemap Number_toString (a ++ b)
    = sitemap_header ++ nl ++ entries a ++ nl ++ entries b ++ nl ++ sitemap_footer
  /\ generateSitemap Number_toString []
    = sitemap_header ++ nl ++ nl ++ sitemap_footer.
Proof.
  intros number toS a b Ha Hb entries.
  rewrite !generateSitemap_layout. subst entries. cbv beta.
  repeat split; try reflexivity.
  rewrite List.map_app, join_append, !append_assoc; [reflexivity| |];
    intros H; apply List.map_eq_nil in H; congruence.
Qed.

Lemma generateSitemap_concatenation_witness :
  generateSitemap tenths_toString
    ([Build_SitemapURL "https://example.com/" "2024-01-01" weekly 10%nat]
     ++ [Build_SitemapURL "https://example.com/about" "2024-02-01" monthly 8%nat])
  = sitemap_header ++ nl
    ++ url_entry tenths_toString
         (Build_SitemapURL "https://example.com/" "2024-01-01" weekly 10%nat)
    ++ nl
    ++ url_entry tenths_toString
         (Build_SitemapURL "https://example.com/about" "2024-02-01" monthly 8%nat)
    ++ nl ++ sitemap_footer.
Proof.
  apply (generateSitemap_concatenation nat tenths_toString
           [Build_SitemapURL "https://example.com/" "2024-01-01" weekly 10%nat]
           [Build_SitemapURL "https://example.com/about" "2024-02-01" monthly 8%nat]
           ltac:(discriminate) ltac:(discriminate)).
Defined.

Lemma balanced_text (stack : list string) (h r : string) :
  free_of "<" h = true ->
  balanced_from stack None (h ++ r) = balanced_from stack None r.
Proof.
  induction h as [|d h IH]; [reflexivity|].
  cbn [balanced_from String.append free_of].
  intros H. apply andb_prop in H as [Hd Hh].
  apply negb_true_iff in Hd. rewrite Hd. now apply IH.
Qed.

(** Read the tags of a document of literal text and values known to be
    free of the less-than sign. *)
Ltac balance_loop :=
  repeat (cbn [balanced_from tag_name String.append String.eqb Ascii.eqb
               Bool.eqb andb quoted dq nl dqc nlc];
          rewrite ?append_assoc;
          rewrite ?balanced_text by assumption).

Lemma balanced_join {A : Type} (stack : list string) (f : A -> string)
    (l : list A) (r : string) :
  (forall x r', In x l ->
     balanced_from stack None (f x ++ r') = balanced_from stack None r') ->
  balanced_from stack None (join nl (List.map f l) ++ r)
  = balanced_from stack None r.
Proof.
  induction l as [|x l IH]; intros H; [reflexivity|].
  destruct l as [|y l].
  - cbn [List.map join]. apply H. now left.
  - change (join nl (List.map f (x :: y :: l)))
      with (f x ++ nl ++ join nl (List.map f (y :: l))).
    rewrite !append_assoc, H by (left; reflexivity).
    rewrite (balanced_text stack nl) by reflexivity.
    apply IH. intros; apply H; now right.
Qed.

Section Balance.

Variable number : Type.
Variable Number_toString : number -> string.
Hypothesis Number_toString_chars :
  forall n : number, all_chars number_char (Number_toString n) = true.

Lemma balanced_entry (url : SitemapURL number) (r : string) :
  plain_lastmod url = true ->
  balanced_from ["urlset"] None (url_entry Number_toString url ++ r)
  = balanced_from ["urlset"] None r.
Proof.
  intros Hplain. unfold plain_lastmod in Hplain. unfold url_entry.
  assert (Hloc := escapeXml_free_lt url.(loc)).
  assert (Hfreq := changefreq_free_lt url.(changefreq)).
  assert (Hprio := number_chars_free_lt _ (Number_toString_chars url.(priority))).
  set (vloc := escapeXml url.(loc)) in *; clearbody vloc.
  set (vmod := url.(lastmod)) in *; clearbody vmod.
  set (vfreq := changefreq_text url.(changefreq)) in *; clearbody vfreq.
  set (vprio := Number_toString url.(priority)) in *; clearbody vprio.
  balance_loop. reflexivity.
Qed.

(** X12.  For [lastmod] values free of markup the document is well nested:
    every [urlset], [url], [loc], [lastmod], [changefreq] and [priority]
    element that is opened is closed in order, whatever the [loc] values
    hold. *)
Theorem generateSitemap_balanced : forall urls : list (SitemapURL number),
  forallb plain_lastmod urls = true ->
  balanced (generateSitemap Number_toString urls) = true.
Proof.
  intros urls Hplain. rewrite generateSitemap_layout.
  unfold balanced, sitemap_header, sitemap_footer.
  balance_loop.
  rewrite balanced_join; [balance_loop; reflexivity|].
  intros x r' Hx. apply balanced_entry.
  exact (proj1 (List.forallb_forall _ _) Hplain x Hx).
Qed.

(** C1.  The input contract of [SitemapURL] makes [lastmod] a date in
    ISO 8601 format; the proof needs of it only that it holds no less-than
    sign.  For every such array the document holds each of the ten opening
    and closing tags of [entry_tags] exactly [length urls] times, whatever
    the [loc] values hold; it is the XML declaration and the opening
    [<urlset>] tag with the sitemap namespace, a body and the closing tag;
    the declaration and the opening and closing [urlset] tags occur once
    each; and the document is well formed: every element that is opened
    is closed, in order. *)
Theorem sitemap_element_counts : forall urls : list (SitemapURL number),
  forallb plain_lastmod urls = true ->
  let xml := generateSitemap Number_toString urls in
  Forall (fun tag => count tag xml = List.length urls) entry_tags
  /\ (exists body : string,
        xml = "<?xml version=" ++ quoted "1.0" ++ " encoding=" ++ quoted "UTF-8"
              ++ "?>" ++ nl
              ++ "<urlset xmlns="
              ++ quoted "http://www.sitemaps.org/schemas/sitemap/0.9" ++ ">"
              ++ nl ++ body ++ nl ++ "</urlset>")
  /\ count "<?xml" xml = 1%nat
  /\ count "<urlset" xml = 1%nat
  /\ count "</urlset>" xml = 1%nat
  /\ balanced xml = true.
Proof.
  intros urls Hplain xml.
  assert (Hentry : forall tag, In tag entry_tags ->
                     count tag xml = List.length urls).
  { intros tag Htag. subst xml. rewrite generateSitemap_layout.
    assert (Hjoin : forall r,
              count tag (join nl (List.map (url_entry Number_toString) urls) ++ r)
              = (List.length urls * 1 + count tag r)%nat).
    { intros r. pose proof Htag as Htag'. cbn [In entry_tags] in Htag'.
      repeat (destruct Htag' as [<-|Htag'];
              [apply count_join; intros x r' Hx;
               apply (count_entry _ _ Number_toString_chars);
               [exact Htag | exact (forallb_In _ _ _ Hplain Hx)]|]).
      contradiction. }
    unfold sitemap_header, sitemap_footer.
    cbn [In entry_tags] in Htag.
    repeat (destruct Htag as [<-|Htag];
            [count_loop; rewrite Hjoin; count_loop; lia|]).
    contradiction. }
  assert (Hroot : forall p, p = "<urlset" \/ p = "</urlset>" \/ p = "<?xml" ->
            forall r, count p (join nl (List.map (url_entry Number_toString) urls) ++ r)
                      = (List.length urls * 0 + count p r)%nat).
  { intros p Hp r.
    destruct Hp as [->|[->| ->]]; apply count_join; intros x r' Hx;
      apply (count_entry_root _ _ Number_toString_chars); auto;
      exact (forallb_In _ _ _ Hplain Hx). }
  assert (Hnested : balanced xml = true).
  { subst xml. rewrite generateSitemap_layout.
    unfold balanced, sitemap_header, sitemap_footer.
    balance_loop.
    rewrite balanced_join; [balance_loop; reflexivity|].
    intros x r' Hx. apply balanced_entry.
    exact (forallb_In _ _ _ Hplain Hx). }
  split; [apply List.Forall_forall; exact Hentry|].
  split.
  { exists (join nl (List.map (url_entry Number_toString) urls)).
    reflexivity. }
  subst xml. rewrite generateSitemap_layout in *.
  unfold sitemap_header, sitemap_footer in *.
  repeat split; try exact Hnested;
    count_loop; rewrite Hroot by auto; count_loop; lia.
Qed.

End Balance.

Lemma sitemap_element_counts_witness :
  let urls :=
    [ Build_SitemapURL "https://example.com/?a=1&b=2"
        "2024-01-01T00:00:00.000Z" weekly 10%nat;
      Build_SitemapURL "https://example.com/about"
        "2024-02-01T00:00:00.000Z" monthly 8%nat ] in
  forallb plain_lastmod urls = true
  /\ Forall (fun tag => count tag (generateSitemap tenths_toString urls) = 2%nat)
       entry_tags
  /\ count "<urlset" (generateSitemap tenths_toString urls) = 1%nat
  /\ count "</urlset>" (generateSitemap tenths_toString urls) = 1%nat
  /\ balanced (generateSitemap tenths_toString urls) = true.
Proof.
  intros urls.
  assert (Hplain : forallb plain_lastmod urls = true) by reflexivity.
  pose proof (sitemap_element_counts nat tenths_toString tenths_chars urls Hplain)
    as (Htags & _ & _ & Hopen & Hclose & Hnested).
  split; [exact Hplain|].
  split; [exact Htags|].
  split; [exact Hopen|].
  split; [exact Hclose | exact Hnested].
Defined.

Lemma generateSitemap_balanced_witness :
  balanced
    (generateSitemap tenths_toString
       [ Build_SitemapURL "https://example.com/?q=<a>&b" "2024-01-01T00:00:00.000Z"
           weekly 10%nat;
         Build_SitemapURL "https://example.com/about" "2024-02-01T00:00:00.000Z"
           monthly 8%nat ]) = true.
Proof.
  apply (generateSitemap_balanced nat tenths_toString tenths_chars).
  reflexivity.
Defined.

(** Markup in a [lastmod] value breaks the nesting: the contract is
    needed. *)
Example unbalanced_with_markup_in_lastmod :
  balanced
    (generateSitemap tenths_toString
       [ Build_SitemapURL "https://example.com/" "</url>" weekly 10%nat ]) = false.
Proof. vm_compute. reflexivity. Qed.

End SitemapMore.

(** ** The shape of the structured data *)

Module StructuredDataMore.
Import JSON StructuredData StringFacts JSONProofs StructuredDataProofs.

(** X13.  The Person object parses back from the text; it has the nine required
    keys in source order, then [image] and [description] when the image
    and the bio are present and not empty; the phone is under
    [telephone], the location is a [PostalAddress] object and the two
    profiles are [sameAs], GitHub first. *)
Theorem personSchema_shape : forall (data : PersonData.t) (siteUrl : string),
  let schema := Obj (personSchema data siteUrl) in
  parse (generatePersonSchema data siteUrl) = Some schema
  /\ keys schema
     = (["@context"; "@type"; "name"; "jobTitle"; "url"; "email"; "telephone";
         "address"; "sameAs"]
        ++ optional_key "image" (truthy_opt data.(PersonData.image))
        ++ optional_key "description" (truthy_opt data.(PersonData.bio)))%list
  /\ field schema "name" = Some (Str data.(PersonData.name))
  /\ field schema "url" = Some (Str siteUrl)
  /\ field schema "telephone" = Some (Str data.(PersonData.phone))
  /\ field schema "address"
     = Some (Obj [ ("@type", Str "PostalAddress");
                   ("addressLocality",
                    Str data.(PersonData.location).(Location.city));
                   ("addressRegion",
                    Str data.(PersonData.location).(Location.region));
                   ("addressCountry",
                    Str data.(PersonData.location).(Location.country)) ])
  /\ field schema "sameAs"
     = Some (Arr [ Str data.(PersonData.socialProfiles).(SocialProfiles.github);
                   Str data.(PersonData.socialProfiles).(SocialProfiles.linkedin) ])
  /\ field schema "image" = optional_text data.(PersonData.image)
  /\ field schema "description" = optional_text data.(PersonData.bio).
Proof.
  intros data siteUrl schema. subst schema.
  split; [apply parse_stringify, personSchema_well_formed|].
  destruct data as [n j e p [c r co] [g li] i b].
  unfold personSchema, set_if_truthy, optional_text, optional_key, truthy_opt,
    keys, field.
  cbn [PersonData.image PersonData.bio PersonData.name PersonData.phone
       PersonData.location PersonData.socialProfiles PersonData.jobTitle
       PersonData.email Location.city Location.region Location.country
       SocialProfiles.github SocialProfiles.linkedin].
  decide_fields; repeat split; reflexivity.
Qed.

(** X14.  Every WorkExperience item has the six required keys in source order,
    then [endDate], [location] and [skills] when the end date and the
    location are not empty and the skill list is not empty; its employer
    is an [Organization] named after the company, with a [url] after the
    name exactly when the company URL is present and not empty. *)
Theorem workExperienceSchema_shape : forall exp : ExperienceData.t,
  let schema := workExperienceSchema exp in
  let has_skills :=
    match exp.(ExperienceData.skills) with Some (_ :: _) => true | _ => false end in
  keys schema
  = (["@context"; "@type"; "name"; "description"; "startDate"; "employer"]
     ++ optional_key "endDate" (truthy_opt exp.(ExperienceData.endDate))
     ++ optional_key "location" (truthy exp.(ExperienceData.location))
     ++ optional_key "skills" has_skills)%list
  /\ field schema "name" = Some (Str exp.(ExperienceData.role))
  /\ field schema "employer"
     = Some (Obj ([ ("@type", Str "Organization");
                    ("name", Str exp.(ExperienceData.company)) ]
                  ++ match optional_text exp.(ExperienceData.companyUrl) with
                     | Some u => [("url", u)]
                     | None => []
                     end))
  /\ field schema "endDate" = optional_text exp.(ExperienceData.endDate)
  /\ field schema "skills"
     = (if has_skills
        then option_map (fun l => Arr (List.map Str l)) exp.(ExperienceData.skills)
        else None).
Proof.
  intros exp. cbv zeta.
  destruct exp as [c r d s e l sk u].
  unfold workExperienceSchema, set_if_truthy, optional_text, optional_key,
    truthy_opt, keys, field.
  cbn [ExperienceData.endDate ExperienceData.companyUrl ExperienceData.location
       ExperienceData.skills ExperienceData.role ExperienceData.company
       ExperienceData.description ExperienceData.startDate].
  destruct sk as [[|k sk]|]; cbn [List.length Nat.ltb Nat.leb];
    decide_fields; repeat split; reflexivity.
Qed.

(** X15.  Every CreativeWork item names the one [authorName] it was given as
    its author, whatever the project; it has [url], [dateCreated] and
    [datePublished] when they are present and not empty, and [keywords],
    the technologies, when there is at least one. *)
Theorem creativeWorkSchema_shape :
  forall (authorName : string) (project : ProjectData.t),
  let schema := creativeWorkSchema authorName project in
  let has_keywords :=
    match project.(ProjectData.technologies) with _ :: _ => true | [] => false end in
  keys schema
  = (["@context"; "@type"; "name"; "description"; "author"]
     ++ optional_key "url" (truthy_opt project.(ProjectData.url))
     ++ optional_key "dateCreated" (truthy_opt project.(ProjectData.dateCreated))
     ++ optional_key "datePublished"
          (truthy_opt project.(ProjectData.datePublished))
     ++ optional_key "keywords" has_keywords)%list
  /\ field schema "author"
     = Some (Obj [("@type", Str "Person"); ("name", Str authorName)])
  /\ field schema "url" = optional_text project.(ProjectData.url)
  /\ field schema "dateCreated" = optional_text project.(ProjectData.dateCreated)
  /\ field schema "datePublished"
     = optional_text project.(ProjectData.datePublished)
  /\ field schema "keywords"
     = (if has_keywords
        then Some (Arr (List.map Str project.(ProjectData.technologies)))
        else None).
Proof.
  intros authorName project. cbv zeta.
  destruct project as [n d u t dc dp].
  unfold creativeWorkSchema, set_if_truthy, optional_text, optional_key,
    truthy_opt, keys, field.
  cbn [ProjectData.url ProjectData.technologies ProjectData.dateCreated
       ProjectData.datePublished ProjectData.name ProjectData.description].
  destruct t as [|k t]; cbn [List.length Nat.ltb Nat.leb];
    decide_fields; repeat split; reflexivity.
Qed.

Lemma get_cond_other (b : bool) (p : list (string * value)) (k k' : string)
    (v : value) :
  String.eqb k k' = false ->
  get (if b then set p k v else p) k' = get p k'.
Proof.
  intros H. destruct b; [|reflexivity].
  induction p as [|[k0 w] p IH]; cbn [set get].
  - now rewrite H.
  - destruct (String.eqb_spec k0 k) as [->|Hk]; cbn [get].
    + now rewrite H.
    + destruct (String.eqb k0 k'); [reflexivity | exact IH].
Qed.

Lemma get_set_other (p : list (string * value)) (k k' : string) (v : value) :
  String.eqb k k' = false -> get (set p k v) k' = get p k'.
Proof. exact (get_cond_other true p k k' v). Qed.

Lemma get_cond2_other (b : bool) (p : list (string * value))
    (k1 k2 k' : string) (v1 v2 : value) :
  String.eqb k1 k' = false -> String.eqb k2 k' = false ->
  get (if b then set (set p k1 v1) k2 v2 else p) k' = get p k'.
Proof.
  intros H1 H2. destruct b; [|reflexivity].
  now rewrite !get_set_other.
Qed.

Lemma get_truthy_other (p : list (string * value)) (k k' : string)
    (x : option string) :
  String.eqb k k' = false -> get (set_if_truthy p k x) k' = get p k'.
Proof.
  intros H. unfold set_if_truthy. destruct x as [t|]; [|reflexivity].
  destruct (truthy t); [now apply get_set_other | reflexivity].
Qed.

Lemma get_set_same (p : list (string * value)) (k : string) (v : value) :
  get (set p k v) k = Some v.
Proof.
  induction p as [|[k0 w] p IH]; cbn [set get].
  - now rewrite String.eqb_refl.
  - destruct (String.eqb_spec k0 k) as [->|Hk]; cbn [get].
    + now rewrite String.eqb_refl.
    + apply String.eqb_neq in Hk. now rewrite Hk.
Qed.

(** Pass over the assignments to other keys. *)
Ltac pass_other_keys :=
  repeat first [ rewrite get_cond_other by reflexivity
               | rewrite get_cond2_other by reflexivity
               | rewrite get_truthy_other by reflexivity
               | rewrite get_set_other by reflexivity ].

(** X16.  Every education item is named [degree in field] and recognised by
    the institution.  [educationalLevel] and [credentialCategory] are both
    there exactly when the degree is not empty (the category is the field
    even when the field is empty, and is left out with the degree even
    when the field is not).  The description is left out only when no part
    of it is there; with all parts there it reads
    [degree in field from institution (location)]. *)
Theorem educationSchema_shape : forall edu : EducationData.t,
  let schema := educationSchema edu in
  let degree := edu.(EducationData.degree) in
  let field_of_study := edu.(EducationData.field) in
  let institution := edu.(EducationData.institution) in
  let has_description :=
    (truthy degree && truthy field_of_study) || truthy institution
    || truthy_opt edu.(EducationData.location) in
  field schema "name" = Some (Str (degree ++ " in " ++ field_of_study))
  /\ field schema "recognizedBy"
     = Some (Obj [("@type", Str "Organization"); ("name", Str institution)])
  /\ field schema "educationalLevel"
     = (if truthy degree then Some (Str degree) else None)
  /\ field schema "credentialCategory"
     = (if truthy degree then Some (Str field_of_study) else None)
  /\ field schema "grade" = optional_text edu.(EducationData.gpa)
  /\ (field schema "description" = None <-> has_description = false)
  /\ (forall location : string,
        truthy degree = true -> truthy field_of_study = true ->
        truthy institution = true ->
        edu.(EducationData.location) = Some location ->
        truthy location = true ->
        field schema "description"
        = Some (Str (degree ++ " in " ++ field_of_study ++ " from "
                     ++ institution ++ " (" ++ location ++ ")"))).
Proof.
  intros edu. cbv zeta.
  destruct edu as [i d f s e g l].
  unfold educationSchema, optional_text, truthy_opt, field, push.
  cbn [EducationData.institution EducationData.degree EducationData.field
       EducationData.startDate EducationData.endDate EducationData.gpa
       EducationData.location].
  repeat split.
  - pass_other_keys. reflexivity.
  - pass_other_keys. reflexivity.
  - pass_other_keys. destruct (truthy d); reflexivity.
  - pass_other_keys. destruct (truthy d); reflexivity.
  - pass_other_keys. unfold set_if_truthy.
    destruct g as [g|]; [destruct (truthy g)|];
      rewrite ?get_set_same; pass_other_keys; try reflexivity.
  - destruct (truthy d), (truthy f), (truthy i), l as [l|];
      try destruct (truthy l); cbn [andb orb app List.length Nat.ltb Nat.leb];
      intros H; first [reflexivity | rewrite get_set_same in H; discriminate H].
  - destruct (truthy d), (truthy f), (truthy i), l as [l|];
      try destruct (truthy l); cbn [andb orb app List.length Nat.ltb Nat.leb];
      intros H; first [discriminate H | pass_other_keys; reflexivity].
  - intros location Hd Hf Hi Hl Hloc. subst l.
    rewrite Hd, Hf, Hi, Hloc. cbn [andb app List.length Nat.ltb Nat.leb].
    rewrite get_set_same. cbn [join]. rewrite ?append_assoc. reflexivity.
Qed.

Lemma educationSchema_shape_witness :
  field (educationSchema
           {| EducationData.institution := "KL University";
              EducationData.degree := "Bachelor of Technology";
              EducationData.field := "Computer Science";
              EducationData.startDate := "2022-03";
              EducationData.endDate := "2026-03";
              EducationData.gpa := Some "9.0";
              EducationData.location := Some "Vaddeswaram" |}) "description"
  = Some (Str ("Bachelor of Technology" ++ " in " ++ "Computer Science" ++ " from "
               ++ "KL University" ++ " (" ++ "Vaddeswaram" ++ ")")).
Proof.
  apply (proj2 (proj2 (proj2 (proj2 (proj2 (proj2
           (educationSchema_shape
              {| EducationData.institution := "KL University";
                 EducationData.degree := "Bachelor of Technology";
                 EducationData.field := "Computer Science";
                 EducationData.startDate := "2022-03";
                 EducationData.endDate := "2026-03";
                 EducationData.gpa := Some "9.0";
                 EducationData.location := Some "Vaddeswaram" |}))))))
           "Vaddeswaram"); reflexivity.
Defined.

End StructuredDataMore.

(** ** More on config.ts *)

Module ConfigMore.
Import JSON StructuredData Config ConfigProofs.

(** X17.  [getEnv] returns a non-empty text exactly when the caller's bindings,
    the process environment or the default holds one: with a non-empty
    default the result is never empty, so the URL and the domain of the
    site are never empty. *)
Theorem getEnv_non_empty :
  forall (key fallback : string) (env process_env : option (gmap string string)),
  truthy (getEnv key fallback env process_env)
  = truthy_opt (layer env key) || truthy_opt (layer process_env key)
    || truthy fallback
  /\ truthy (createSiteConfig env process_env).(SiteConfig.url) = true
  /\ truthy (createSiteConfig env process_env).(SiteConfig.domain) = true.
Proof.
  assert (H : forall key fallback env process_env,
            truthy (getEnv key fallback env process_env)
            = truthy_opt (layer env key) || truthy_opt (layer process_env key)
              || truthy fallback).
  { intros key fallback env process_env. unfold getEnv, layer, truthy_opt.
    destruct env as [e|]; [destruct (e !! key) as [v|]|];
      try (destruct (truthy v) eqn:Hv; [now rewrite Hv|]);
      (destruct process_env as [pe|]; [destruct (pe !! key) as [w|]|];
       try (destruct (truthy w) eqn:Hw; [now rewrite Hw|]);
       reflexivity). }
  intros key fallback env process_env. split; [apply H|].
  unfold createSiteConfig. cbn [SiteConfig.url SiteConfig.domain].
  rewrite !H. cbn [truthy]. now rewrite !orb_true_r.
Qed.

(** X18.  The image of the person and the Open Graph image of a configuration
    are both the profile picture under the resolved site URL, also when
    the caller's bindings override the URL that [PERSON_DATA] was built
    with; every other field of the person is that of [PERSON_DATA].  The
    Person structured data of the configuration therefore always carries
    that image, and the site URL as its [url]. *)
Theorem createSEOConfig_image_follows_url :
  forall env process_env : option (gmap string string),
  let config := createSEOConfig env process_env in
  let url := config.(SEOConfig.site).(SiteInfo.url) in
  let person := config.(SEOConfig.person) in
  person.(PersonData.image) = Some (url ++ "/static/profile.jpg")
  /\ config.(SEOConfig.meta).(Meta.ogImage) = url ++ "/static/profile.jpg"
  /\ person.(PersonData.name) = (PERSON_DATA process_env).(PersonData.name)
  /\ person.(PersonData.jobTitle) = (PERSON_DATA process_env).(PersonData.jobTitle)
  /\ person.(PersonData.email) = (PERSON_DATA process_env).(PersonData.email)
  /\ person.(PersonData.phone) = (PERSON_DATA process_env).(PersonData.phone)
  /\ person.(PersonData.location) = (PERSON_DATA process_env).(PersonData.location)
  /\ person.(PersonData.socialProfiles)
     = (PERSON_DATA process_env).(PersonData.socialProfiles)
  /\ person.(PersonData.bio) = (PERSON_DATA process_env).(PersonData.bio)
  /\ field (Obj (personSchema person url)) "image"
     = Some (Str (url ++ "/static/profile.jpg"))
  /\ field (Obj (personSchema person url)) "url" = Some (Str url).
Proof.
  intros env process_env. cbv zeta.
  unfold createSEOConfig.
  cbn [SEOConfig.site SEOConfig.person SEOConfig.meta SiteInfo.url Meta.ogImage
       PersonData.image PersonData.name PersonData.jobTitle PersonData.email
       PersonData.phone PersonData.location PersonData.socialProfiles
       PersonData.bio].
  repeat split.
  - unfold personSchema, set_if_truthy, field.
    cbn [PersonData.image PersonData.bio PERSON_DATA].
    assert (Ht : truthy ((createSiteConfig env process_env).(SiteConfig.url)
                         ++ "/static/profile.jpg") = true).
    { destruct ((createSiteConfig env process_env).(SiteConfig.url));
        reflexivity. }
    rewrite Ht. reflexivity.
  - unfold personSchema, set_if_truthy, field.
    cbn [PersonData.image PersonData.bio PERSON_DATA].
    assert (Ht : truthy ((createSiteConfig env process_env).(SiteConfig.url)
                         ++ "/static/profile.jpg") = true).
    { destruct ((createSiteConfig env process_env).(SiteConfig.url));
        reflexivity. }
    rewrite Ht. reflexivity.
Qed.

Example override_changes_person_image :
  let env := Some ({[ "SITE_URL" := "https://staging.example.com" ]}
                   : gmap string string) in
  (createSEOConfig env None).(SEOConfig.person).(PersonData.image)
    = Some "https://staging.example.com/static/profile.jpg"
  /\ (PERSON_DATA None).(PersonData.image)
    = Some "https://sandeepkommineni.me/static/profile.jpg".
Proof. split; reflexivity. Qed.

End ConfigMore.

(** ** analytics.ts *)

Module AnalyticsProofs.
Import Config ConfigProofs Analytics.

(** X19.  The script is empty exactly when there is no measurement ID or an
    empty one.  For the configuration that [createAnalyticsConfig]
    resolves, that is exactly when no layer configures
    [GA_MEASUREMENT_ID]. *)
Theorem generateAnalyticsScript_empty_iff :
  (forall config : AnalyticsConfig,
     generateAnalyticsScript config = ""
     <-> truthy_opt config.(googleAnalyticsId) = false)
  /\ (forall env process_env : option (gmap string string),
        generateAnalyticsScript (of_config (createAnalyticsConfig env process_env))
          = ""
        <-> resolve "GA_MEASUREMENT_ID" "" env process_env = "").
Proof.
  assert (H : forall config : AnalyticsConfig,
            generateAnalyticsScript config = ""
            <-> truthy_opt config.(googleAnalyticsId) = false).
  { intros [id gsc dbg]. unfold generateAnalyticsScript.
    cbn [googleAnalyticsId truthy_opt].
    destruct id as [id|]; [|split; intros _; reflexivity].
    change (truthy_opt (Some id)) with (truthy id).
    destruct (truthy id); cbn [negb String.append]; split; intros H;
      first [reflexivity | discriminate H]. }
  split; [exact H|].
  intros env process_env. rewrite H.
  unfold of_config, createAnalyticsConfig.
  cbn [googleAnalyticsId AnalyticsConfig.googleAnalyticsId].
  rewrite getEnv_resolve. unfold truthy_opt, truthy.
  destruct (resolve "GA_MEASUREMENT_ID" "" env process_env);
    split; intros H0; first [reflexivity | discriminate H0].
Qed.

Lemma generateAnalyticsScript_empty_iff_witness :
  generateAnalyticsScript
    {| googleAnalyticsId := Some EmptyString; googleSearchConsoleId := None;
       enableDebug := Some true |}
  = EmptyString.
Proof.
  apply (proj2 (proj1 generateAnalyticsScript_empty_iff
                  {| googleAnalyticsId := Some EmptyString;
                     googleSearchConsoleId := None;
                     enableDebug := Some true |})).
  reflexivity.
Defined.

End AnalyticsProofs.

(** ** Tracking in analytics.ts *)

Module TrackingProofs.
Import Analytics.

#[local] Set Warnings "-clear-no-such-hyp".

Lemma observe_entry_once (browser : Browser) (state : Tracking) (entry : Entry) :
  tracked_once state -> tracked_once (observe_entry browser state entry).
Proof.
  intros [Hnodup Hcalls]. unfold observe_entry.
  destruct (isIntersecting entry && _); [|now split].
  cbv zeta. destruct (decide (target_id entry ∈ observedSections state)) as [Hin|Hnew];
    [now split|].
  unfold trackEvent.
  destruct (isDNTEnabled browser); [|destruct (gtag_defined browser)];
    unfold tracked_once; cbn [calls observedSections].
  - split; [exact Hnodup|]. intros event He.
    destruct (Hcalls event He) as (Hn & Hc & id & Hl & Hid).
    repeat split; try assumption. exists id. split; [assumption | set_solver].
  - split.
    + rewrite List.map_app. cbn [List.map eventLabel].
      apply List.NoDup_app; [exact Hnodup | |].
      * constructor; [intros [] | constructor].
      * intros label Hlabel [<-|[]].
        apply List.in_map_iff in Hlabel as (event & Hl & He).
        destruct (Hcalls event He) as (_ & _ & id & Hl' & Hid).
        rewrite Hl in Hl'. injection Hl' as <-. contradiction.
    + intros event He. apply List.in_app_or in He as [He|[<-|[]]].
      * destruct (Hcalls event He) as (Hn & Hc & id & Hl & Hid).
        repeat split; try assumption. exists id. split; [assumption | set_solver].
      * repeat split. exists (target_id entry). split; [reflexivity | set_solver].
  - split; [exact Hnodup|]. intros event He.
    destruct (Hcalls event He) as (Hn & Hc & id & Hl & Hid).
    repeat split; try assumption. exists id. split; [assumption | set_solver].
Qed.

Lemma observer_callback_once (browser : Browser) (entries : list Entry)
    (state : Tracking) :
  tracked_once state -> tracked_once (observer_callback browser entries state).
Proof.
  unfold observer_callback. revert state.
  induction entries as [|entry entries IH]; intros state H; [exact H|].
  cbn [fold_left]. apply IH. now apply observe_entry_once.
Qed.

Lemma observe_entry_observed (browser : Browser) (state : Tracking) (entry : Entry) :
  observedSections (observe_entry browser state entry)
  = (if visible entry then {[ target_id entry ]} else ∅) ∪ observedSections state.
Proof.
  unfold observe_entry, visible.
  destruct (isIntersecting entry && _); [|set_solver].
  cbv zeta. destruct (decide (target_id entry ∈ observedSections state));
    cbn [observedSections]; set_solver.
Qed.

Lemma observer_callback_observed (browser : Browser) (entries : list Entry)
    (state : Tracking) :
  observedSections (observer_callback browser entries state)
  = visible_ids entries ∪ observedSections state.
Proof.
  unfold observer_callback, visible_ids. revert state.
  induction entries as [|entry entries IH]; intros state; [set_solver|].
  cbn [fold_left List.filter]. rewrite IH, observe_entry_observed.
  destruct (visible entry); cbn [List.map list_to_set]; set_solver.
Qed.

(** X20.  Each section is tracked at most once per page load: however often the
    observer callback runs and whatever the entries and the browser state
    are, no two calls of [gtag] have the same section, every call is a
    [section_view] of a section in [observedSections], and the set holds
    exactly the sections of which at least half became visible. *)
Theorem section_views_once : forall runs : list (Browser * list Entry),
  let state := page_load runs in
  List.NoDup (List.map eventLabel state.(calls))
  /\ (forall event, In event state.(calls) ->
        event.(eventName) = "section_view"
        /\ exists id, event.(eventLabel) = Some id
                      /\ id ∈ state.(observedSections))
  /\ (forall id, id ∈ state.(observedSections)
        <-> exists run, In run runs /\ id ∈ visible_ids (snd run)).
Proof.
  intros runs. cbv zeta. unfold page_load.
  assert (Hgen : forall state0,
            tracked_once state0 ->
            let state :=
              fold_left (fun state run =>
                           observer_callback (fst run) (snd run) state)
                runs state0 in
            tracked_once state
            /\ forall id, id ∈ observedSections state
                 <-> id ∈ observedSections state0
                     \/ exists run, In run runs /\ id ∈ visible_ids (snd run)).
  { induction runs as [|run runs IH]; intros state0 H0; cbv zeta.
    - split; [exact H0|]. intros id. split; [auto|].
      intros [H|(run & [] & _)]. exact H.
    - cbn [fold_left].
      destruct (IH _ (observer_callback_once (fst run) (snd run) state0 H0))
        as [Honce Hobs].
      split; [exact Honce|]. intros id. rewrite Hobs.
      rewrite observer_callback_observed. split.
      + intros [H|(r & Hr & Hid)].
        * apply elem_of_union in H as [H|H]; [right | now left].
          exists run. split; [now left | exact H].
        * right. exists r. split; [now right | exact Hid].
      + intros [H|(r & [<-|Hr] & Hid)].
        * left. set_solver.
        * left. set_solver.
        * right. exists r. now split. }
  destruct (Hgen {| observedSections := ∅; calls := [] |}) as [[Hnodup Hcalls] Hobs].
  { split; [constructor | intros event []]. }
  split; [exact Hnodup|]. split.
  - intros event He. destruct (Hcalls event He) as (Hn & _ & Hid). now split.
  - intros id. rewrite Hobs. cbn [observedSections]. split.
    + intros [H|H]; [set_solver | exact H].
    + intros H. now right.
Qed.

Lemma section_views_once_witness :
  "projects"
  ∈ observedSections
      (page_load
         [ ({| navigator_doNotTrack := None; window_doNotTrack := None;
               navigator_msDoNotTrack := None; gtag_defined := true |},
            [ {| isIntersecting := true;
                 intersectionRatio := QArith_base.Qmake 3 4;
                 target_id := "projects" |} ]) ]).
Proof.
  apply (proj2 (proj2 (proj2 (section_views_once _)) "projects")).
  eexists. split; [left; reflexivity|].
  apply (bool_decide_unpack _). vm_compute. exact I.
Defined.

Lemma observe_entry_silent (browser : Browser) (state : Tracking) (entry : Entry) :
  isDNTEnabled browser = true \/ gtag_defined browser = false ->
  calls (observe_entry browser state entry) = calls state.
Proof.
  intros H. unfold observe_entry.
  destruct (isIntersecting entry && _); [|reflexivity].
  cbv zeta. destruct (decide (target_id entry ∈ observedSections state));
    [reflexivity|].
  cbn [calls]. unfold trackEvent.
  destruct (isDNTEnabled browser); [reflexivity|].
  destruct H as [H|H]; [discriminate H|]. now rewrite H.
Qed.

Lemma observer_callback_silent (browser : Browser) (entries : list Entry)
    (state : Tracking) :
  isDNTEnabled browser = true \/ gtag_defined browser = false ->
  calls (observer_callback browser entries state) = calls state.
Proof.
  intros H. unfold observer_callback. revert state.
  induction entries as [|entry entries IH]; intros state; [reflexivity|].
  cbn [fold_left]. rewrite IH. now apply observe_entry_silent.
Qed.

(** X21.  Do Not Track.  When [navigator.doNotTrack] is a non-empty text it
    alone decides, whatever [window.doNotTrack] says; with Do Not Track
    enabled [trackEvent] makes no call; and a page load during which Do
    Not Track is enabled, or [gtag] is missing, at every run of the
    callback ends without a call, although the sections seen are still
    marked as observed. *)
Theorem do_not_track_respected :
  (forall (browser : Browser) (v : string),
     navigator_doNotTrack browser = Some v -> truthy v = true ->
     isDNTEnabled browser = String.eqb v "1" || String.eqb v "yes")
  /\ (forall (browser : Browser) (event : AnalyticsEvent)
             (calls : list AnalyticsEvent),
        isDNTEnabled browser = true -> trackEvent browser event calls = calls)
  /\ (forall runs : list (Browser * list Entry),
        (forall run, In run runs ->
           isDNTEnabled (fst run) = true \/ gtag_defined (fst run) = false) ->
        calls (page_load runs) = []
        /\ forall run, In run runs ->
             visible_ids (snd run) ⊆ observedSections (page_load runs)).
Proof.
  split; [|split].
  - intros browser v Hnav Hv. unfold isDNTEnabled, or_else.
    rewrite Hnav. cbn [truthy_opt]. rewrite Hv. cbn [truthy_opt].
    now rewrite Hv.
  - intros browser event calls H. unfold trackEvent. now rewrite H.
  - intros runs Hsilent. unfold page_load.
    assert (Hgen : forall state0,
              let state :=
                fold_left (fun state run =>
                             observer_callback (fst run) (snd run) state)
                  runs state0 in
              calls state = calls state0
              /\ observedSections state0 ⊆ observedSections state
              /\ forall run, In run runs ->
                   visible_ids (snd run) ⊆ observedSections state).
    { induction runs as [|run runs IH]; intros state0; cbv zeta.
      - split; [reflexivity|]. split; [set_solver | intros run []].
      - cbn [fold_left].
        destruct (IH (fun r Hr => Hsilent r (or_intror Hr))
                    (observer_callback (fst run) (snd run) state0))
          as (Hcalls & Hmono & Hseen).
        pose proof (observer_callback_observed (fst run) (snd run) state0) as Hobs.
        split; [|split].
        + rewrite Hcalls. apply observer_callback_silent.
          apply Hsilent. now left.
        + set_solver.
        + intros r [<-|Hr]; [set_solver | now apply Hseen]. }
    destruct (Hgen {| observedSections := ∅; calls := [] |}) as (Hc & _ & Hs).
    split; [exact Hc | exact Hs].
Qed.

Lemma do_not_track_respected_witness :
  isDNTEnabled {| navigator_doNotTrack := Some "0";
                  window_doNotTrack := Some "1";
                  navigator_msDoNotTrack := None;
                  gtag_defined := true |}
  = false.
Proof.
  apply (proj1 do_not_track_respected
           {| navigator_doNotTrack := Some "0"; window_doNotTrack := Some "1";
              navigator_msDoNotTrack := None; gtag_defined := true |} "0");
    reflexivity.
Defined.

End TrackingProofs.

(** ** middleware/cache-headers.ts *)

Module CacheHeadersProofs.
Import CacheHeaders StringFacts StringMore.

Lemma drop_append_length (p s : string) : drop (String.length p) (p ++ s) = s.
Proof. induction p as [|c p IH]; [now destruct s | exact IH]. Qed.

Lemma take_append_length (p s : string) : take (String.length p) (p ++ s) = p.
Proof. induction p as [|c p IH]; [now destruct s | cbn; now rewrite IH]. Qed.

Lemma endsWith_append (p suffix : string) : endsWith (p ++ suffix) suffix = true.
Proof.
  unfold endsWith. rewrite length_append.
  replace (String.length p + String.length suffix - String.length suffix)%nat
    with (String.length p) by lia.
  rewrite drop_append_length. apply String.eqb_refl.
Qed.

Lemma endsWith_elim (s suffix : string) :
  endsWith s suffix = true -> exists p, s = p ++ suffix.
Proof.
  unfold endsWith. intros H. apply String.eqb_eq in H.
  exists (take (String.length s - String.length suffix) s).
  rewrite <- H at 2. now rewrite take_drop.
Qed.

Lemma last_char_append (a b : string) :
  b <> EmptyString -> last_char (a ++ b) = last_char b.
Proof.
  intros Hb. induction a as [|c a IH]; [reflexivity|].
  cbn [String.append last_char]. rewrite <- IH.
  destruct (a ++ b) eqn:E; [|reflexivity].
  destruct a; [cbn in E; congruence | discriminate E].
Qed.

Lemma endsWith_last_char (s suffix : string) :
  suffix <> EmptyString -> endsWith s suffix = true ->
  last_char s = last_char suffix.
Proof.
  intros Hne H. apply endsWith_elim in H as [p ->].
  now apply last_char_append.
Qed.

Lemma lower_string_append (a b : string) :
  lower_string (a ++ b) = lower_string a ++ lower_string b.
Proof. induction a as [|c a IH]; [reflexivity | cbn; now rewrite IH]. Qed.

(** A path whose last character is not the last character of any
    alternative matches none of them. *)
Lemma no_match_by_last_char (alternatives : list string) (path : string) (c : ascii) :
  last_char (lower_string path) = Some c ->
  forallb (fun ext => negb (match last_char ext with
                            | Some d => Ascii.eqb d c
                            | None => true
                            end)) alternatives = true ->
  matches_extension alternatives path = false.
Proof.
  intros Hlast. unfold matches_extension.
  induction alternatives as [|ext l IH]; [reflexivity|].
  cbn [forallb existsb]. intros H. apply andb_prop in H as [Hext Hl].
  rewrite (IH Hl), orb_false_r.
  destruct (endsWith (lower_string path) ("." ++ ext)) eqn:E; [|reflexivity].
  apply endsWith_last_char in E; [|discriminate].
  rewrite Hlast in E. exfalso.
  destruct ext as [|e0 ext]; [discriminate Hext|].
  change (last_char ("." ++ String e0 ext)) with (last_char (String e0 ext)) in E.
  rewrite <- E in Hext. now rewrite Ascii.eqb_refl in Hext.
Qed.

(** X22.  The two security headers are on every response, whatever the path
    and whatever the rest of the chain set; apart from them and
    [Cache-Control] the middleware leaves every header as it was. *)
Theorem security_headers_always :
  forall (path : string) (response : gmap string string),
  cacheHeaders path response !! "x-content-type-options" = Some "nosniff"
  /\ cacheHeaders path response !! "x-frame-options" = Some "SAMEORIGIN"
  /\ forall name : string,
       name <> "cache-control" -> name <> "x-content-type-options" ->
       name <> "x-frame-options" ->
       cacheHeaders path response !! name = response !! name.
Proof.
  intros path response. unfold cacheHeaders, header.
  change (lower_string "X-Frame-Options") with "x-frame-options".
  change (lower_string "X-Content-Type-Options") with "x-content-type-options".
  change (lower_string "Cache-Control") with "cache-control".
  split; [|split].
  - rewrite lookup_insert_ne by discriminate. apply lookup_insert_eq.
  - apply lookup_insert_eq.
  - intros name H1 H2 H3.
    rewrite !lookup_insert_ne by congruence.
    repeat match goal with
           | |- context [if ?b then _ else _] => destruct b
           end; try reflexivity; now rewrite lookup_insert_ne by congruence.
Qed.

Lemma security_headers_always_witness :
  cacheHeaders "/about" {[ "content-type" := "text/html" ]} !! "content-type"
  = ({[ "content-type" := "text/html" ]} : gmap string string) !! "content-type".
Proof.
  apply (proj2 (proj2 (security_headers_always "/about"
                         {[ "content-type" := "text/html" ]})));
    discriminate.
Defined.

Lemma cache_control_of (path : string) (response : gmap string string) :
  cacheHeaders path response !! "cache-control"
  = if matches_extension asset_extensions path
       || matches_extension code_extensions path
    then Some "public, max-age=31536000, immutable"
    else if endsWith path ".html" || String.eqb path "/"
    then Some "public, max-age=3600, must-revalidate"
    else if String.eqb path "/sitemap.xml" || String.eqb path "/robots.txt"
    then Some "public, max-age=86400"
    else response !! "cache-control".
Proof.
  unfold cacheHeaders, header.
  change (lower_string "X-Frame-Options") with "x-frame-options".
  change (lower_string "X-Content-Type-Options") with "x-content-type-options".
  change (lower_string "Cache-Control") with "cache-control".
  rewrite !lookup_insert_ne by discriminate.
  repeat match goal with
         | |- context [if ?b then _ else _] => destruct b
         end; try reflexivity; apply lookup_insert_eq.
Qed.

(** X23.  The rules for [Cache-Control].  A path that ends in a dot and one of
    the thirteen asset extensions, in any mix of upper and lower case, is
    cached for a year; a path that ends in [.html], in lower case, and
    the root path are cached for an hour; the sitemap and the robots file
    for a day; a path that ends in [.HTML] in upper case falls under no
    rule; on any other path the header stays as the rest of the chain
    left it. *)
Theorem cache_control_rules :
  (forall (base written ext : string) (response : gmap string string),
     In ext (asset_extensions ++ code_extensions) ->
     lower_string written = ext ->
     cacheHeaders (base ++ "." ++ written) response !! "cache-control"
     = Some "public, max-age=31536000, immutable")
  /\ (forall (base : string) (response : gmap string string),
        cacheHeaders (base ++ ".html") response !! "cache-control"
        = Some "public, max-age=3600, must-revalidate")
  /\ (forall response : gmap string string,
        cacheHeaders "/" response !! "cache-control"
          = Some "public, max-age=3600, must-revalidate"
        /\ cacheHeaders "/sitemap.xml" response !! "cache-control"
          = Some "public, max-age=86400"
        /\ cacheHeaders "/robots.txt" response !! "cache-control"
          = Some "public, max-age=86400")
  /\ (forall (base : string) (response : gmap string string),
        cacheHeaders (base ++ ".HTML") response !! "cache-control"
        = response !! "cache-control")
  /\ (forall (path : string) (response : gmap string string),
        matches_extension (asset_extensions ++ code_extensions) path = false ->
        endsWith path ".html" = false ->
        path <> "/" -> path <> "/sitemap.xml" -> path <> "/robots.txt" ->
        cacheHeaders path response !! "cache-control"
        = response !! "cache-control").
Proof.
  split; [|split; [|split; [|split]]].
  - intros base written ext response Hin Hlower. rewrite cache_control_of.
    assert (Hmatch : matches_extension (asset_extensions ++ code_extensions)
                       (base ++ "." ++ written) = true).
    { unfold matches_extension. apply List.existsb_exists. exists ext.
      split; [exact Hin|].
      rewrite !lower_string_append, Hlower.
      change (lower_string ".") with ".".
      apply endsWith_append. }
    unfold matches_extension in *. rewrite List.existsb_app in Hmatch.
    now rewrite Hmatch.
  - intros base response. rewrite cache_control_of.
    assert (Hlast : last_char (lower_string (base ++ ".html")) = Some "l"%char).
    { rewrite lower_string_append. now rewrite last_char_append. }
    rewrite (no_match_by_last_char asset_extensions _ _ Hlast) by reflexivity.
    rewrite (no_match_by_last_char code_extensions _ _ Hlast) by reflexivity.
    cbn [orb]. now rewrite endsWith_append.
  - intros response. rewrite !cache_control_of. repeat split; reflexivity.
  - intros base response. rewrite cache_control_of.
    assert (Hlast : last_char (lower_string (base ++ ".HTML")) = Some "l"%char).
    { rewrite lower_string_append. now rewrite last_char_append. }
    assert (Hupper : last_char (base ++ ".HTML") = Some "L"%char)
      by now rewrite last_char_append.
    rewrite (no_match_by_last_char asset_extensions _ _ Hlast) by reflexivity.
    rewrite (no_match_by_last_char code_extensions _ _ Hlast) by reflexivity.
    cbn [orb].
    destruct (endsWith (base ++ ".HTML") ".html") eqn:E.
    { apply endsWith_last_char in E; [|discriminate].
      rewrite Hupper in E. discriminate E. }
    repeat match goal with
           | |- context [String.eqb ?a ?b] =>
               let Q := fresh in
               destruct (String.eqb a b) eqn:Q;
               [apply String.eqb_eq in Q; rewrite Q in Hupper; discriminate Hupper|]
           end.
    reflexivity.
  - intros path response Hnone Hhtml H1 H2 H3. rewrite cache_control_of.
    unfold matches_extension in *. rewrite List.existsb_app in Hnone.
    rewrite Hnone, Hhtml.
    apply String.eqb_neq in H1, H2, H3. now rewrite H1, H2, H3.
Qed.

Lemma cache_control_rules_witness :
  cacheHeaders ("/static/Photo" ++ "." ++ "JPG") ∅ !! "cache-control"
  = Some "public, max-age=31536000, immutable".
Proof.
  apply (proj1 cache_control_rules "/static/Photo" "JPG" "jpg" ∅).
  - cbn. auto.
  - reflexivity.
Defined.

End CacheHeadersProofs.

(** ** image-optimization.ts *)

Module ImageOptimizationProofs.
Import ImageOptimization StringFacts StringMore CacheHeadersProofs.

Lemma lastIndexOf_from_free (s : string) (c : ascii) (i : Z) :
  free_of c s = true -> lastIndexOf_from s c i = (-1)%Z.
Proof.
  revert i. induction s as [|d s IH]; intros i H; [reflexivity|].
  cbn in H. apply andb_prop in H as [Hd Hs].
  cbn [lastIndexOf_from]. rewrite (IH _ Hs). cbn.
  now destruct (Ascii.eqb d c).
Qed.

(** Either the character does not occur, or the result is its last
    position. *)
Lemma lastIndexOf_from_spec (s : string) (c : ascii) (i : Z) :
  (0 <= i)%Z ->
  (lastIndexOf_from s c i = (-1)%Z /\ free_of c s = true)
  \/ (i <= lastIndexOf_from s c i < i + str_length s)%Z
     /\ (let k := Z.to_nat (lastIndexOf_from s c i - i) in
         take k s ++ String c (drop (S k) s) = s
         /\ free_of c (drop (S k) s) = true).
Proof.
  revert i. induction s as [|d s IH]; intros i Hi; [left; now split|].
  cbn [lastIndexOf_from].
  destruct (IH (i + 1)%Z ltac:(lia)) as [[Hnone Hfree] | [Hrange Hsplit]].
  - rewrite Hnone. cbn [Z.eqb Pos.eqb].
    destruct (Ascii.eqb d c) eqn:E.
    + right. apply Ascii.eqb_eq in E. subst d.
      replace (i - i)%Z with 0%Z by lia. cbn.
      split; [unfold str_length; cbn [String.length]; lia | now split].
    + left. split; [reflexivity|]. cbn. now rewrite E.
  - destruct (Z.eqb_spec (lastIndexOf_from s c (i + 1)) (-1)) as [Heq|_]; [lia|].
    right. unfold str_length in *. cbn [String.length].
    split; [lia|]. cbn zeta in *.
    replace (Z.to_nat (lastIndexOf_from s c (i + 1) - i))
      with (S (Z.to_nat (lastIndexOf_from s c (i + 1) - (i + 1)))) by lia.
    destruct Hsplit as [Hs Hf].
    set (k := Z.to_nat (lastIndexOf_from s c (i + 1) - (i + 1))) in *.
    change (drop (S (S k)) (String d s)) with (drop (S k) s).
    change (take (S k) (String d s)) with (String d (take k s)).
    cbn [String.append].
    split; [now rewrite Hs | exact Hf].
Qed.

Lemma lastIndexOf_from_append (p t : string) (c : ascii) (i : Z) :
  (0 <= i)%Z -> free_of c t = true ->
  lastIndexOf_from (p ++ String c t) c i = (i + str_length p)%Z.
Proof.
  revert i. induction p as [|d p IH]; intros i Hi Hfree.
  - cbn [String.append lastIndexOf_from].
    rewrite (lastIndexOf_from_free _ _ _ Hfree), Ascii.eqb_refl.
    unfold str_length. cbn. lia.
  - cbn [String.append lastIndexOf_from].
    rewrite (IH (i + 1)%Z ltac:(lia) Hfree).
    unfold str_length. cbn [String.length].
    destruct (Z.eqb_spec (i + 1 + Z.of_nat (String.length p)) (-1)); lia.
Qed.

Lemma substring_from_drop (s : string) (n : Z) :
  (0 <= n <= str_length s)%Z -> substring_from s n = drop (Z.to_nat n) s.
Proof.
  intros H. unfold substring_from, substring, clamp.
  replace (Z.min (Z.max 0 (Z.min n (str_length s)))
                 (Z.max 0 (Z.min (str_length s) (str_length s)))) with n by lia.
  replace (Z.max (Z.max 0 (Z.min n (str_length s)))
                 (Z.max 0 (Z.min (str_length s) (str_length s))))
    with (str_length s) by lia.
  apply take_all. rewrite length_drop. unfold str_length. lia.
Qed.

Lemma drop_succ_take (k : nat) (s : string) (c : ascii) (r : string) :
  take k s ++ String c r = s -> r = drop (S k) s -> drop k s = String c r.
Proof.
  intros H _. apply (append_cancel_l (take k s)).
  now rewrite take_drop.
Qed.

Lemma split_at_last_dot (base ext : string) :
  base <> EmptyString -> free_of "." ext = true ->
  basePath (base ++ "." ++ ext) = base
  /\ extension (base ++ "." ++ ext) = "." ++ ext.
Proof.
  intros Hbase Hfree. unfold basePath, extension, lastIndexOf.
  change ("." ++ ext) with (String "." ext).
  rewrite (lastIndexOf_from_append base ext "." 0 ltac:(lia) Hfree).
  rewrite Z.add_0_l.
  assert (Hlen : (0 < str_length base)%Z).
  { unfold str_length. destruct base; [congruence | cbn [String.length]; lia]. }
  destruct (Z.ltb_spec 0 (str_length base)) as [_|]; [|lia].
  assert (Hall : (str_length base <= str_length (base ++ String "." ext))%Z).
  { unfold str_length. rewrite length_append. lia. }
  rewrite substring_prefix by lia.
  rewrite substring_from_drop by lia.
  unfold str_length. rewrite Nat2Z.id.
  now rewrite take_append_length, drop_append_length.
Qed.

(** X24.  How the source path is split.  With a dot after its first character
    the path is cut at its last dot: base and extension put together give
    the path back, the base is not empty, and the extension is a dot
    followed by text without a dot.  Without such a dot the whole path is
    the base and the extension is [.jpg].  A non-empty base followed by a
    dot and an extension without a dot is split back into these two. *)
Theorem image_path_split :
  (forall src : string,
     (0 < lastIndexOf src ".")%Z ->
     basePath src ++ extension src = src
     /\ basePath src <> EmptyString
     /\ exists rest, extension src = "." ++ rest /\ free_of "." rest = true)
  /\ (forall src : string,
        (lastIndexOf src "." <= 0)%Z ->
        basePath src = src /\ extension src = ".jpg")
  /\ (forall base ext : string,
        base <> EmptyString -> free_of "." ext = true ->
        basePath (base ++ "." ++ ext) = base
        /\ extension (base ++ "." ++ ext) = "." ++ ext).
Proof.
  split; [|split].
  - intros src Hpos. unfold basePath, extension.
    destruct (Z.ltb_spec 0 (lastIndexOf src ".")) as [_|]; [|lia].
    unfold lastIndexOf in *.
    destruct (lastIndexOf_from_spec src "." 0 ltac:(lia))
      as [[Hnone _] | [Hrange [Hsplit Hfree]]]; [lia|].
    rewrite Z.sub_0_r in Hsplit, Hfree.
    set (r := lastIndexOf_from src "." 0) in *.
    rewrite substring_prefix by lia.
    rewrite substring_from_drop by lia.
    split; [apply take_drop|].
    split.
    + intros Hempty.
      assert (Hlen : String.length (take (Z.to_nat r) src) = Z.to_nat r)
        by (apply length_take; unfold str_length in Hrange; lia).
      rewrite Hempty in Hlen. cbn in Hlen. lia.
    + exists (drop (S (Z.to_nat r)) src). split; [|exact Hfree].
      now apply drop_succ_take.
  - intros src Hle. unfold basePath, extension.
    destruct (Z.ltb_spec 0 (lastIndexOf src ".")) as [|_]; [lia|]. now split.
  - intros base ext. apply split_at_last_dot.
Qed.

Lemma image_path_split_witness :
  basePath ("/static/photo.large" ++ "." ++ "png") = "/static/photo.large"
  /\ extension ("/static/photo.large" ++ "." ++ "png") = "." ++ "png".
Proof.
  apply (proj2 (proj2 image_path_split) "/static/photo.large" "png").
  - discriminate.
  - reflexivity.
Defined.

(** X25.  The picture element of a source with a file extension: the first
    source is the same path with the extension replaced by [webp], the
    second has the extension as its image type, and the image itself is
    the one [generateOptimizedImg] writes. *)
Theorem generateResponsiveImage_sources :
  forall (config : ResponsiveImageConfig) (base ext : string),
  config.(src) = base ++ "." ++ ext ->
  base <> EmptyString -> free_of "." ext = true ->
  let sizes := or_default config.(sizes) "100vw" in
  generateResponsiveImage config
  = "<picture>" ++ nl ++
    "  <source type=" ++ quoted "image/webp"
      ++ " srcset=" ++ quoted ((base ++ ".webp") ++ " 1x, " ++ (base ++ ".webp") ++ " 2x")
      ++ " sizes=" ++ quoted sizes ++ ">" ++ nl ++
    "  <source type=" ++ quoted ("image/" ++ ext)
      ++ " srcset=" ++ quoted (config.(src) ++ " 1x, " ++ config.(src) ++ " 2x")
      ++ " sizes=" ++ quoted sizes ++ ">" ++ nl ++
    "  " ++ generateOptimizedImg config ++ nl ++
    "</picture>".
Proof.
  intros config base ext Hsrc Hbase Hfree sizes.
  unfold generateResponsiveImage, generateOptimizedImg. cbn zeta.
  rewrite Hsrc.
  destruct (split_at_last_dot base ext Hbase Hfree) as [Hb He].
  rewrite Hb, He.
  assert (Hext : substring_from ("." ++ ext) 1 = ext).
  { rewrite substring_from_drop; [reflexivity|].
    unfold str_length. cbn [String.append String.length]. lia. }
  rewrite Hext. subst sizes.
  unfold quoted. rewrite !append_assoc. reflexivity.
Qed.

Lemma generateResponsiveImage_sources_witness :
  generateResponsiveImage
    {| src := "/static/me.jpg"; alt := "Portrait"; sizes := None;
       loading := None; className := None |}
  = "<picture>" ++ nl ++
    "  <source type=" ++ quoted "image/webp"
      ++ " srcset=" ++ quoted "/static/me.webp 1x, /static/me.webp 2x"
      ++ " sizes=" ++ quoted "100vw" ++ ">" ++ nl ++
    "  <source type=" ++ quoted "image/jpg"
      ++ " srcset=" ++ quoted "/static/me.jpg 1x, /static/me.jpg 2x"
      ++ " sizes=" ++ quoted "100vw" ++ ">" ++ nl ++
    "  <img src=" ++ quoted "/static/me.jpg" ++ " alt=" ++ quoted "Portrait"
      ++ " loading=" ++ quoted "lazy" ++ " class=" ++ quoted EmptyString ++ ">" ++ nl ++
    "</picture>".
Proof.
  exact (generateResponsiveImage_sources
           {| src := "/static/me.jpg"; alt := "Portrait"; sizes := None;
              loading := None; className := None |}
           "/static/me" "jpg" eq_refl ltac:(discriminate) eq_refl).
Defined.

End ImageOptimizationProofs.
